(** * A shallow embedding of the paper-correction pipeline

    The repository consists of three Python scripts:
    - [extractor.py]: OCR of a printed PDF into a text file with page markers;
    - [htr.py]: transcription of a handwritten PDF by a hosted model, with a
      two-tier repair of the JSON the model answers;
    - [htr_pipeline.py]: solution parsing, grading, report rendering and the
      driver [run_pipeline].

    Python values are embedded as an inductive type, Python [str] as the list
    of its Unicode code points, exceptions as an error type, and the
    filesystem, the console and the process environment as an explicit world
    that every effectful function threads.  The OCR engine and the hosted
    model are external: they are the fields of a record [externals] every
    effectful function takes, and with them the limits of the interpreter
    that the JSON decoder runs into. *)

From Stdlib Require Import List ZArith NArith String Ascii Bool Lia DecimalPos.
From stdpp Require Import gmap.
Import ListNotations.

(** Splits a conjunction into its parts (and nothing else). *)
Ltac conjs := repeat match goal with |- _ /\ _ => split end.

(** ** Python [str]: sequences of code points *)

Abbreviation pystr := (list N) (only parsing).

(** Decoding of a UTF-8 byte sequence; literals of this file are written as
    Rocq strings (bytes) and read through [lit]. *)
Fixpoint utf8_decode (bs : list N) : pystr :=
  match bs with
  | [] => []
  | b :: r =>
    if (b <? 128)%N then b :: utf8_decode r
    else if (b <? 224)%N then
      match r with
      | c1 :: r1 => ((b - 192) * 64 + (c1 - 128))%N :: utf8_decode r1
      | _ => []
      end
    else if (b <? 240)%N then
      match r with
      | c1 :: c2 :: r2 =>
        ((b - 224) * 4096 + (c1 - 128) * 64 + (c2 - 128))%N :: utf8_decode r2
      | _ => []
      end
    else
      match r with
      | c1 :: c2 :: c3 :: r3 =>
        ((b - 240) * 262144 + (c1 - 128) * 4096 + (c2 - 128) * 64 + (c3 - 128))%N
          :: utf8_decode r3
      | _ => []
      end
  end.

Definition lit (s : string) : pystr :=
  utf8_decode (map N_of_ascii (list_ascii_of_string s)).

Definition ch (a : ascii) : N := N_of_ascii a.
Arguments ch : simpl never.

(** The double quote, and literals in which an apostrophe stands for it (the
    JSON texts and prompts of the scripts are full of double quotes). *)
Definition dquote : N := 34%N.

Definition qlit (s : string) : pystr :=
  map (fun c => if (c =? 39)%N then dquote else c) (lit s).

Fixpoint pystr_eqb (a b : pystr) : bool :=
  match a, b with
  | [], [] => true
  | x :: a', y :: b' => (x =? y)%N && pystr_eqb a' b'
  | _, _ => false
  end.

(** [s.startswith(p)] *)
Fixpoint startswith (p s : pystr) : bool :=
  match p, s with
  | [], _ => true
  | x :: p', y :: s' => (x =? y)%N && startswith p' s'
  | _ :: _, [] => false
  end.

(** [p in s] *)
Fixpoint contains (p s : pystr) : bool :=
  startswith p s || match s with [] => false | _ :: s' => contains p s' end.

(** [s.replace(old, new)] for a non-empty [old]: occurrences are found from
    the left and do not overlap.  [skip] counts the characters of an
    occurrence that are still to be dropped. *)
Fixpoint replace_from (old new : pystr) (skip : nat) (s : pystr) : pystr :=
  match s with
  | [] => []
  | c :: s' =>
    match skip with
    | S k => replace_from old new k s'
    | O =>
      if startswith old s
      then new ++ replace_from old new (length old - 1) s'
      else c :: replace_from old new 0 s'
    end
  end.

Definition replace (old new s : pystr) : pystr := replace_from old new 0 s.

(** [str.isspace] on one character: the characters [str.strip()] removes. *)
Definition isspace (c : N) : bool :=
  ((9 <=? c) && (c <=? 13) || (28 <=? c) && (c <=? 32) || (c =? 133) || (c =? 160)
   || (c =? 5760) || (8192 <=? c) && (c <=? 8202) || (c =? 8232) || (c =? 8233)
   || (c =? 8239) || (c =? 8287) || (c =? 12288))%N.

Fixpoint lstrip (s : pystr) : pystr :=
  match s with
  | [] => []
  | c :: s' => if isspace c then lstrip s' else s
  end.

Definition rstrip (s : pystr) : pystr := rev (lstrip (rev s)).

(** [s.strip()] *)
Definition strip (s : pystr) : pystr := rstrip (lstrip s).

(** [sep.join(parts)] *)
Fixpoint join (sep : pystr) (parts : list pystr) : pystr :=
  match parts with
  | [] => []
  | [p] => p
  | p :: rest => p ++ sep ++ join sep rest
  end.

(** [s * n] *)
Fixpoint times (s : pystr) (n : nat) : pystr :=
  match n with
  | O => []
  | S k => s ++ times s k
  end.

(** [str(n)] for an integer: decimal digits. *)
Fixpoint uint_digits (u : Decimal.uint) : pystr :=
  match u with
  | Decimal.Nil => []
  | Decimal.D0 u' => 48%N :: uint_digits u'
  | Decimal.D1 u' => 49%N :: uint_digits u'
  | Decimal.D2 u' => 50%N :: uint_digits u'
  | Decimal.D3 u' => 51%N :: uint_digits u'
  | Decimal.D4 u' => 52%N :: uint_digits u'
  | Decimal.D5 u' => 53%N :: uint_digits u'
  | Decimal.D6 u' => 54%N :: uint_digits u'
  | Decimal.D7 u' => 55%N :: uint_digits u'
  | Decimal.D8 u' => 56%N :: uint_digits u'
  | Decimal.D9 u' => 57%N :: uint_digits u'
  end.

Definition str_of_N (n : N) : pystr := uint_digits (N.to_uint n).

Definition str_of_Z (z : Z) : pystr :=
  match z with
  | Zneg p => ch "-" :: str_of_N (Npos p)
  | _ => str_of_N (Z.to_N z)
  end.

Example lit_glyph : lit "✓" = [10003%N].
Proof. reflexivity. Qed.

Example replace_ex : replace (lit "ab") (lit "X") (lit "aabbab") = lit "aXbX".
Proof. reflexivity. Qed.

Example strip_ex : strip (lit "  a b
 ") = lit "a b".
Proof. reflexivity. Qed.

Example str_of_Z_ex : str_of_Z (-120) = lit "-120" /\ str_of_Z 0 = lit "0".
Proof. conjs; reflexivity. Qed.

(** ** Python [float]: the finite values of IEEE 754 binary64 and its specials

    [FFin neg m e] is the number [(-1)^neg * m * 2^e]; the values built here
    have [m < 2^53] and [-1074 <= e <= 971]. *)
Inductive pyfloat : Type :=
| FNan
| FInf (neg : bool)
| FFin (neg : bool) (m : N) (e : Z).

(** Quotient of [n] by [d > 0] rounded to the nearest integer, ties to even. *)
Definition div_half_even (n d : Z) : Z :=
  let q := (n / d)%Z in
  let r := (n mod d)%Z in
  if (d <? 2 * r)%Z || ((d =? 2 * r)%Z && Z.odd q) then (q + 1)%Z else q.

(** The binary64 number nearest to [num / den] (ties to even), as mantissa
    and exponent; [None] when the rounded value is beyond the largest finite
    one. *)
Definition round_binary64 (num den : Z) : option (N * Z) :=
  if (num =? 0)%Z then Some (0%N, 0%Z)
  else
    let k := (Z.log2 num - Z.log2 den)%Z in
    let ge := if (0 <=? k)%Z then (den * 2 ^ k <=? num)%Z
              else (den <=? num * 2 ^ (- k))%Z in
    let fl := if ge then k else (k - 1)%Z in
    let e := Z.max (fl - 52) (-1074) in
    let q := if (e <? 0)%Z then div_half_even (num * 2 ^ (- e)) den
             else div_half_even num (den * 2 ^ e) in
    let '(m, e') := if (q =? 2 ^ 53)%Z then ((2 ^ 52)%Z, (e + 1)%Z) else (q, e) in
    if (971 <? e')%Z then None else Some (Z.to_N m, e').

(** [float(text)] for the decimal numeral [mant * 10^exp10]: the nearest
    binary64 number, an infinity on overflow. *)
Definition float_of_decimal (neg : bool) (mant : N) (exp10 : Z) : pyfloat :=
  let r := if (0 <=? exp10)%Z then round_binary64 (Z.of_N mant * 10 ^ exp10) 1
           else round_binary64 (Z.of_N mant) (10 ^ (- exp10)) in
  match r with
  | Some (m, e) => FFin neg m e
  | None => FInf neg
  end.

(** [float(n)] for an integer; [None] stands for Python's [OverflowError]. *)
Definition float_of_int (z : Z) : option pyfloat :=
  match round_binary64 (Z.abs z) 1 with
  | Some (m, e) => Some (FFin (z <? 0)%Z m e)
  | None => None
  end.

(** [format(x, ".1f")]: the exact value rounded to one decimal, ties to
    even. *)
Definition format_1f (x : pyfloat) : pystr :=
  match x with
  | FNan => lit "nan"
  | FInf false => lit "inf"
  | FInf true => lit "-inf"
  | FFin neg m e =>
    let q := if (e <? 0)%Z then div_half_even (Z.of_N m * 10) (2 ^ (- e))
             else (Z.of_N m * 10 * 2 ^ e)%Z in
    (if neg then [ch "-"] else [])
      ++ str_of_Z (q / 10) ++ [ch "."] ++ str_of_Z (q mod 10)
  end.

Definition float_is_zero (x : pyfloat) : bool :=
  match x with
  | FFin _ m _ => (m =? 0)%N
  | _ => false
  end.

(** [x > 0] on floats. *)
Definition float_pos (x : pyfloat) : bool :=
  match x with
  | FNan => false
  | FInf neg => negb neg
  | FFin neg m _ => negb neg && negb (m =? 0)%N
  end.

Example float_tenth : float_of_decimal false 1 (-1) = FFin false 7205759403792794 (-56).
Proof. vm_compute. reflexivity. Qed.

Example format_examples :
  format_1f (float_of_decimal false 400 (-1)) = lit "40.0"
  /\ format_1f (float_of_decimal false 6667 (-2)) = lit "66.7"
  /\ format_1f (float_of_decimal false 25 (-2)) = lit "0.2"
  /\ format_1f (float_of_decimal false 35 (-2)) = lit "0.3"
  /\ format_1f (float_of_decimal true 4 (-2)) = lit "-0.0"
  /\ format_1f (float_of_decimal false 1 999) = lit "inf"
  /\ option_map format_1f (float_of_int 9007199254740993) = Some (lit "9007199254740992.0").
Proof. conjs; vm_compute; reflexivity. Qed.

(** ** Python values

    The values the scripts handle are those [json.loads] builds, and dicts
    and lists of them.  A dict keeps its keys in insertion order. *)
#[local] Set Warnings "-register-all".

Inductive value : Type :=
| VNone
| VBool (b : bool)
| VInt (z : Z)
| VFloat (x : pyfloat)
| VStr (s : pystr)
| VList (l : list value)
| VDict (d : list (pystr * value)).

Definition pydict : Type := list (pystr * value).

Fixpoint dict_lookup (k : pystr) (d : pydict) : option value :=
  match d with
  | [] => None
  | (k', v) :: d' => if pystr_eqb k k' then Some v else dict_lookup k d'
  end.

(** [d[k] = v] *)
Fixpoint dict_set (k : pystr) (v : value) (d : pydict) : pydict :=
  match d with
  | [] => [(k, v)]
  | (k', v') :: d' =>
    if pystr_eqb k k' then (k', v) :: d' else (k', v') :: dict_set k v d'
  end.

(** ** Exceptions *)
Inductive exn : Type :=
| JSONDecodeError (doc : pystr)
| ValueError (msg : pystr)
| RecursionError
| TypeError
| AttributeError
| KeyError (key : pystr)
| OverflowError
| EnvironmentError (msg : pystr)
| FileNotFoundError (path : pystr)
| ExternalError (what : pystr).

Inductive result (A : Type) : Type :=
| Ok (a : A)
| Raise (e : exn).
Arguments Ok {A} a.
Arguments Raise {A} e.

(** [d.get(k, default)]: only a dict has the method. *)
Definition py_get (o : value) (k : pystr) (default : value) : result value :=
  match o with
  | VDict d => Ok (match dict_lookup k d with Some v => v | None => default end)
  | _ => Raise AttributeError
  end.

(** [d[k]] where the scripts subscript a parsed object with a string key. *)
Definition py_getitem (o : value) (k : pystr) : result value :=
  match o with
  | VDict d => match dict_lookup k d with Some v => Ok v | None => Raise (KeyError k) end
  | _ => Raise TypeError
  end.

(** [len(x)] *)
Definition py_len (o : value) : result nat :=
  match o with
  | VStr s => Ok (length s)
  | VList l => Ok (length l)
  | VDict d => Ok (length d)
  | _ => Raise TypeError
  end.

(** Truth value of an object in a condition. *)
Definition py_truthy (o : value) : bool :=
  match o with
  | VNone => false
  | VBool b => b
  | VInt z => negb (z =? 0)%Z
  | VFloat x => negb (float_is_zero x)
  | VStr s => negb (pystr_eqb s [])
  | VList l => match l with [] => false | _ => true end
  | VDict d => match d with [] => false | _ => true end
  end.

(** [x > 0]: numbers compare, anything else against an int is a TypeError. *)
Definition py_gt_zero (o : value) : result bool :=
  match o with
  | VBool b => Ok b
  | VInt z => Ok (0 <? z)%Z
  | VFloat x => Ok (float_pos x)
  | _ => Raise TypeError
  end.

(** [iter(x)] as the list of the items a [for] loop visits. *)
Definition py_iter (o : value) : result (list value) :=
  match o with
  | VList l => Ok l
  | VDict d => Ok (map (fun kv => VStr (fst kv)) d)
  | VStr s => Ok (map (fun c => VStr [c]) s)
  | _ => Raise TypeError
  end.

(** [format(x, ".1f")] *)
Definition py_format_1f (o : value) : result pystr :=
  match o with
  | VBool b => Ok (if b then lit "1.0" else lit "0.0")
  | VInt z =>
    match float_of_int z with
    | Some x => Ok (format_1f x)
    | None => Raise OverflowError
    end
  | VFloat x => Ok (format_1f x)
  | VStr _ => Raise (ValueError (lit "Unknown format code 'f' for object of type 'str'"))
  | _ => Raise TypeError
  end.

(** ** [json.loads]

    The decoder of the standard library with its default options: JSON text
    to Python value, [NaN], [Infinity] and [-Infinity] accepted, control
    characters refused inside strings, the last of several equal keys kept.
    The text is cut into tokens and the tokens are parsed by recursive
    descent, left to right, and the decoder stops at the first thing it
    cannot accept.  It fails in three ways: with [json.JSONDecodeError] on a
    text that is not JSON (its message and position are not modelled), with
    [RecursionError] when arrays and objects nest deeper than the interpreter
    allows, and with a plain [ValueError], which is no
    [json.JSONDecodeError], on an integer of more digits than the
    interpreter converts. *)

(** The limits of the interpreter that reach the decoder.  [json_depth] is
    the number of arrays and objects, each inside the one before, that the
    decoder may enter: what the recursion limit leaves at the call.
    [int_max_str_digits] is [sys.get_int_max_str_digits()]: 4300 unless it
    was set otherwise, 0 where there is no limit. *)
Record limits : Type := mk_limits {
  json_depth : nat;
  int_max_str_digits : nat
}.

(** The limits of CPython as it is shipped: a recursion limit of 1000 and
    4300 digits. *)
Definition default_limits : limits := mk_limits 1000 4300.

(** An integer literal is kept as its sign and its digits: the decoder
    converts it when it takes it as a value. *)
Inductive token : Type :=
| TLBrace | TRBrace | TLBracket | TRBracket | TColon | TComma
| TString (s : pystr)
| TInt (neg : bool) (digits : pystr)
| TValue (v : value).

(** The whitespace of JSON: space, tab, line feed, carriage return. *)
Definition json_ws (c : N) : bool :=
  ((c =? 32) || (c =? 9) || (c =? 10) || (c =? 13))%N.

Definition is_digit (c : N) : bool := ((48 <=? c) && (c <=? 57))%N.

Definition hexval (c : N) : option N :=
  if is_digit c then Some (c - 48)%N
  else if ((97 <=? c) && (c <=? 102))%N then Some (c - 87)%N
  else if ((65 <=? c) && (c <=? 70))%N then Some (c - 55)%N
  else None.

(** The one-character escapes after a backslash. *)
Definition unescape (c : N) : option N :=
  if (c =? 34)%N then Some 34%N
  else if (c =? 92)%N then Some 92%N
  else if (c =? 47)%N then Some 47%N
  else if (c =? ch "b")%N then Some 8%N
  else if (c =? ch "f")%N then Some 12%N
  else if (c =? ch "n")%N then Some 10%N
  else if (c =? ch "r")%N then Some 13%N
  else if (c =? ch "t")%N then Some 9%N
  else None.

Definition is_high_surrogate (u : N) : bool := ((55296 <=? u) && (u <=? 56319))%N.
Definition is_low_surrogate (u : N) : bool := ((56320 <=? u) && (u <=? 57343))%N.

Definition join_surrogates (hi lo : N) : N :=
  (65536 + (hi - 55296) * 1024 + (lo - 56320))%N.

(** Where the scanner of a string literal stands: in plain text, after a
    backslash, inside the four hex digits of a [\u] escape, or past a high
    surrogate escape [hi] that a low surrogate escape may complete. *)
Inductive sstate : Type :=
| SNorm
| SEsc
| SHex (left : nat) (acc : N)
| SHi (hi : N)
| SHiEsc (hi : N)
| SHiHex (hi : N) (left : nat) (acc : N).

(** Scans a string literal after its opening quote: the decoded string and
    the text after the closing quote.  [out] holds the decoded characters,
    last first. *)
Fixpoint scanstring (st : sstate) (out : pystr) (s : pystr) : option (pystr * pystr) :=
  match s with
  | [] => None
  | c :: r =>
    match st with
    | SNorm =>
      if (c =? 34)%N then Some (rev out, r)
      else if (c =? 92)%N then scanstring SEsc out r
      else if (c <? 32)%N then None
      else scanstring SNorm (c :: out) r
    | SEsc =>
      if (c =? ch "u")%N then scanstring (SHex 4 0) out r
      else match unescape c with
           | Some d => scanstring SNorm (d :: out) r
           | None => None
           end
    | SHex n acc =>
      match hexval c, n with
      | Some h, 1 =>
        let u := (acc * 16 + h)%N in
        if is_high_surrogate u then scanstring (SHi u) out r
        else scanstring SNorm (u :: out) r
      | Some h, S n' => scanstring (SHex n' (acc * 16 + h)%N) out r
      | _, _ => None
      end
    | SHi hi =>
      if (c =? 34)%N then Some (rev (hi :: out), r)
      else if (c =? 92)%N then scanstring (SHiEsc hi) out r
      else if (c <? 32)%N then None
      else scanstring SNorm (c :: hi :: out) r
    | SHiEsc hi =>
      if (c =? ch "u")%N then scanstring (SHiHex hi 4 0) out r
      else match unescape c with
           | Some d => scanstring SNorm (d :: hi :: out) r
           | None => None
           end
    | SHiHex hi n acc =>
      match hexval c, n with
      | Some h, 1 =>
        let u := (acc * 16 + h)%N in
        if is_low_surrogate u then scanstring SNorm (join_surrogates hi u :: out) r
        else if is_high_surrogate u then scanstring (SHi u) (hi :: out) r
        else scanstring SNorm (u :: hi :: out) r
      | Some h, S n' => scanstring (SHiHex hi n' (acc * 16 + h)%N) out r
      | _, _ => None
      end
    end
  end.

(** The longest prefix of digits, and the rest. *)
Fixpoint span_digits (s : pystr) : pystr * pystr :=
  match s with
  | c :: r =>
    if is_digit c then let (ds, r') := span_digits r in (c :: ds, r') else ([], s)
  | [] => ([], [])
  end.

Definition digits_val (ds : pystr) : N :=
  fold_left (fun acc c => (acc * 10 + (c - 48))%N) ds 0%N.

(** The text after the prefix [p] of [s]. *)
Fixpoint strip_prefix (p s : pystr) : option pystr :=
  match p, s with
  | [], _ => Some s
  | x :: p', y :: s' => if (x =? y)%N then strip_prefix p' s' else None
  | _ :: _, [] => None
  end.

(** The integer part of a number: [0], or a non-zero digit and digits. *)
Definition lex_int (s : pystr) : option (pystr * pystr) :=
  match s with
  | c :: r =>
    if (c =? 48)%N then Some ([c], r)
    else if is_digit c then let (ds, r') := span_digits r in Some (c :: ds, r')
    else None
  | [] => None
  end.

(** The fraction: a point and at least one digit. *)
Definition lex_frac (s : pystr) : option (pystr * pystr) :=
  match s with
  | c :: r =>
    if (c =? ch ".")%N then
      match span_digits r with
      | ([], _) => None
      | (ds, r') => Some (ds, r')
      end
    else None
  | [] => None
  end.

(** The exponent: [e] or [E], an optional sign, at least one digit. *)
Definition lex_exp (s : pystr) : option (Z * pystr) :=
  match s with
  | c :: r =>
    if ((c =? ch "e") || (c =? ch "E"))%N then
      let '(neg, r1) :=
        match r with
        | sg :: r0 =>
          if (sg =? ch "-")%N then (true, r0)
          else if (sg =? ch "+")%N then (false, r0)
          else (false, r)
        | [] => (false, r)
        end in
      match span_digits r1 with
      | ([], _) => None
      | (ds, r') =>
        Some (if neg then (- Z.of_N (digits_val ds))%Z else Z.of_N (digits_val ds), r')
      end
    else None
  | [] => None
  end.

(** The digits of a number after its sign: an integer part, an optional
    fraction and an optional exponent; an [int] when it has neither fraction
    nor exponent and a [float] otherwise. *)
Definition lex_unsigned (neg : bool) (s : pystr) : option (token * pystr) :=
  match lex_int s with
  | None => None
  | Some (ids, r1) =>
    let '(fds, r2) := match lex_frac r1 with
                      | Some (ds, r') => (Some ds, r')
                      | None => (None, r1)
                      end in
    let '(ex, r3) := match lex_exp r2 with
                     | Some (x, r') => (Some x, r')
                     | None => (None, r2)
                     end in
    match fds, ex with
    | None, None => Some (TInt neg ids, r3)
    | _, _ =>
      let fd := match fds with Some ds => ds | None => [] end in
      let x := match ex with Some x => x | None => 0%Z end in
      Some (TValue (VFloat (float_of_decimal neg (digits_val (ids ++ fd))
                                             (x - Z.of_nat (length fd)))), r3)
    end
  end.

(** A number: an optional minus sign and its digits. *)
Definition lex_number (s : pystr) : option (token * pystr) :=
  match s with
  | c :: r => if (c =? ch "-")%N then lex_unsigned true r else lex_unsigned false s
  | [] => None
  end.

(** The literal names, [NaN] and the infinities included. *)
Definition literal_names : list (pystr * value) :=
  [ (lit "null", VNone); (lit "true", VBool true); (lit "false", VBool false);
    (lit "NaN", VFloat FNan); (lit "Infinity", VFloat (FInf false));
    (lit "-Infinity", VFloat (FInf true)) ].

Fixpoint lex_literal_in (names : list (pystr * value)) (s : pystr)
  : option (value * pystr) :=
  match names with
  | [] => None
  | (p, v) :: rest =>
    match strip_prefix p s with
    | Some r => Some (v, r)
    | None => lex_literal_in rest s
    end
  end.

Definition lex_literal (s : pystr) : option (value * pystr) :=
  lex_literal_in literal_names s.

Definition punct (c : N) : option token :=
  if (c =? ch "{")%N then Some TLBrace
  else if (c =? ch "}")%N then Some TRBrace
  else if (c =? ch "[")%N then Some TLBracket
  else if (c =? ch "]")%N then Some TRBracket
  else if (c =? ch ":")%N then Some TColon
  else if (c =? ch ",")%N then Some TComma
  else None.

(** The token at the start of a text (none for a whitespace character) and
    the text after it. *)
Definition next_token (s : pystr) : option (option token * pystr) :=
  match s with
  | [] => None
  | c :: r =>
    if json_ws c then Some (None, r)
    else if (c =? 34)%N then
      match scanstring SNorm [] r with
      | Some (str, r') => Some (Some (TString str), r')
      | None => None
      end
    else
      match punct c with
      | Some t => Some (Some t, r)
      | None =>
        match lex_literal s with
        | Some (v, r') => Some (Some (TValue v), r')
        | None =>
          match lex_number s with
          | Some (t, r') => Some (Some t, r')
          | None => None
          end
        end
      end
  end.

(** The tokens of a text, and whether the whole text was cut into tokens:
    where some text is no token, the tokens before it.  [fuel] bounds the
    number of steps, and one more than the length of the text is enough. *)
Fixpoint tokenize (fuel : nat) (s : pystr) : list token * bool :=
  match fuel with
  | O => ([], false)
  | S f =>
    match s with
    | [] => ([], true)
    | _ =>
      match next_token s with
      | Some (Some t, r) => let (ts, whole) := tokenize f r in (t :: ts, whole)
      | Some (None, r) => tokenize f r
      | None => ([], false)
      end
    end
  end.

(** Why the decoder stops: the text is not JSON, an array or an object is
    one too deep, an integer has [n] digits and that is too many. *)
Inductive decode_error : Type :=
| Malformed
| TooDeep
| TooManyDigits (n : nat).

Inductive parsed (A : Type) : Type :=
| Parsed (a : A)
| Stopped (e : decode_error).
Arguments Parsed {A} a.
Arguments Stopped {A} e.

(** The conversion of the digits of an integer refuses more digits than
    [int_max_str_digits], when that limit is set; it does not count up to
    640 digits. *)
Definition too_many_digits (lim : limits) (n : nat) : bool :=
  Nat.ltb 640 n && Nat.ltb 0 (int_max_str_digits lim)
  && Nat.ltb (int_max_str_digits lim) n.

Definition int_of_digits (lim : limits) (neg : bool) (ds : pystr) : parsed value :=
  if too_many_digits lim (length ds) then Stopped (TooManyDigits (length ds))
  else Parsed (VInt (if neg then (- Z.of_N (digits_val ds))%Z else Z.of_N (digits_val ds))).

(** Recursive descent on the tokens: a value, the elements of an array after
    its bracket, the members of an object after its brace.  [depth] is the
    number of arrays and objects that may still be entered, one inside the
    other; entering one, even an empty one, takes one. *)
Fixpoint parse_value (lim : limits) (fuel depth : nat) (ts : list token)
  : parsed (value * list token) :=
  match fuel with
  | O => Stopped Malformed
  | S f =>
    match ts with
    | TString s :: r => Parsed (VStr s, r)
    | TValue v :: r => Parsed (v, r)
    | TInt neg ds :: r =>
      match int_of_digits lim neg ds with
      | Parsed v => Parsed (v, r)
      | Stopped e => Stopped e
      end
    | TLBracket :: r =>
      match depth with
      | O => Stopped TooDeep
      | S d =>
        match r with
        | TRBracket :: r' => Parsed (VList [], r')
        | _ => parse_elems lim f d [] r
        end
      end
    | TLBrace :: r =>
      match depth with
      | O => Stopped TooDeep
      | S d =>
        match r with
        | TRBrace :: r' => Parsed (VDict [], r')
        | _ => parse_members lim f d [] r
        end
      end
    | _ => Stopped Malformed
    end
  end
with parse_elems (lim : limits) (fuel depth : nat) (acc : list value) (ts : list token)
  : parsed (value * list token) :=
  match fuel with
  | O => Stopped Malformed
  | S f =>
    match parse_value lim f depth ts with
    | Parsed (v, TComma :: r) => parse_elems lim f depth (v :: acc) r
    | Parsed (v, TRBracket :: r) => Parsed (VList (rev (v :: acc)), r)
    | Parsed _ => Stopped Malformed
    | Stopped e => Stopped e
    end
  end
with parse_members (lim : limits) (fuel depth : nat) (acc : pydict) (ts : list token)
  : parsed (value * list token) :=
  match fuel with
  | O => Stopped Malformed
  | S f =>
    match ts with
    | TString k :: TColon :: r =>
      match parse_value lim f depth r with
      | Parsed (v, TComma :: r') => parse_members lim f depth (dict_set k v acc) r'
      | Parsed (v, TRBrace :: r') => Parsed (VDict (dict_set k v acc), r')
      | Parsed _ => Stopped Malformed
      | Stopped e => Stopped e
      end
    | _ => Stopped Malformed
    end
  end.

(** The message of the [ValueError] for an integer of [n] digits. *)
Definition int_digits_message (lim : limits) (n : nat) : pystr :=
  lit "Exceeds the limit (" ++ str_of_N (N.of_nat (int_max_str_digits lim))
  ++ lit " digits) for integer string conversion: value has "
  ++ str_of_N (N.of_nat n)
  ++ lit " digits; use sys.set_int_max_str_digits() to increase the limit".

(** [json.loads(s)]: the value of the text, when the whole text is one
    value; text after the value is an error of the text. *)
Definition json_loads (lim : limits) (s : pystr) : result value :=
  let (ts, whole) := tokenize (S (length s)) s in
  match parse_value lim (2 * length ts + 1) (json_depth lim) ts with
  | Parsed (v, []) => if whole then Ok v else Raise (JSONDecodeError s)
  | Parsed (_, _ :: _) => Raise (JSONDecodeError s)
  | Stopped Malformed => Raise (JSONDecodeError s)
  | Stopped TooDeep => Raise RecursionError
  | Stopped (TooManyDigits n) => Raise (ValueError (int_digits_message lim n))
  end.

(** Whether a text is rejected as not being JSON. *)
Definition not_json (r : result value) : bool :=
  match r with
  | Raise (JSONDecodeError _) => true
  | _ => false
  end.

Example json_loads_object (depth digits : nat) :
  json_loads (mk_limits (S (S depth)) digits)
    (qlit "{'a': [1, 2.5, true, null], 'b': {'c': 'xA\n'}, 'a': -3}")
  = Ok (VDict [(lit "a", VInt (-3));
               (lit "b", VDict [(lit "c", VStr [ch "x"; ch "A"; 10%N])])]).
Proof. vm_compute. reflexivity. Qed.

Example json_loads_rejects (depth digits : nat) :
  let lim := mk_limits (S depth) digits in
  forallb (fun s => not_json (json_loads lim s))
    [ qlit "{'a': 1,}"; qlit "{'a': 1} x"; qlit "[1 2]"; qlit "01"; qlit "1.";
      qlit "'a"; lit "{a: 1}"; []; lit "nul"; lit "[1, @" ]
  = true.
Proof. vm_compute. reflexivity. Qed.

Example json_loads_scalars (depth digits : nat) :
  let lim := mk_limits (S (S (S depth))) digits in
  json_loads lim (lit " 42 ") = Ok (VInt 42)
  /\ json_loads lim (lit "-0") = Ok (VInt 0)
  /\ json_loads lim (lit "1e2") = Ok (VFloat (FFin false 7036874417766400 (-46)))
  /\ json_loads lim (lit "[[], {}, [[1]]]")
     = Ok (VList [VList []; VDict []; VList [VList [VInt 1]]])
  /\ json_loads lim (qlit "'😀'") = Ok (VStr [128512%N]).
Proof. cbv zeta. conjs; vm_compute; reflexivity. Qed.

(** The limits: the third array inside two is one too deep, and the error
    comes before the decoder sees that the text is cut short; an integer of
    641 digits is refused under a limit of 640 digits and read without a
    limit. *)
Example json_loads_limits :
  json_loads (mk_limits 2 4300) (lit "[[1]]") = Ok (VList [VList [VInt 1]])
  /\ json_loads (mk_limits 2 4300) (lit "[[[1]]]") = Raise RecursionError
  /\ json_loads (mk_limits 2 4300) (qlit "[{'a': []}]") = Raise RecursionError
  /\ json_loads (mk_limits 2 4300) (lit "[[[") = Raise RecursionError
  /\ json_loads (mk_limits 2 4300) (lit "[[@ [") = Raise (JSONDecodeError (lit "[[@ ["))
  /\ json_loads (mk_limits 2 640) (lit "[" ++ times (lit "7") 641 ++ lit "]")
     = Raise (ValueError (lit "Exceeds the limit (640 digits) for integer string conversion: value has 641 digits; use sys.set_int_max_str_digits() to increase the limit"))
  /\ json_loads (mk_limits 2 640) (lit "[1 " ++ times (lit "7") 641 ++ lit "]")
     = Raise (JSONDecodeError (lit "[1 " ++ times (lit "7") 641 ++ lit "]"))
  /\ json_loads (mk_limits 2 0) (times (lit "7") 641)
     = Ok (VInt (Z.of_N (digits_val (times (lit "7") 641)))).
Proof. conjs; vm_compute; reflexivity. Qed.

(** ** [re.search(r'\{[\s\S]*\}', s)]

    The pattern is an opening brace, any characters (line breaks included)
    as many as possible, and a closing brace.  [re.search] takes the leftmost
    position where the pattern matches, and the star is greedy. *)

(** The longest prefix that ends with a closing brace. *)
Fixpoint greedy_to_rbrace (s : pystr) : option pystr :=
  match s with
  | [] => None
  | c :: r =>
    match greedy_to_rbrace r with
    | Some m => Some (c :: m)
    | None => if (c =? ch "}")%N then Some [c] else None
    end
  end.

(** The match of the pattern at the start of [s]. *)
Definition match_braces (s : pystr) : option pystr :=
  match s with
  | c :: r =>
    if (c =? ch "{")%N then
      match greedy_to_rbrace r with
      | Some m => Some (c :: m)
      | None => None
      end
    else None
  | [] => None
  end.

(** [match.group()] of the search, [None] when nothing matches. *)
Fixpoint re_search_braces (s : pystr) : option pystr :=
  match match_braces s with
  | Some m => Some m
  | None =>
    match s with
    | [] => None
    | _ :: r => re_search_braces r
    end
  end.

Example re_search_braces_ex :
  re_search_braces (lit "ab {c {d} e} f } g") = Some (lit "{c {d} e} f }")
  /\ re_search_braces (lit "} {") = None.
Proof. conjs; reflexivity. Qed.

(** ** The world: files, console, process environment *)

Record world : Type := mk_world {
  fs : gmap (list N) (list N);
  stdout : list pystr;
  environ : gmap (list N) (list N)
}.

(** Effectful code: a state transformer that returns a value or raises. *)
Definition M (A : Type) : Type := world -> world * result A.

Definition ret {A} (a : A) : M A := fun w => (w, Ok a).

Definition raise {A} (e : exn) : M A := fun w => (w, Raise e).

Definition bind {A B} (c : M A) (k : A -> M B) : M B :=
  fun w =>
    match c w with
    | (w', Ok a) => k a w'
    | (w', Raise e) => (w', Raise e)
    end.

Notation "x <- c ;; k" := (bind c (fun x => k))
  (at level 100, c at next level, right associativity).
Notation "c ;; k" := (bind c (fun _ => k))
  (at level 100, right associativity).

Definition lift {A} (r : result A) : M A := fun w => (w, r).

(** Sequencing of pure code that may raise. *)
Definition rbind {A B} (r : result A) (k : A -> result B) : result B :=
  match r with
  | Ok a => k a
  | Raise e => Raise e
  end.

Notation "x <~ c ;; k" := (rbind c (fun x => k))
  (at level 100, c at next level, right associativity).

(** [print(s)]: one entry of [stdout] per call. *)
Definition print (s : pystr) : M unit :=
  fun w => (mk_world (fs w) (stdout w ++ [s]) (environ w), Ok tt).

(** [os.path.exists(p)] *)
Definition path_exists (p : pystr) : M bool :=
  fun w => (w, Ok (match fs w !! p with Some _ => true | None => false end)).

(** [open(p, "r").read()] *)
Definition read_file (p : pystr) : M pystr :=
  fun w =>
    match fs w !! p with
    | Some s => (w, Ok s)
    | None => (w, Raise (FileNotFoundError p))
    end.

(** [open(p, "w")]: the file is created or emptied. *)
Definition open_w (p : pystr) : M unit :=
  fun w => (mk_world (<[p := []]> (fs w)) (stdout w) (environ w), Ok tt).

(** [f.write(s)] on a file opened for writing at [p]. *)
Definition fwrite (p s : pystr) : M unit :=
  fun w =>
    let old := match fs w !! p with Some t => t | None => [] end in
    (mk_world (<[p := old ++ s]> (fs w)) (stdout w) (environ w), Ok tt).

(** [os.environ.get(k)] *)
Definition environ_get (k : pystr) : M (option pystr) :=
  fun w => (w, Ok (environ w !! k)).

(** [try: c / except Exception: pass] *)
Definition swallow {A} (c : M A) : M unit :=
  fun w => let (w', _) := c w in (w', Ok tt).

(** [for x in xs: body(x)] *)
Fixpoint for_each {A} (xs : list A) (body : A -> M unit) : M unit :=
  match xs with
  | [] => ret tt
  | x :: rest => body x ;; for_each rest body
  end.

Definition nl : pystr := [10%N].

(** ** The external collaborators

    The OCR engine ([pdf2image], [pytesseract]) and the hosted model
    ([google.genai]), and the library functions on values the embedding
    leaves abstract: [repr] of a float and of a string, [str.upper], and the
    JSON encoder with the two settings the scripts use; and the limits of
    the interpreter the scripts run in. *)

Record client : Type := mk_client { api_key : pystr }.

Record uploaded_file : Type := mk_uploaded { name : pystr }.

(** What a generation request carries: an uploaded file or a text. *)
Inductive part : Type :=
| PFile (f : uploaded_file)
| PText (s : pystr).

Record externals : Type := {
  image : Type;
  (** [pdf2image.convert_from_path(path)] *)
  convert_from_path : pystr -> result (list image);
  (** [pytesseract.image_to_string(page)] *)
  image_to_string : image -> result pystr;
  (** [client.files.upload(file=path)] *)
  files_upload : client -> pystr -> result uploaded_file;
  (** [client.models.generate_content(model=, contents=)]: the [text] of the
      response, which may be [None]. *)
  generate_content : client -> pystr -> list part -> result (option pystr);
  (** [client.files.delete(name=)] *)
  files_delete : client -> pystr -> result unit;
  (** [json.dumps(v, indent=2)] *)
  json_dumps : value -> pystr;
  (** the text [json.dump(v, f, indent=2, ensure_ascii=False)] writes *)
  json_dump : value -> pystr;
  float_repr : pyfloat -> pystr;
  str_repr : pystr -> pystr;
  str_upper : pystr -> pystr;
  (** the limits in force where the scripts call [json.loads] *)
  py_limits : limits
}.

(** [repr(v)] and [str(v)], which an f-string field applies. *)
Fixpoint py_repr (ext : externals) (v : value) : pystr :=
  match v with
  | VNone => lit "None"
  | VBool b => if b then lit "True" else lit "False"
  | VInt z => str_of_Z z
  | VFloat x => float_repr ext x
  | VStr s => str_repr ext s
  | VList l => lit "[" ++ join (lit ", ") (map (py_repr ext) l) ++ lit "]"
  | VDict d =>
    lit "{"
    ++ join (lit ", ")
         (map (fun kv => let '(k, x) := kv in str_repr ext k ++ lit ": " ++ py_repr ext x) d)
    ++ lit "}"
  end.

Definition py_str (ext : externals) (v : value) : pystr :=
  match v with
  | VStr s => s
  | _ => py_repr ext v
  end.

(** ** extractor.py *)
Module extractor.
Section with_externals.
Context (ext : externals).

Definition page_block (k : nat) (text : pystr) : pystr :=
  lit "--- Page " ++ str_of_N (N.of_nat k) ++ lit " ---" ++ nl ++ text ++ nl ++ nl.

(** The loop over [enumerate(pages)], from index [i] on. *)
Fixpoint ocr_pages (i : nat) (pages : list (image ext)) (full_text : pystr) : M pystr :=
  match pages with
  | [] => ret full_text
  | page :: rest =>
    text <- lift (image_to_string ext page) ;;
    ocr_pages (S i) rest (full_text ++ page_block (i + 1) text)
  end.

Definition extract_text_from_pdf (pdf_path output_txt_path : pystr) : M pystr :=
  print (lit "Extracting text from " ++ pdf_path ++ lit "...") ;;
  pages <- lift (convert_from_path ext pdf_path) ;;
  full_text <- ocr_pages 0 pages [] ;;
  open_w output_txt_path ;;
  fwrite output_txt_path full_text ;;
  print (lit "  Saved â†’ " ++ output_txt_path) ;;
  ret full_text.

(** The script run as a program. *)
Definition main : M unit :=
  extract_text_from_pdf (lit "questions.pdf") (lit "question.txt") ;;
  extract_text_from_pdf (lit "solutions.pdf") (lit "solutions.txt") ;;
  print (nl ++ lit "Done! Run htr_pipeline.py next.").

End with_externals.
End extractor.

(** The first tier of the JSON repair, written twice in the scripts:
    [raw.replace("```json", "").replace("```", "").strip()]. *)
Definition fence : pystr := lit "```".
Definition fence_json : pystr := lit "```json".

Definition strip_fences (raw : pystr) : pystr :=
  strip (replace fence [] (replace fence_json [] raw)).

(** ** htr.py *)
Module htr.

Definition GEMINI_MODEL : pystr := lit "gemini-2.5-flash-lite".
Definition HANDWRITTEN_PDF : pystr := lit "handwritten-ans.pdf".
Definition OUTPUT_TXT : pystr := lit "handwritten-ans.txt".
Definition OUTPUT_JSON : pystr := lit "handwritten-ans.json".

(** The instruction sent with the uploaded PDF. *)
Definition prompt : pystr :=
  join nl
    [ lit "You are an expert handwriting recognition system for exam answer sheets.";
      [];
      lit "Process ALL pages of this PDF and transcribe ALL handwritten content.";
      [];
      lit "Rules:";
      lit "- Transcribe EXACTLY what is written — preserve the student's words verbatim";
      qlit "- For MCQ answers: detect patterns like '1. B', '2. C', '3. A' etc.";
      lit "- For written answers: transcribe the full handwritten text faithfully";
      lit "- If handwriting is unclear, note [unclear]";
      lit "- Group content by question number";
      lit "- Do NOT correct grammar or spelling — just transcribe";
      lit "- Ignore printed text — only extract handwritten content";
      lit "- Process ALL pages, not just the first one";
      [];
      lit "Return ALL handwritten answers as JSON:";
      lit "{";
      qlit "  'answers': [";
      qlit "    {'question_number': '1', 'answer_text': 'B', 'answer_type': 'mcq'},";
      qlit "    {'question_number': '2', 'answer_text': 'The auditor should verify...', 'answer_type': 'written'}";
      lit "  ],";
      qlit "  'total_questions_found': 10,";
      qlit "  'pages_processed': 9,";
      qlit "  'extraction_notes': 'Any notes about handwriting quality'";
      lit "}";
      [];
      lit "Return ONLY valid JSON. No markdown, no explanation." ].

(** The result synthesized when the response cannot be parsed. *)
Definition degraded (raw : pystr) : value :=
  VDict
    [ (lit "answers",
       VList [ VDict [ (lit "question_number", VStr (lit "?"));
                       (lit "answer_text", VStr raw);
                       (lit "answer_type", VStr (lit "raw")) ] ]);
      (lit "total_questions_found", VInt 0);
      (lit "pages_processed", VStr (lit "unknown"));
      (lit "extraction_notes", VStr (lit "JSON parse failed — raw text included")) ].

(** The handling of the response text in [extract_all_pages]: parse the
    text without fences; when that is not JSON, parse the brace block the
    pattern finds; when that is not JSON either, or there is none, the
    degraded result.  Both handlers catch [json.JSONDecodeError] and nothing
    else. *)
Definition parse_response (lim : limits) (text : pystr) : result value :=
  let raw := strip text in
  match json_loads lim (strip_fences raw) with
  | Ok v => Ok v
  | Raise (JSONDecodeError _) =>
    match re_search_braces raw with
    | Some block =>
      match json_loads lim block with
      | Ok v => Ok v
      | Raise (JSONDecodeError _) => Ok (degraded raw)
      | Raise e => Raise e
      end
    | None => Ok (degraded raw)
    end
  | Raise e => Raise e
  end.

Section with_externals.
Context (ext : externals).

Definition get_client : M client :=
  api_key <- environ_get (lit "GEMINI_API_KEY") ;;
  match api_key with
  | Some k =>
    if pystr_eqb k [] || pystr_eqb k (lit "your_gemini_api_key_here")
    then raise (EnvironmentError
                  (nl ++ lit "❌ Gemini API key not set!" ++ nl
                   ++ lit "Open the .env file in your project folder and replace:" ++ nl
                   ++ lit "   GEMINI_API_KEY=your_gemini_api_key_here" ++ nl
                   ++ lit "with your actual key from https://aistudio.google.com/apikey" ++ nl))
    else ret (mk_client k)
  | None =>
    raise (EnvironmentError
             (nl ++ lit "❌ Gemini API key not set!" ++ nl
              ++ lit "Open the .env file in your project folder and replace:" ++ nl
              ++ lit "   GEMINI_API_KEY=your_gemini_api_key_here" ++ nl
              ++ lit "with your actual key from https://aistudio.google.com/apikey" ++ nl))
  end.

Definition upload_pdf (c : client) (pdf_path : pystr) : M uploaded_file :=
  print (lit "  Uploading PDF to Gemini File API...") ;;
  uploaded <- lift (files_upload ext c pdf_path) ;;
  print (lit "  Uploaded: " ++ name uploaded) ;;
  ret uploaded.

Definition extract_all_pages (c : client) (pdf_file : uploaded_file) : M value :=
  print (lit "  Sending entire PDF in ONE request (all pages at once)...") ;;
  response_text <- lift (generate_content ext c GEMINI_MODEL [PFile pdf_file; PText prompt]) ;;
  match response_text with
  | None => raise AttributeError
  | Some text => lift (parse_response (py_limits ext) text)
  end.

(** The body of the loop over the answers when the text file is written. *)
Definition write_answer (output_txt : pystr) (ans : value) : M unit :=
  qn <- lift (py_getitem ans (lit "question_number")) ;;
  ty <- lift (py_get ans (lit "answer_type") (VStr (lit "written"))) ;;
  match ty with
  | VStr t =>
    fwrite output_txt (lit "Q" ++ py_str ext qn ++ lit ". [" ++ str_upper ext t ++ lit "]" ++ nl) ;;
    txt <- lift (py_getitem ans (lit "answer_text")) ;;
    fwrite output_txt (py_str ext txt ++ nl ++ nl)
  | _ => raise AttributeError
  end.

Definition extract_handwritten_text (pdf_path output_txt output_json : pystr) : M value :=
  print (times (lit "=") 58) ;;
  print (lit "  Paper Correction AI — Gemini Vision HTR (FREE)") ;;
  print (lit "  Entire PDF processed in a SINGLE API call") ;;
  print (times (lit "=") 58) ;;
  c <- get_client ;;
  print (nl ++ lit "[1/3] Uploading PDF: " ++ pdf_path) ;;
  pdf_file <- upload_pdf c pdf_path ;;
  print (nl ++ lit "[2/3] Extracting handwriting...") ;;
  result <- extract_all_pages c pdf_file ;;
  swallow (lift (files_delete ext c (name pdf_file))) ;;
  answers <- lift (py_get result (lit "answers") (VList [])) ;;
  n <- lift (py_len answers) ;;
  found <- lift (py_get result (lit "total_questions_found") (VInt (Z.of_nat n))) ;;
  pages <- lift (py_get result (lit "pages_processed") (VStr (lit "?"))) ;;
  print (lit "  → Found " ++ py_str ext found ++ lit " answer(s) across "
         ++ py_str ext pages ++ lit " page(s)") ;;
  notes <- lift (py_get result (lit "extraction_notes") VNone) ;;
  (if py_truthy notes
   then print (lit "  ⚠ Notes: " ++ py_str ext notes)
   else ret tt) ;;
  match result with
  | VDict d =>
    let result := VDict (dict_set (lit "api_calls_used") (VInt 1)
                           (dict_set (lit "source_pdf") (VStr pdf_path) d)) in
    open_w output_json ;;
    fwrite output_json (json_dump ext result) ;;
    print (nl ++ lit "[3/3] Saved JSON → " ++ output_json) ;;
    open_w output_txt ;;
    fwrite output_txt (lit "# Handwritten Answers from: " ++ pdf_path ++ nl) ;;
    fwrite output_txt (lit "# Questions found: " ++ py_str ext found ++ nl) ;;
    notes' <- lift (py_get result (lit "extraction_notes") (VStr (lit "Clean extraction"))) ;;
    fwrite output_txt (lit "# Notes: " ++ py_str ext notes' ++ nl ++ nl) ;;
    answers' <- lift (py_get result (lit "answers") (VList [])) ;;
    items <- lift (py_iter answers') ;;
    for_each items (write_answer output_txt) ;;
    print (lit "         Saved text  → " ++ output_txt) ;;
    print (nl ++ lit "✓ Done! Used only 1 API call for " ++ py_str ext pages ++ lit " pages.") ;;
    ret result
  | _ => raise TypeError
  end.

End with_externals.
End htr.

(** ** htr_pipeline.py *)
Module htr_pipeline.

Definition GEMINI_MODEL : pystr := lit "gemini-2.5-flash-lite".
Definition HANDWRITTEN_PDF : pystr := lit "handwritten-ans.pdf".
Definition OUTPUT_JSON : pystr := lit "final_output.json".
Definition OUTPUT_REPORT : pystr := lit "grading_report.txt".

Definition _parse_json (lim : limits) (raw : pystr) : result value :=
  match json_loads lim (strip_fences raw) with
  | Ok v => Ok v
  | Raise (JSONDecodeError _) =>
    match re_search_braces raw with
    | Some block => json_loads lim block
    | None =>
      Raise (ValueError (lit "Could not parse response as JSON:" ++ nl ++ firstn 300 raw))
    end
  | Raise e => Raise e
  end.

(** The solution set [run_pipeline] substitutes when [solutions.txt] is
    missing. *)
Definition empty_solutions : value :=
  VDict [ (lit "solutions", VList []); (lit "total_marks", VInt 0) ].

Section with_externals.
Context (ext : externals).

Definition _call_gemini (c : client) (prompt : pystr) : M pystr :=
  response_text <- lift (generate_content ext c GEMINI_MODEL [PText prompt]) ;;
  match response_text with
  | None => raise AttributeError
  | Some text => ret (strip text)
  end.

Definition solutions_prompt (solutions_text : pystr) : pystr :=
  join nl
    [ lit "Parse this exam solutions document and extract all correct answers.";
      [];
      lit "SOLUTIONS TEXT:";
      solutions_text;
      [];
      lit "Return JSON in this exact format:";
      lit "{";
      qlit "  'solutions': [";
      lit "    {";
      qlit "      'question_number': '1',";
      qlit "      'correct_answer': 'B',";
      qlit "      'answer_type': 'mcq',";
      qlit "      'marks': 2,";
      qlit "      'explanation': 'Brief explanation'";
      lit "    }";
      lit "  ],";
      qlit "  'total_marks': 50";
      lit "}";
      [];
      lit "Return ONLY valid JSON." ].

Definition extract_solutions (c : client) (solutions_txt_path : pystr) : M value :=
  print (nl ++ lit "[Step 2] Parsing solution key...") ;;
  solutions_text <- read_file solutions_txt_path ;;
  raw <- _call_gemini c (solutions_prompt solutions_text) ;;
  result <- lift (_parse_json (py_limits ext) raw) ;;
  sols <- lift (py_get result (lit "solutions") (VList [])) ;;
  n <- lift (py_len sols) ;;
  print (lit "      Found " ++ str_of_N (N.of_nat n) ++ lit " solution(s)") ;;
  total <- lift (py_get result (lit "total_marks") (VStr (lit "N/A"))) ;;
  print (lit "      Total marks: " ++ py_str ext total) ;;
  ret result.

Definition grading_prompt (answers solutions : value) (questions_text : pystr) : pystr :=
  join nl
    [ lit "You are a strict but fair exam grader for CA (Chartered Accountancy) exams.";
      [];
      lit "Grading rules:";
      lit "- MCQ: Full marks for correct answer only. Zero for wrong.";
      lit "- Written: Award marks proportionally based on key points covered.";
      lit "- Be specific in feedback.";
      [];
      lit "STUDENT ANSWERS:";
      json_dumps ext answers;
      [];
      lit "SOLUTION KEY:";
      json_dumps ext solutions;
      [];
      match questions_text with
      | [] => []
      | _ => lit "QUESTIONS CONTEXT:" ++ nl ++ firstn 3000 questions_text
      end;
      [];
      lit "Return grading report as JSON:";
      lit "{";
      qlit "  'results': [";
      lit "    {";
      qlit "      'question_number': '1',";
      qlit "      'student_answer': 'B',";
      qlit "      'correct_answer': 'B',";
      qlit "      'is_correct': true,";
      qlit "      'marks_awarded': 2,";
      qlit "      'marks_available': 2,";
      qlit "      'feedback': 'Correct!'";
      lit "    }";
      lit "  ],";
      qlit "  'total_marks_awarded': 20,";
      qlit "  'total_marks_available': 50,";
      qlit "  'percentage': 40.0,";
      qlit "  'grade': 'Pass',";
      qlit "  'overall_feedback': 'Summary of performance.'";
      lit "}";
      [];
      lit "Return ONLY valid JSON." ].

Definition grade_answers (c : client) (extracted_answers solutions : value)
    (questions_text : pystr) : M value :=
  print (nl ++ lit "[Step 3] Grading answers...") ;;
  answers <- lift (py_get extracted_answers (lit "answers") (VList [])) ;;
  sols <- lift (py_get solutions (lit "solutions") (VList [])) ;;
  raw <- _call_gemini c (grading_prompt answers sols questions_text) ;;
  result <- lift (_parse_json (py_limits ext) raw) ;;
  awarded <- lift (py_get result (lit "total_marks_awarded") (VInt 0)) ;;
  available <- lift (py_get result (lit "total_marks_available") (VInt 0)) ;;
  percentage <- lift (py_get result (lit "percentage") (VInt 0)) ;;
  pct <- lift (py_format_1f percentage) ;;
  print (lit "      Score: " ++ py_str ext awarded ++ lit "/" ++ py_str ext available
         ++ lit " (" ++ pct ++ lit "%)") ;;
  grade <- lift (py_get result (lit "grade") (VStr (lit "N/A"))) ;;
  print (lit "      Grade: " ++ py_str ext grade) ;;
  ret result.

(** The glyph of one entry of the question-wise results. *)
Definition status (r : value) : result pystr :=
  flag <~ py_get r (lit "is_correct") VNone ;;
  if py_truthy flag then Ok (lit "✓")
  else
    m <~ py_get r (lit "marks_awarded") (VInt 0) ;;
    b <~ py_gt_zero m ;;
    Ok (if b then lit "~" else lit "✗").

(** The four lines the loop of [generate_report] appends for one entry. *)
Definition result_lines (r : value) : result (list pystr) :=
  glyph <~ status r ;;
  qn <~ py_getitem r (lit "question_number") ;;
  awarded <~ py_get r (lit "marks_awarded") (VInt 0) ;;
  available <~ py_get r (lit "marks_available") (VInt 0) ;;
  student <~ py_get r (lit "student_answer") (VStr []) ;;
  correct <~ py_get r (lit "correct_answer") (VStr []) ;;
  feedback <~ py_get r (lit "feedback") (VStr []) ;;
  Ok [ nl ++ lit "  Q" ++ py_str ext qn ++ lit " [" ++ glyph ++ lit "] "
          ++ py_str ext awarded ++ lit "/" ++ py_str ext available ++ lit " marks";
       lit "  Student : " ++ firstn 100 (py_str ext student);
       lit "  Correct : " ++ firstn 100 (py_str ext correct);
       lit "  Feedback: " ++ py_str ext feedback ].

(** The loop over the results: the lines of every entry, in order. *)
Fixpoint results_lines (rs : list value) : result (list pystr) :=
  match rs with
  | [] => Ok []
  | r :: rest =>
    ls <~ result_lines r ;;
    more <~ results_lines rest ;;
    Ok (ls ++ more)
  end.

(** The lines of the report before the question-wise results. *)
Definition summary_lines (extracted grading : value) : result (list pystr) :=
  source <~ py_get extracted (lit "source_pdf") (VStr (lit "N/A")) ;;
  found <~ py_get extracted (lit "total_questions_found") (VInt 0) ;;
  awarded <~ py_get grading (lit "total_marks_awarded") (VInt 0) ;;
  available <~ py_get grading (lit "total_marks_available") (VInt 0) ;;
  percentage <~ py_get grading (lit "percentage") (VInt 0) ;;
  pct <~ py_format_1f percentage ;;
  grade <~ py_get grading (lit "grade") (VStr (lit "N/A")) ;;
  overall <~ py_get grading (lit "overall_feedback") (VStr []) ;;
  Ok [ times (lit "=") 60;
       lit "         PAPER CORRECTION REPORT";
       times (lit "=") 60;
       nl ++ lit "Source: " ++ py_str ext source;
       lit "Questions extracted: " ++ py_str ext found;
       nl ++ lit "── SCORE SUMMARY " ++ times (lit "─") 43;
       lit "  Total Marks : " ++ py_str ext awarded ++ lit " / " ++ py_str ext available;
       lit "  Percentage  : " ++ pct ++ lit "%";
       lit "  Grade       : " ++ py_str ext grade;
       nl ++ lit "── OVERALL FEEDBACK " ++ times (lit "─") 40;
       lit "  " ++ py_str ext overall;
       nl ++ lit "── QUESTION-WISE RESULTS " ++ times (lit "─") 35 ].

(** The text of the report: [report_text] of [generate_report]. *)
Definition report_text (extracted grading : value) : result pystr :=
  head <~ summary_lines extracted grading ;;
  results <~ py_get grading (lit "results") (VList []) ;;
  rs <~ py_iter results ;;
  body <~ results_lines rs ;;
  Ok (join nl (head ++ body ++ [nl ++ times (lit "=") 60])).

Definition generate_report (extracted solutions grading : value) (output_path : pystr)
  : M pystr :=
  text <- lift (report_text extracted grading) ;;
  open_w output_path ;;
  fwrite output_path text ;;
  print (nl ++ lit "[Step 4] Report saved → " ++ output_path) ;;
  ret text.

Definition run_pipeline : M value :=
  print (times (lit "=") 60) ;;
  print (lit "   PAPER CORRECTION AI  —  Full Pipeline (FREE)") ;;
  print (lit "   Powered by Google Gemini 2.5 Flash-Lite (1000 RPD free)") ;;
  print (times (lit "=") 60) ;;
  c <- htr.get_client ;;
  print (nl ++ lit "[Step 1] Extracting handwritten answers...") ;;
  extracted <- htr.extract_handwritten_text ext HANDWRITTEN_PDF
                 (lit "handwritten-ans.txt") (lit "handwritten-ans.json") ;;
  have_solutions <- path_exists (lit "solutions.txt") ;;
  solutions <-
    (if have_solutions
     then extract_solutions c (lit "solutions.txt")
     else print (nl ++ lit "[Step 2] solutions.txt not found — run extractor.py first") ;;
          ret empty_solutions) ;;
  have_questions <- path_exists (lit "question.txt") ;;
  questions_text <-
    (if have_questions then read_file (lit "question.txt") else ret []) ;;
  grading <- grade_answers c extracted solutions questions_text ;;
  let final_output :=
    VDict [ (lit "extraction", extracted); (lit "solutions", solutions);
            (lit "grading", grading) ] in
  open_w OUTPUT_JSON ;;
  fwrite OUTPUT_JSON (json_dump ext final_output) ;;
  print (nl ++ lit "      Full output saved → " ++ OUTPUT_JSON) ;;
  report <- generate_report extracted solutions grading OUTPUT_REPORT ;;
  print (nl ++ times (lit "─") 60) ;;
  print report ;;
  ret final_output.

End with_externals.
End htr_pipeline.

(** ** Notions the statements below use *)

(** The first top-level brace block of a text, in the words of the
    specification: from the first opening brace to the closing brace that
    balances it. *)
Fixpoint balanced_block (depth : nat) (s : pystr) : option pystr :=
  match s with
  | [] => None
  | c :: r =>
    if (c =? ch "{")%N then option_map (cons c) (balanced_block (S depth) r)
    else if (c =? ch "}")%N then
      match depth with
      | O => None
      | 1 => Some [c]
      | S d => option_map (cons c) (balanced_block d r)
      end
    else option_map (cons c) (balanced_block depth r)
  end.

Fixpoint first_top_level_block (s : pystr) : option pystr :=
  match s with
  | [] => None
  | c :: r =>
    if (c =? ch "{")%N then balanced_block 0 s else first_top_level_block r
  end.

(** A number rendered with exactly one decimal place: an optional minus
    sign, at least one digit, a point, one digit. *)
Definition one_decimal (s : pystr) : bool :=
  let body := match s with
              | c :: r => if (c =? ch "-")%N then r else s
              | [] => s
              end in
  match span_digits body with
  | (_ :: _, [p; d]) => (p =? ch ".")%N && is_digit d
  | _ => false
  end.

(** A number that is neither a NaN nor an infinity. *)
Definition finite_number (v : value) : bool :=
  match v with
  | VBool _ | VInt _ | VFloat (FFin _ _ _) => true
  | _ => false
  end.

(** [line] is one of the lines of [text] that has a line before and a line
    after it. *)
Definition has_line (text line : pystr) : Prop :=
  exists before after, text = before ++ nl ++ line ++ nl ++ after.

(** The text of the pages [texts], numbered from [k] on. *)
Fixpoint pages_text (k : nat) (texts : list pystr) : pystr :=
  match texts with
  | [] => []
  | t :: rest => extractor.page_block k t ++ pages_text (S k) rest
  end.


(** Stand-ins for the external collaborators, to run the scripts on concrete
    inputs: the OCR engine reads [pages], the model answers [answer]. *)
Definition stub_externals (pages : list pystr)
    (answer : list part -> result (option pystr)) : externals :=
  {| image := pystr;
     convert_from_path := fun _ => Ok pages;
     image_to_string := fun t => Ok t;
     files_upload := fun _ p => Ok (mk_uploaded (lit "files/" ++ p));
     generate_content := fun _ _ parts => answer parts;
     files_delete := fun _ _ => Raise (ExternalError (lit "delete failed"));
     json_dumps := fun v => match v with VList [] => lit "[]" | _ => lit "[...]" end;
     json_dump := fun v => match v with VDict d => lit "{...}" | _ => lit "..." end;
     float_repr := fun _ => lit "<float>";
     str_repr := fun s => [39%N] ++ s ++ [39%N];
     str_upper := fun s => s;
     py_limits := default_limits |}.

Definition empty_world : world := mk_world ∅ [] ∅.

(** ** Facts about strings *)

Lemma fence_eq : fence = [96; 96; 96]%N.
Proof. reflexivity. Qed.

Lemma fence_json_eq : fence_json = [96; 96; 96; 106; 115; 111; 110]%N.
Proof. reflexivity. Qed.

Lemma startswith_spec p s : startswith p s = true <-> exists t, s = p ++ t.
Proof.
  revert s. induction p as [|x p IH]; intros s; simpl.
  - split; eauto.
  - destruct s as [|y s].
    + split; [discriminate | intros [t Ht]; discriminate].
    + rewrite andb_true_iff, N.eqb_eq, IH. split.
      * intros [-> [t ->]]. eauto.
      * intros [t Ht]. injection Ht as -> ->. eauto.
Qed.

Lemma startswith_app p t : startswith p (p ++ t) = true.
Proof. apply startswith_spec. eauto. Qed.

Lemma replace_from_skip old new k s :
  replace_from old new k s = replace old new (skipn k s).
Proof.
  unfold replace. revert k. induction s as [|c s IH]; intros [|k]; simpl; auto.
Qed.

Lemma replace_nil old new : replace old new [] = [].
Proof. reflexivity. Qed.

Lemma replace_cons old new c s :
  replace old new (c :: s) =
  if startswith old (c :: s)
  then new ++ replace old new (skipn (length old - 1) s)
  else c :: replace old new s.
Proof.
  unfold replace at 1. cbn [replace_from].
  destruct (startswith old (c :: s)); [now rewrite replace_from_skip | reflexivity].
Qed.

Lemma contains_cons p c s :
  contains p (c :: s) = startswith p (c :: s) || contains p s.
Proof. reflexivity. Qed.

Lemma replace_absent old new s : contains old s = false -> replace old new s = s.
Proof.
  induction s as [|c s IH]; intros H; [reflexivity|].
  rewrite contains_cons in H. apply orb_false_iff in H as [H1 H2].
  rewrite replace_cons, H1, IH; auto.
Qed.

Lemma contains_spec p s : contains p s = true <-> exists l t, s = l ++ p ++ t.
Proof.
  induction s as [|c s IH].
  - simpl. rewrite orb_false_r, startswith_spec. split.
    + intros [t Ht]. exists [], t. exact Ht.
    + intros [l [t Ht]]. destruct l; [eauto | discriminate].
  - rewrite contains_cons, orb_true_iff, startswith_spec, IH. split.
    + intros [[t Ht] | [l [t Ht]]].
      * exists [], t. exact Ht.
      * exists (c :: l), t. now rewrite Ht.
    + intros [[|x l] [t Ht]].
      * left. eauto.
      * right. injection Ht as _ Ht. eauto.
Qed.

Lemma contains_sub p l s t : contains p s = true -> contains p (l ++ s ++ t) = true.
Proof.
  rewrite !contains_spec. intros [l' [t' ->]].
  exists (l ++ l'), (t' ++ t). now rewrite <- !app_assoc.
Qed.

Lemma contains_longer p q s : contains (p ++ q) s = true -> contains p s = true.
Proof.
  rewrite !contains_spec. intros [l [t ->]].
  exists l, (q ++ t). now rewrite <- app_assoc.
Qed.

Definition spaces (l : pystr) : Prop := Forall (fun c => isspace c = true) l.

Lemma lstrip_decomp s : exists l, s = l ++ lstrip s /\ spaces l.
Proof.
  induction s as [|c s [l [Hs Hl]]]; simpl.
  - exists []. split; [reflexivity | constructor].
  - destruct (isspace c) eqn:E.
    + exists (c :: l). split; [now rewrite Hs at 1 | now constructor].
    + exists []. split; [reflexivity | constructor].
Qed.

Lemma strip_decomp s : exists l t, s = l ++ strip s ++ t /\ spaces l /\ spaces t.
Proof.
  destruct (lstrip_decomp s) as [l [Hs Hl]].
  destruct (lstrip_decomp (rev (lstrip s))) as [u [Hr Hu]].
  exists l, (rev u). repeat split; auto.
  - unfold strip, rstrip. rewrite <- rev_app_distr, <- Hr, rev_involutive. exact Hs.
  - apply Forall_rev. exact Hu.
Qed.

Lemma contains_strip p s : contains p s = false -> contains p (strip s) = false.
Proof.
  intros H. destruct (contains p (strip s)) eqn:E; [|reflexivity].
  destruct (strip_decomp s) as [l [t [Hs _]]].
  apply (contains_sub p l _ t) in E. rewrite <- Hs, H in E. discriminate.
Qed.

(** *** Deleting the fences *)

Lemma replace_fence_head s t :
  replace fence [] s = 96%N :: t -> exists t', s = 96%N :: t'.
Proof.
  destruct s as [|c s]; [discriminate|].
  rewrite replace_cons. destruct (startswith fence (c :: s)) eqn:E.
  - apply startswith_spec in E as [u Hu]. change (fence ++ u) with (96 :: 96 :: 96 :: u)%N in Hu.
    injection Hu as -> _. eauto.
  - intros H. injection H as -> _. eauto.
Qed.

Lemma replace_fence_clean_upto n s :
  length s <= n -> contains fence (replace fence [] s) = false.
Proof.
  revert s. induction n as [|n IH]; intros s Hn.
  - destruct s; [reflexivity | simpl in Hn; lia].
  - destruct s as [|c s]; [reflexivity|]. simpl in Hn.
    rewrite replace_cons. destruct (startswith fence (c :: s)) eqn:E.
    + simpl. apply IH. rewrite length_skipn. lia.
    + rewrite contains_cons, (IH s) by lia. rewrite orb_false_r.
      destruct (startswith fence (c :: replace fence [] s)) eqn:F; [|reflexivity].
      exfalso. apply startswith_spec in F as [t Ht]. change (fence ++ t) with (96 :: 96 :: 96 :: t)%N in Ht.
      injection Ht as -> Ht.
      destruct s as [|d s]; [discriminate|].
      rewrite replace_cons in Ht. destruct (startswith fence (d :: s)) eqn:G.
      * apply startswith_spec in G as [u Hu]. change (fence ++ u) with (96 :: 96 :: 96 :: u)%N in Hu.
        injection Hu as -> ->.
        assert (startswith fence (96 :: 96 :: 96 :: 96 :: u)%N = true) as X
          by (apply startswith_spec; exists [96%N]; now rewrite fence_eq).
        rewrite X in E. discriminate.
      * injection Ht as -> Ht. apply replace_fence_head in Ht as [t' ->].
        assert (startswith fence (96 :: 96 :: 96 :: t')%N = true) as X
          by (apply startswith_spec; exists t'; now rewrite fence_eq).
        rewrite X in E. discriminate.
Qed.

Lemma replace_fence_clean s : contains fence (replace fence [] s) = false.
Proof. apply (replace_fence_clean_upto (length s)). lia. Qed.

(** No fence is left in the text the first tier parses. *)
Lemma strip_fences_clean raw :
  contains fence (strip_fences raw) = false
  /\ contains fence_json (strip_fences raw) = false.
Proof.
  assert (contains fence (strip_fences raw) = false) as H
    by (apply contains_strip, replace_fence_clean).
  split; [exact H|].
  destruct (contains fence_json (strip_fences raw)) eqn:E; [|reflexivity].
  change fence_json with (fence ++ lit "json") in E.
  apply contains_longer in E. rewrite H in E. discriminate.
Qed.

(** A text wrapped in fences that has no fence inside is unwrapped. *)
Lemma replace_fence_json_wrapped body :
  contains fence body = false ->
  replace fence_json [] (fence_json ++ body ++ fence) = body ++ fence.
Proof.
  intros H.
  assert (contains fence_json (body ++ fence) = false) as A.
  { induction body as [|c b IH]; [reflexivity|].
    rewrite contains_cons in H. apply orb_false_iff in H as [H1 H2].
    change ((c :: b) ++ fence) with (c :: b ++ fence).
    rewrite contains_cons, (IH H2), orb_false_r.
    destruct (startswith fence_json (c :: b ++ fence)) eqn:E; [|reflexivity].
    exfalso. apply startswith_spec in E as [t Ht].
    change (fence_json ++ t) with (96 :: 96 :: 96 :: 106 :: 115 :: 111 :: 110 :: t)%N in Ht.
    change fence with [96; 96; 96]%N in Ht at 1.
    destruct b as [|x [|y b]]; try discriminate.
    injection Ht as -> -> -> _.
    assert (startswith fence (96 :: 96 :: 96 :: b)%N = true) as X
      by (apply startswith_spec; exists b; now rewrite fence_eq).
    rewrite X in H1. discriminate. }
  pose proof (startswith_app fence_json (body ++ fence)) as S.
  change (fence_json ++ body ++ fence)
    with (96 :: ([96; 96; 106; 115; 111; 110] ++ body ++ fence))%N in S |- *.
  rewrite replace_cons, S.
  change (length fence_json - 1) with 6. cbn [app skipn].
  apply replace_absent, A.
Qed.

Lemma replace_fence_wrapped body :
  contains fence body = false -> replace fence [] (body ++ fence) = body.
Proof.
  induction body as [|c b IH]; intros H; [reflexivity|].
  rewrite contains_cons in H. apply orb_false_iff in H as [H1 H2].
  change ((c :: b) ++ fence) with (c :: b ++ fence).
  rewrite replace_cons. destruct (startswith fence (c :: b ++ fence)) eqn:E.
  - apply startswith_spec in E as [t Ht]. change (fence ++ t) with (96 :: 96 :: 96 :: t)%N in Ht.
    destruct b as [|x [|y b]].
    + injection Ht as -> _. reflexivity.
    + injection Ht as -> -> _. reflexivity.
    + injection Ht as -> -> -> _.
      assert (startswith fence (96 :: 96 :: 96 :: b)%N = true) as X
        by (apply startswith_spec; exists b; now rewrite fence_eq).
      rewrite X in H1. discriminate.
  - now rewrite IH.
Qed.

Lemma strip_fences_wrapped body :
  contains fence body = false ->
  strip_fences (fence_json ++ body ++ fence) = strip body.
Proof.
  intros H. unfold strip_fences.
  now rewrite replace_fence_json_wrapped, replace_fence_wrapped.
Qed.

(** ** Facts about the JSON decoder *)

(** Whitespace characters start no token and continue none. *)
Ltac char_codes :=
  repeat match goal with
         | |- context [ch ?a] =>
           let v := eval vm_compute in (ch a) in change (ch a) with v
         | H : context [ch ?a] |- _ =>
           let v := eval vm_compute in (ch a) in change (ch a) with v in H
         end.

Ltac split_tests :=
  repeat match goal with
         | |- context [(?a =? ?b)%N] => destruct (N.eqb_spec a b)
         | |- context [(?a <=? ?b)%N] => destruct (N.leb_spec a b)
         | |- context [(?a <? ?b)%N] => destruct (N.ltb_spec a b)
         end.

Lemma isspace_codes c :
  isspace c = true ->
  (9 <= c <= 13 \/ 28 <= c <= 32 \/ c = 133 \/ c = 160 \/ c = 5760 \/ 8192 <= c <= 8202
   \/ c = 8232 \/ c = 8233 \/ c = 8239 \/ c = 8287 \/ c = 12288)%N.
Proof.
  unfold isspace.
  rewrite !orb_true_iff, !andb_true_iff, !N.eqb_eq, !N.leb_le. tauto.
Qed.

Lemma space_not c k :
  isspace c = true -> isspace k = false -> (c =? k)%N = false /\ (k =? c)%N = false.
Proof.
  intros Hc Hk. split; apply N.eqb_neq; intros E; subst; congruence.
Qed.

Lemma space_quote c : isspace c = true -> (c =? 34)%N = false.
Proof. intros H. now apply (space_not c 34). Qed.

Lemma space_backslash c : isspace c = true -> (c =? 92)%N = false.
Proof. intros H. now apply (space_not c 92). Qed.

Lemma space_digit c : isspace c = true -> is_digit c = false.
Proof.
  intros H. apply isspace_codes in H. unfold is_digit. split_tests; simpl; auto; lia.
Qed.

Lemma space_hexval c : isspace c = true -> hexval c = None.
Proof.
  intros H. unfold hexval. rewrite (space_digit c H).
  apply isspace_codes in H. split_tests; simpl; auto; lia.
Qed.

Lemma space_unescape c : isspace c = true -> unescape c = None.
Proof.
  intros H. apply isspace_codes in H. unfold unescape. char_codes.
  split_tests; simpl; auto; lia.
Qed.

Lemma space_punct c : isspace c = true -> punct c = None.
Proof.
  intros H. apply isspace_codes in H. unfold punct. char_codes.
  split_tests; simpl; auto; lia.
Qed.

Lemma json_ws_isspace c : json_ws c = true -> isspace c = true.
Proof.
  unfold json_ws, isspace.
  rewrite !orb_true_iff, !andb_true_iff, !N.eqb_eq, !N.leb_le. lia.
Qed.

(** The rest of the text when [x] is appended to it. *)
Definition with_rest {A} (x : pystr) (o : option (A * pystr)) : option (A * pystr) :=
  option_map (fun p => (fst p, snd p ++ x)) o.

Lemma scanstring_spaces x :
  spaces x -> forall st out, scanstring st out x = None.
Proof.
  induction 1 as [|c x Hc Hx IH]; intros st out; [reflexivity|].
  pose proof (space_quote c Hc) as Q. pose proof (space_backslash c Hc) as B.
  pose proof (space_hexval c Hc) as X. pose proof (space_unescape c Hc) as U.
  pose proof (proj1 (space_not c (ch "u") Hc eq_refl)) as V.
  destruct st; simpl; rewrite ?Q, ?B, ?X, ?U, ?V; simpl; auto;
    destruct (c <? 32)%N; auto.
Qed.

Lemma scanstring_app x :
  spaces x ->
  forall s st out, scanstring st out (s ++ x) = with_rest x (scanstring st out s).
Proof.
  intros Hx. induction s as [|c s IH]; intros st out.
  - simpl. now rewrite scanstring_spaces.
  - destruct st; simpl;
      repeat match goal with
             | |- context [if ?b then _ else _] => destruct b
             | |- context [match unescape ?c with _ => _ end] => destruct (unescape c)
             | |- context [match hexval ?c with _ => _ end] => destruct (hexval c)
             | |- context [match ?n with O => _ | S _ => _ end] => destruct n
             end; rewrite ?IH; reflexivity.
Qed.

Lemma scanstring_shorter s :
  forall st out str r, scanstring st out s = Some (str, r) -> length r < length s.
Proof.
  induction s as [|c s IH]; intros st out str r; [discriminate|].
  destruct st; simpl;
    repeat match goal with
           | |- context [if ?b then _ else _] => destruct b
           | |- context [match unescape ?c with _ => _ end] => destruct (unescape c)
           | |- context [match hexval ?c with _ => _ end] => destruct (hexval c)
           | |- context [match ?n with O => _ | S _ => _ end] => destruct n
           end;
    intros H; try discriminate;
    try (injection H as _ <-; lia);
    apply IH in H; lia.
Qed.

Lemma span_digits_spaces x : spaces x -> span_digits x = ([], x).
Proof.
  destruct 1 as [|c x Hc Hx]; [reflexivity|].
  simpl. now rewrite (space_digit c Hc).
Qed.

Lemma span_digits_app x :
  spaces x ->
  forall s, span_digits (s ++ x) = (fst (span_digits s), snd (span_digits s) ++ x).
Proof.
  intros Hx. induction s as [|c s IH].
  - simpl. now rewrite span_digits_spaces.
  - simpl. destruct (is_digit c); [|reflexivity].
    rewrite IH. now destruct (span_digits s).
Qed.

Lemma span_digits_shorter s : length (snd (span_digits s)) <= length s.
Proof.
  induction s as [|c s IH]; simpl; [lia|].
  destruct (is_digit c); [|simpl; lia].
  destruct (span_digits s). simpl in *. lia.
Qed.

Lemma lex_int_app x s : spaces x -> lex_int (s ++ x) = with_rest x (lex_int s).
Proof.
  intros Hx. destruct s as [|c s].
  - destruct Hx as [|c x Hc Hx]; [reflexivity|].
    simpl. rewrite (proj1 (space_not c 48 Hc eq_refl)), (space_digit c Hc). reflexivity.
  - simpl. destruct (c =? 48)%N; [reflexivity|].
    destruct (is_digit c); [|reflexivity].
    rewrite span_digits_app by assumption. now destruct (span_digits s).
Qed.

Lemma lex_frac_app x s : spaces x -> lex_frac (s ++ x) = with_rest x (lex_frac s).
Proof.
  intros Hx. destruct s as [|c s].
  - destruct Hx as [|c x Hc Hx]; [reflexivity|].
    simpl. now rewrite (proj1 (space_not c (ch ".") Hc eq_refl)).
  - simpl. destruct (c =? ch ".")%N; [|reflexivity].
    rewrite span_digits_app by assumption. now destruct (span_digits s) as [[|d ds] r].
Qed.

Lemma lex_exp_app x s : spaces x -> lex_exp (s ++ x) = with_rest x (lex_exp s).
Proof.
  intros Hx. destruct s as [|c s].
  - destruct Hx as [|c x Hc Hx]; [reflexivity|].
    simpl. rewrite (proj1 (space_not c (ch "e") Hc eq_refl)),
      (proj1 (space_not c (ch "E") Hc eq_refl)). reflexivity.
  - simpl. destruct ((c =? ch "e")%N || (c =? ch "E")%N); [|reflexivity].
    destruct s as [|sg s].
    + destruct Hx as [|d x Hd Hx]; [reflexivity|].
      simpl. rewrite (proj1 (space_not d (ch "-") Hd eq_refl)),
        (proj1 (space_not d (ch "+") Hd eq_refl)).
      simpl. rewrite (space_digit d Hd). reflexivity.
    + simpl. destruct (sg =? ch "-")%N; [|destruct (sg =? ch "+")%N].
      * rewrite span_digits_app by assumption. now destruct (span_digits s) as [[|d ds] r].
      * rewrite span_digits_app by assumption. now destruct (span_digits s) as [[|d ds] r].
      * change (sg :: s ++ x) with ((sg :: s) ++ x).
        rewrite span_digits_app by assumption.
        now destruct (span_digits (sg :: s)) as [[|d ds] r].
Qed.

Lemma lex_int_shorter s ids r : lex_int s = Some (ids, r) -> length r < length s.
Proof.
  destruct s as [|c s]; [discriminate|]. simpl.
  destruct (c =? 48)%N.
  - intros H. injection H as _ <-. lia.
  - destruct (is_digit c); [|discriminate].
    pose proof (span_digits_shorter s) as L. destruct (span_digits s) as [ds r'].
    intros H. injection H as _ <-. simpl in L. lia.
Qed.

Lemma lex_frac_shorter s ds r : lex_frac s = Some (ds, r) -> length r < length s.
Proof.
  destruct s as [|c s]; [discriminate|]. simpl.
  destruct (c =? ch ".")%N; [|discriminate].
  pose proof (span_digits_shorter s) as L. destruct (span_digits s) as [[|d ds'] r'].
  - discriminate.
  - intros H. injection H as _ <-. simpl in L. lia.
Qed.

Lemma lex_exp_shorter s e r : lex_exp s = Some (e, r) -> length r < length s.
Proof.
  destruct s as [|c s]; [discriminate|]. simpl.
  destruct ((c =? ch "e")%N || (c =? ch "E")%N); [|discriminate].
  destruct s as [|sg s]; [discriminate|].
  destruct (sg =? ch "-")%N; [|destruct (sg =? ch "+")%N].
  - pose proof (span_digits_shorter s) as L.
    destruct (span_digits s) as [[|d ds] r']; [discriminate|].
    intros H. injection H as _ <-. simpl in *. lia.
  - pose proof (span_digits_shorter s) as L.
    destruct (span_digits s) as [[|d ds] r']; [discriminate|].
    intros H. injection H as _ <-. simpl in *. lia.
  - pose proof (span_digits_shorter (sg :: s)) as L.
    destruct (span_digits (sg :: s)) as [[|d ds] r']; [discriminate|].
    intros H. injection H as _ <-. simpl in *. lia.
Qed.

Lemma lex_unsigned_app x neg s :
  spaces x -> lex_unsigned neg (s ++ x) = with_rest x (lex_unsigned neg s).
Proof.
  intros Hx. unfold lex_unsigned. rewrite lex_int_app by assumption.
  destruct (lex_int s) as [[ids r1]|]; [|reflexivity]. simpl.
  rewrite lex_frac_app by assumption.
  destruct (lex_frac r1) as [[ds r2]|]; simpl;
    rewrite lex_exp_app by assumption;
    [destruct (lex_exp r2) as [[e r3]|] | destruct (lex_exp r1) as [[e r3]|]];
    reflexivity.
Qed.

Lemma lex_number_app x s : spaces x -> lex_number (s ++ x) = with_rest x (lex_number s).
Proof.
  intros Hx. destruct s as [|c s].
  - destruct Hx as [|c x Hc Hx]; [reflexivity|].
    simpl. rewrite (proj1 (space_not c (ch "-") Hc eq_refl)).
    unfold lex_unsigned. simpl.
    now rewrite (proj1 (space_not c 48 Hc eq_refl)), (space_digit c Hc).
  - simpl. destruct (c =? ch "-")%N.
    + now apply lex_unsigned_app.
    + now apply (lex_unsigned_app x false (c :: s)).
Qed.

Lemma lex_unsigned_shorter neg s v r :
  lex_unsigned neg s = Some (v, r) -> length r < length s.
Proof.
  unfold lex_unsigned.
  destruct (lex_int s) as [[ids r1]|] eqn:E1; [|discriminate].
  apply lex_int_shorter in E1.
  destruct (lex_frac r1) as [[ds r2]|] eqn:E2.
  - apply lex_frac_shorter in E2.
    destruct (lex_exp r2) as [[e r3]|] eqn:E3.
    + apply lex_exp_shorter in E3. intros H. injection H as _ <-. lia.
    + intros H. injection H as _ <-. lia.
  - destruct (lex_exp r1) as [[e r3]|] eqn:E3.
    + apply lex_exp_shorter in E3. intros H. injection H as _ <-. lia.
    + intros H. injection H as _ <-. lia.
Qed.

Lemma lex_number_shorter s v r : lex_number s = Some (v, r) -> length r < length s.
Proof.
  destruct s as [|c s]; [discriminate|]. simpl.
  destruct (c =? ch "-")%N; intros H; apply lex_unsigned_shorter in H; simpl in *; lia.
Qed.

Lemma strip_prefix_app p x :
  Forall (fun a => isspace a = false) p -> spaces x ->
  forall s, strip_prefix p (s ++ x) = option_map (fun r => r ++ x) (strip_prefix p s).
Proof.
  intros Hp Hx. induction Hp as [|a p Ha Hp IH]; intros s; [reflexivity|].
  destruct s as [|b s].
  - destruct Hx as [|c x Hc Hx]; [reflexivity|].
    simpl. now rewrite (proj2 (space_not c a Hc Ha)).
  - simpl. destruct (a =? b)%N; [apply IH | reflexivity].
Qed.

Lemma strip_prefix_length p :
  forall s r, strip_prefix p s = Some r -> length s = length p + length r.
Proof.
  induction p as [|a p IH]; intros s r; simpl.
  - intros H. now injection H as ->.
  - destruct s as [|b s]; [discriminate|].
    destruct (a =? b)%N; [|discriminate]. intros H. apply IH in H. simpl. lia.
Qed.

(** The literal names are not empty and have no whitespace in them. *)
Definition plain_name (pv : pystr * value) : Prop :=
  fst pv <> [] /\ Forall (fun a => isspace a = false) (fst pv).

Definition plain_nameb (pv : pystr * value) : bool :=
  match fst pv with
  | [] => false
  | p => forallb (fun a => negb (isspace a)) p
  end.

Lemma plain_nameb_spec pv : plain_nameb pv = true -> plain_name pv.
Proof.
  unfold plain_nameb, plain_name. destruct (fst pv) as [|a p]; [discriminate|].
  intros H. split; [discriminate|].
  apply List.Forall_forall. intros c Hc.
  rewrite forallb_forall in H. apply H in Hc. now destruct (isspace c).
Qed.

Lemma literal_names_plain : Forall plain_name literal_names.
Proof.
  apply List.Forall_forall. intros pv Hpv. apply plain_nameb_spec.
  assert (forallb plain_nameb literal_names = true) as A by (vm_compute; reflexivity).
  rewrite forallb_forall in A. now apply A.
Qed.

Lemma lex_literal_in_app names x s :
  Forall plain_name names -> spaces x ->
  lex_literal_in names (s ++ x) = with_rest x (lex_literal_in names s).
Proof.
  intros Hn Hx. induction Hn as [|[p v] names [_ Hp] Hn IH]; [reflexivity|].
  simpl in *. rewrite strip_prefix_app by assumption.
  destruct (strip_prefix p s); [reflexivity | exact IH].
Qed.

Lemma lex_literal_app x s : spaces x -> lex_literal (s ++ x) = with_rest x (lex_literal s).
Proof. apply lex_literal_in_app, literal_names_plain. Qed.

Lemma lex_literal_in_shorter names s v r :
  Forall plain_name names -> lex_literal_in names s = Some (v, r) -> length r < length s.
Proof.
  intros Hn. induction Hn as [|[p w] names [Hp _] Hn IH]; [discriminate|].
  simpl in *. destruct (strip_prefix p s) eqn:E; [|exact IH].
  apply strip_prefix_length in E. intros H. injection H as _ <-.
  destruct p; [congruence | simpl in E; lia].
Qed.

Lemma lex_literal_shorter s v r : lex_literal s = Some (v, r) -> length r < length s.
Proof. apply lex_literal_in_shorter, literal_names_plain. Qed.

Lemma lex_literal_in_space names c x :
  Forall plain_name names -> isspace c = true -> lex_literal_in names (c :: x) = None.
Proof.
  intros Hn Hc. induction Hn as [|[p v] names [Hp Hs] Hn IH]; [reflexivity|].
  simpl in *. destruct Hs as [|a p' Ha Hs]; [congruence|].
  simpl. now rewrite (proj2 (space_not c a Hc Ha)).
Qed.

Lemma next_token_app x s :
  spaces x -> s <> [] -> next_token (s ++ x) = with_rest x (next_token s).
Proof.
  intros Hx Hs. destruct s as [|c s]; [congruence|].
  change ((c :: s) ++ x) with (c :: s ++ x). unfold next_token.
  change (c :: s ++ x) with ((c :: s) ++ x).
  rewrite scanstring_app, lex_literal_app, lex_number_app by assumption.
  destruct (json_ws c); [reflexivity|].
  destruct (c =? 34)%N.
  - now destruct (scanstring SNorm [] s) as [[str r]|].
  - destruct (punct c); [reflexivity|].
    destruct (lex_literal (c :: s)) as [[v r]|]; [reflexivity|].
    now destruct (lex_number (c :: s)) as [[v r]|].
Qed.

Lemma next_token_space c x :
  isspace c = true ->
  next_token (c :: x) = if json_ws c then Some (None, x) else None.
Proof.
  intros Hc. unfold next_token.
  destruct (json_ws c); [reflexivity|].
  rewrite (space_quote c Hc), (space_punct c Hc).
  assert (lex_literal (c :: x) = None) as ->
    by (apply lex_literal_in_space; [apply literal_names_plain | exact Hc]).
  assert (lex_number (c :: x) = None) as ->; [|reflexivity].
  unfold lex_number. rewrite (proj1 (space_not c (ch "-") Hc eq_refl)).
  unfold lex_unsigned. simpl.
  now rewrite (proj1 (space_not c 48 Hc eq_refl)), (space_digit c Hc).
Qed.

Lemma next_token_shorter s t r : next_token s = Some (t, r) -> length r < length s.
Proof.
  destruct s as [|c s]; [discriminate|]. unfold next_token.
  destruct (json_ws c); [intros H; injection H as _ <-; simpl; lia|].
  destruct (c =? 34)%N.
  - destruct (scanstring SNorm [] s) as [[str r']|] eqn:E; [|discriminate].
    apply scanstring_shorter in E. intros H. injection H as _ <-. simpl. lia.
  - destruct (punct c); [intros H; injection H as _ <-; simpl; lia|].
    destruct (lex_literal (c :: s)) as [[v r']|] eqn:E.
    + apply lex_literal_shorter in E. intros H. now injection H as _ <-.
    + destruct (lex_number (c :: s)) as [[v r']|] eqn:F; [|discriminate].
      apply lex_number_shorter in F. intros H. now injection H as _ <-.
Qed.

Lemma tokenize_more_fuel f :
  forall s ts f', tokenize f s = (ts, true) -> f <= f' -> tokenize f' s = (ts, true).
Proof.
  induction f as [|f IH]; intros s ts f' H L; [discriminate|].
  destruct f' as [|f']; [lia|]. cbn [tokenize] in H |- *.
  destruct s as [|c s]; [exact H|].
  destruct (next_token (c :: s)) as [[[t|] r]|]; [| |discriminate].
  - destruct (tokenize f r) as [ts' [|]] eqn:E; [|discriminate].
    rewrite (IH r ts' f' E); [exact H | lia].
  - apply IH; [exact H | lia].
Qed.

(** Tokenizing does not depend on the fuel once there is enough of it. *)
Lemma tokenize_enough f :
  forall s ts f', tokenize f s = (ts, true) -> length s < f' -> tokenize f' s = (ts, true).
Proof.
  induction f as [|f IH]; intros s ts f' H L; [discriminate|].
  destruct f' as [|f']; [lia|]. cbn [tokenize] in H |- *.
  destruct s as [|c s]; [exact H|].
  destruct (next_token (c :: s)) as [[[t|] r]|] eqn:N; [| |discriminate];
    apply next_token_shorter in N; cbn [length] in N, L.
  - destruct (tokenize f r) as [ts' [|]] eqn:E; [|discriminate].
    rewrite (IH r ts' f' E); [exact H | lia].
  - apply IH; [exact H | lia].
Qed.

Lemma tokenize_spaces x :
  spaces x -> forall f ts, tokenize f x = (ts, true) -> ts = [].
Proof.
  induction 1 as [|c x Hc Hx IH]; intros [|f] ts H; try discriminate.
  - simpl in H. now injection H as <-.
  - cbn [tokenize] in H. rewrite (next_token_space c x Hc) in H.
    destruct (json_ws c); [apply (IH f), H | discriminate].
Qed.

(** Whitespace after a text adds no token. *)
Lemma tokenize_trail x :
  spaces x ->
  forall f s ts, tokenize f (s ++ x) = (ts, true) -> tokenize f s = (ts, true).
Proof.
  intros Hx. induction f as [|f IH]; intros s ts H; [discriminate|].
  destruct s as [|c s].
  - apply tokenize_spaces in H; [subst; reflexivity | exact Hx].
  - change ((c :: s) ++ x) with (c :: s ++ x) in H. cbn [tokenize] in H |- *.
    change (c :: s ++ x) with ((c :: s) ++ x) in H.
    rewrite next_token_app in H by (assumption || discriminate).
    destruct (next_token (c :: s)) as [[[t|] r]|]; simpl in H; [| |discriminate].
    + destruct (tokenize f (r ++ x)) as [ts' [|]] eqn:E; [|discriminate].
      now rewrite (IH r ts' E).
    + now apply IH.
Qed.

(** Whitespace before a text adds no token. *)
Lemma tokenize_lead l :
  spaces l ->
  forall f s ts, tokenize f (l ++ s) = (ts, true) -> tokenize f s = (ts, true).
Proof.
  induction 1 as [|c l Hc Hl IH]; intros f s ts H; [exact H|].
  destruct f as [|f]; [discriminate|].
  change ((c :: l) ++ s) with (c :: l ++ s) in H. cbn [tokenize] in H.
  rewrite (next_token_space c _ Hc) in H.
  destruct (json_ws c); [|discriminate].
  apply IH in H. apply (tokenize_more_fuel f); [exact H | lia].
Qed.

(** A text that is read was cut into tokens as a whole. *)
Lemma json_loads_ok lim s v :
  json_loads lim s = Ok v ->
  exists ts,
    tokenize (S (length s)) s = (ts, true)
    /\ parse_value lim (2 * length ts + 1) (json_depth lim) ts = Parsed (v, []).
Proof.
  unfold json_loads.
  destruct (tokenize (S (length s)) s) as [ts whole].
  destruct (parse_value lim (2 * length ts + 1) (json_depth lim) ts)
    as [[v' [|t r]]|[| |n]] eqn:P; try discriminate.
  destruct whole; [|discriminate].
  intros H. injection H as <-. exists ts. split; [reflexivity | exact P].
Qed.

(** Whitespace around a JSON text is immaterial: what [json.loads] reads
    from a text, it reads from the stripped text. *)
Lemma json_loads_strip lim s v :
  json_loads lim s = Ok v -> json_loads lim (strip s) = Ok v.
Proof.
  intros H. apply json_loads_ok in H as [ts [E P]].
  destruct (strip_decomp s) as [l [t [Hs [Hl Ht]]]].
  rewrite Hs in E at 2.
  apply tokenize_lead in E; [|exact Hl].
  apply tokenize_trail in E; [|exact Ht].
  unfold json_loads.
  rewrite (tokenize_enough _ _ _ (S (length (strip s))) E) by lia.
  rewrite P. reflexivity.
Qed.

(** The error of a text that is not JSON carries the text. *)
Lemma not_json_doc lim s :
  not_json (json_loads lim s) = true -> json_loads lim s = Raise (JSONDecodeError s).
Proof.
  unfold json_loads.
  destruct (tokenize (S (length s)) s) as [ts whole].
  destruct (parse_value lim (2 * length ts + 1) (json_depth lim) ts)
    as [[v' [|t r]]|[| |n]]; try destruct whole; try discriminate; reflexivity.
Qed.

(** *** The brace pattern *)

Lemma greedy_to_rbrace_none post :
  Forall (fun c => c <> ch "}") post -> greedy_to_rbrace post = None.
Proof.
  induction 1 as [|c post Hc Hp IH]; [reflexivity|].
  simpl. rewrite IH. destruct (N.eqb_spec c (ch "}")); [contradiction | reflexivity].
Qed.

Lemma greedy_to_rbrace_last mid post :
  Forall (fun c => c <> ch "}") post ->
  greedy_to_rbrace (mid ++ ch "}" :: post) = Some (mid ++ [ch "}"]).
Proof.
  intros Hp. induction mid as [|c mid IH].
  - cbn [app greedy_to_rbrace]. rewrite (greedy_to_rbrace_none post Hp).
    now rewrite N.eqb_refl.
  - simpl app. cbn [greedy_to_rbrace]. now rewrite IH.
Qed.

(** The search finds the text from the first opening brace to the last
    closing brace. *)
Lemma re_search_braces_spans pre mid post :
  Forall (fun c => c <> ch "{") pre ->
  Forall (fun c => c <> ch "}") post ->
  re_search_braces (pre ++ ch "{" :: mid ++ ch "}" :: post)
  = Some (ch "{" :: mid ++ [ch "}"]).
Proof.
  intros Hpre Hpost. induction Hpre as [|c pre Hc Hpre IH].
  - simpl app. cbn [re_search_braces match_braces].
    now rewrite N.eqb_refl, greedy_to_rbrace_last.
  - simpl app. cbn [re_search_braces match_braces].
    destruct (N.eqb_spec c (ch "{")); [contradiction | exact IH].
Qed.

Lemma greedy_to_rbrace_inv s m :
  greedy_to_rbrace s = Some m ->
  exists mid post, m = mid ++ [ch "}"] /\ s = m ++ post
                   /\ Forall (fun c => c <> ch "}") post.
Proof.
  revert m. induction s as [|c s IH]; intros m; [discriminate|].
  simpl. destruct (greedy_to_rbrace s) as [m'|] eqn:E.
  - intros H. injection H as <-.
    destruct (IH m' eq_refl) as [mid [post [Hm [Hs Hp]]]].
    exists (c :: mid), post. subst m'. repeat split; auto. now rewrite Hs at 1.
  - destruct (N.eqb_spec c (ch "}")) as [->|]; [|discriminate].
    intros H. injection H as <-. exists [], s. repeat split.
    clear IH. induction s as [|d s IH]; [constructor|].
    simpl in E. destruct (greedy_to_rbrace s); [discriminate|].
    destruct (N.eqb_spec d (ch "}")); [discriminate|]. constructor; auto.
Qed.

(** Conversely, what the search finds is such a span. *)
Lemma re_search_braces_inv s block :
  re_search_braces s = Some block ->
  exists pre mid post,
    block = ch "{" :: mid ++ [ch "}"] /\ s = pre ++ block ++ post
    /\ Forall (fun c => c <> ch "{") pre /\ Forall (fun c => c <> ch "}") post.
Proof.
  induction s as [|c s IH]; [discriminate|].
  cbn [re_search_braces match_braces].
  destruct (N.eqb_spec c (ch "{")) as [->|Hc].
  - destruct (greedy_to_rbrace s) as [m|] eqn:E.
    + intros H. injection H as <-.
      destruct (greedy_to_rbrace_inv s m E) as [mid [post [Hm [Hs Hp]]]].
      exists [], mid, post. subst m. repeat split; auto. simpl. now rewrite Hs at 1.
    + intros H. destruct (IH H) as [pre [mid [post [Hb [Hs [Hpre Hpost]]]]]].
      exfalso. subst block. rewrite Hs in E.
      assert (pre ++ (ch "{" :: mid ++ [ch "}"]) ++ post
              = (pre ++ ch "{" :: mid) ++ ch "}" :: post) as A.
      { rewrite <- !app_assoc. cbn [app]. now rewrite <- app_assoc. }
      rewrite A, (greedy_to_rbrace_last _ post Hpost) in E. discriminate.
  - intros H. destruct (IH H) as [pre [mid [post [Hb [Hs [Hpre Hpost]]]]]].
    exists (c :: pre), mid, post. repeat split; auto. now rewrite Hs at 1.
Qed.

(** ** The two-tier JSON repair *)

Lemma parse_json_first_tier lim raw v :
  json_loads lim (strip_fences raw) = Ok v -> htr_pipeline._parse_json lim raw = Ok v.
Proof. unfold htr_pipeline._parse_json. now intros ->. Qed.

Lemma parse_json_second_tier lim raw block :
  json_loads lim (strip_fences raw) = Raise (JSONDecodeError (strip_fences raw)) ->
  re_search_braces raw = Some block ->
  htr_pipeline._parse_json lim raw = json_loads lim block.
Proof. unfold htr_pipeline._parse_json. now intros -> ->. Qed.

Lemma parse_json_no_block lim raw :
  json_loads lim (strip_fences raw) = Raise (JSONDecodeError (strip_fences raw)) ->
  re_search_braces raw = None ->
  htr_pipeline._parse_json lim raw
  = Raise (ValueError (lit "Could not parse response as JSON:" ++ nl ++ firstn 300 raw)).
Proof. unfold htr_pipeline._parse_json. now intros -> ->. Qed.

Lemma parse_response_second_tier lim text block :
  json_loads lim (strip_fences (strip text))
  = Raise (JSONDecodeError (strip_fences (strip text))) ->
  re_search_braces (strip text) = Some block ->
  htr.parse_response lim text
  = match json_loads lim block with
    | Ok v => Ok v
    | Raise (JSONDecodeError _) => Ok (htr.degraded (strip text))
    | Raise e => Raise e
    end.
Proof. unfold htr.parse_response. now intros -> ->. Qed.

Lemma parse_response_degraded lim text :
  json_loads lim (strip_fences (strip text))
  = Raise (JSONDecodeError (strip_fences (strip text))) ->
  (forall block, re_search_braces (strip text) = Some block ->
                 json_loads lim block = Raise (JSONDecodeError block)) ->
  htr.parse_response lim text = Ok (htr.degraded (strip text)).
Proof.
  intros H1 H2. unfold htr.parse_response. rewrite H1.
  destruct (re_search_braces (strip text)) as [block|] eqn:E; [|reflexivity].
  rewrite (H2 block eq_refl). reflexivity.
Qed.

(** A text with no whitespace and no backquote is what [strip] and the
    deletion of the fences leave of it. *)
Lemma strip_plain s : Forall (fun c => isspace c = false) s -> strip s = s.
Proof.
  intros H. destruct (strip_decomp s) as [l [t [E [Hl Ht]]]].
  rewrite E in H. apply Forall_app in H as [H1 H]. apply Forall_app in H as [_ H2].
  destruct l as [|c l].
  - destruct t as [|c t].
    + rewrite app_nil_r in E. symmetry. exact E.
    + inversion H2; inversion Ht; congruence.
  - inversion H1; inversion Hl; congruence.
Qed.

Lemma contains_first_absent p c s :
  Forall (fun x => x <> c) s -> contains (c :: p) s = false.
Proof.
  induction 1 as [|x s Hx Hs IH]; [reflexivity|].
  rewrite contains_cons, IH. cbn [startswith].
  apply N.eqb_neq in Hx. rewrite N.eqb_sym, Hx. reflexivity.
Qed.

Lemma strip_fences_plain s :
  Forall (fun c => isspace c = false) s -> Forall (fun c => c <> 96%N) s ->
  strip_fences s = s.
Proof.
  intros Hs Hq. unfold strip_fences.
  rewrite (replace_absent fence_json)
    by (rewrite fence_json_eq; apply contains_first_absent, Hq).
  rewrite (replace_absent fence) by (rewrite fence_eq; apply contains_first_absent, Hq).
  apply strip_plain, Hs.
Qed.

Lemma Forall_times (P : N -> Prop) s n : Forall P s -> Forall P (times s n).
Proof.
  intros H. induction n as [|n IH]; cbn [times]; [constructor|].
  apply Forall_app. split; assumption.
Qed.

Lemma parse_response_raises lim text e :
  json_loads lim (strip_fences (strip text)) = Raise e ->
  (forall doc, e <> JSONDecodeError doc) ->
  htr.parse_response lim text = Raise e.
Proof.
  intros H Hn. unfold htr.parse_response. rewrite H.
  destruct e; try reflexivity. exfalso. exact (Hn doc eq_refl).
Qed.

(** C1, as stated, fails: a response of 2000 opening brackets is no JSON,
    and so is an integer of 5000 digits, but the decoder does not fail on
    them with [json.JSONDecodeError]: it raises [RecursionError] on the
    first and [ValueError] on the second, which the handlers of
    [extract_all_pages] do not catch; the call raises and there is no
    degraded result. *)
Lemma extract_all_pages_raises_beyond_limits :
  let deep := times (lit "[") 2000 in
  let long := times (lit "7") 5000 in
  let too_long :=
    ValueError (lit "Exceeds the limit (4300 digits) for integer string conversion: value has 5000 digits; use sys.set_int_max_str_digits() to increase the limit") in
  let answering text := stub_externals [] (fun _ => Ok (Some text)) in
  let run text :=
    htr.extract_all_pages (answering text) (mk_client (lit "key"))
      (mk_uploaded (lit "files/a")) empty_world in
  json_loads default_limits (strip_fences (strip deep)) = Raise RecursionError
  /\ snd (run deep) = Raise RecursionError
  /\ json_loads default_limits (strip_fences (strip long)) = Raise too_long
  /\ snd (run long) = Raise too_long.
Proof.
  cbv zeta.
  assert (forall c n, isspace c = false -> c <> 96%N ->
                      strip_fences (strip (times [c] n)) = times [c] n) as plain.
  { intros c n Hs Hq.
    rewrite strip_plain by (apply Forall_times; constructor; [exact Hs | constructor]).
    apply strip_fences_plain; apply Forall_times; constructor;
      solve [exact Hs | exact Hq | constructor]. }
  assert (json_loads default_limits (strip_fences (strip (times (lit "[") 2000)))
          = Raise RecursionError) as D.
  { change (lit "[") with [91%N]. rewrite plain by (reflexivity || discriminate).
    vm_compute. reflexivity. }
  assert (json_loads default_limits (strip_fences (strip (times (lit "7") 5000)))
          = Raise (ValueError (lit "Exceeds the limit (4300 digits) for integer string conversion: value has 5000 digits; use sys.set_int_max_str_digits() to increase the limit")))
    as L.
  { change (lit "7") with [55%N]. rewrite plain by (reflexivity || discriminate).
    vm_compute. reflexivity. }
  split; [exact D|]. split; [|split; [exact L|]].
  - unfold htr.extract_all_pages, bind, print, lift.
    cbn [generate_content py_limits stub_externals snd].
    rewrite (parse_response_raises _ _ _ D) by discriminate. reflexivity.
  - unfold htr.extract_all_pages, bind, print, lift.
    cbn [generate_content py_limits stub_externals snd].
    rewrite (parse_response_raises _ _ _ L) by discriminate. reflexivity.
Qed.

(** C1, amended: when the decoder rejects as not being JSON both the text
    without fences and the brace block the search finds, if it finds one,
    [extract_all_pages] does not raise: it returns the degraded result, with
    [total_questions_found] 0, one answer record of type [raw] whose text is
    the whole response text the function holds (its [raw], the stripped
    response), and a non-empty note on the parse failure. *)
Theorem extract_all_pages_degrades (ext : externals) (c : client)
    (pdf_file : uploaded_file) (w : world) (text : pystr) :
  generate_content ext c htr.GEMINI_MODEL [PFile pdf_file; PText htr.prompt]
  = Ok (Some text) ->
  let raw := strip text in
  json_loads (py_limits ext) (strip_fences raw)
  = Raise (JSONDecodeError (strip_fences raw)) ->
  (forall block, re_search_braces raw = Some block ->
                 json_loads (py_limits ext) block = Raise (JSONDecodeError block)) ->
  exists w' result answer note,
    htr.extract_all_pages ext c pdf_file w = (w', Ok result)
    /\ result = htr.degraded raw
    /\ py_get result (lit "total_questions_found") VNone = Ok (VInt 0)
    /\ py_get result (lit "answers") VNone = Ok (VList [answer])
    /\ py_get answer (lit "answer_type") VNone = Ok (VStr (lit "raw"))
    /\ py_get answer (lit "answer_text") VNone = Ok (VStr raw)
    /\ py_get result (lit "extraction_notes") VNone = Ok (VStr note)
    /\ note <> []
    /\ contains (lit "JSON parse failed") note = true.
Proof.
  intros Hgen raw H1 H2.
  eexists _, (htr.degraded raw), _, _. split; [|split; [reflexivity|]].
  - unfold htr.extract_all_pages, bind, print, lift. rewrite Hgen.
    rewrite (parse_response_degraded (py_limits ext) text H1 H2). reflexivity.
  - conjs; try reflexivity; try discriminate.
Qed.

Lemma extract_all_pages_degrades_witness :
  exists w',
    htr.extract_all_pages
      (stub_externals [] (fun _ => Ok (Some (lit "  Sorry {no answers} found. "))))
      (mk_client (lit "key")) (mk_uploaded (lit "files/a")) empty_world
    = (w', Ok (htr.degraded (lit "Sorry {no answers} found."))).
Proof.
  destruct (extract_all_pages_degrades
              (stub_externals [] (fun _ => Ok (Some (lit "  Sorry {no answers} found. "))))
              (mk_client (lit "key")) (mk_uploaded (lit "files/a")) empty_world
              (lit "  Sorry {no answers} found. "))
    as [w' [result [answer [note [H [E _]]]]]].
  - reflexivity.
  - vm_compute. reflexivity.
  - intros block H. vm_compute in H. injection H as <-. vm_compute. reflexivity.
  - exists w'. rewrite H, E. vm_compute. reflexivity.
Defined.

(** C2, at its failing input: the first tier fails on a response with a
    trailing comma, the search finds the whole text as its brace block, and
    the decoder's own error for that block leaves [_parse_json]; the
    [ValueError] with the first 300 characters is not raised.  This is so
    under every limit that lets the decoder enter one object. *)
Theorem parse_json_block_error (depth digits : nat) :
  let lim := mk_limits (S depth) digits in
  let raw := qlit "{'total_marks': 50,}" in
  json_loads lim (strip_fences raw) = Raise (JSONDecodeError raw)
  /\ re_search_braces raw = Some raw
  /\ json_loads lim raw = Raise (JSONDecodeError raw)
  /\ htr_pipeline._parse_json lim raw = Raise (JSONDecodeError raw).
Proof. cbv zeta. conjs; vm_compute; reflexivity. Qed.

(** C3, as stated, fails: the block the search takes runs to the last
    closing brace of the response, here past the single JSON object to a
    brace of the prose, and what is parsed is not the first top-level block. *)
Lemma repair_takes_last_brace :
  let raw := qlit "Here you go: {'a': 1} :-}" in
  json_loads default_limits (strip_fences raw) = Raise (JSONDecodeError raw)
  /\ first_top_level_block raw = Some (qlit "{'a': 1}")
  /\ json_loads default_limits (qlit "{'a': 1}") = Ok (VDict [(lit "a", VInt 1)])
  /\ re_search_braces raw = Some (qlit "{'a': 1} :-}")
  /\ htr_pipeline._parse_json default_limits raw
     = Raise (JSONDecodeError (qlit "{'a': 1} :-}"))
  /\ htr.parse_response default_limits raw = Ok (htr.degraded raw).
Proof. cbv zeta. conjs; vm_compute; reflexivity. Qed.

(** C3, amended: when the text without fences is not JSON, the block the
    second attempt takes is the text from the first opening brace to the last
    closing brace of the response, and exactly that block is parsed; so a
    JSON object between prose with no opening brace before it and no closing
    brace after it is what the repair returns. *)
Theorem repair_parses_brace_span (lim : limits) (raw : pystr) :
  json_loads lim (strip_fences raw) = Raise (JSONDecodeError (strip_fences raw)) ->
  (forall block, re_search_braces raw = Some block ->
     (exists pre mid post,
        block = ch "{" :: mid ++ [ch "}"] /\ raw = pre ++ block ++ post
        /\ Forall (fun c => c <> ch "{") pre /\ Forall (fun c => c <> ch "}") post)
     /\ htr_pipeline._parse_json lim raw = json_loads lim block
     /\ (forall text, strip text = raw ->
           htr.parse_response lim text
           = match json_loads lim block with
             | Ok v => Ok v
             | Raise (JSONDecodeError _) => Ok (htr.degraded raw)
             | Raise e => Raise e
             end))
  /\ (forall pre mid post v,
        raw = pre ++ (ch "{" :: mid ++ [ch "}"]) ++ post ->
        Forall (fun c => c <> ch "{") pre ->
        Forall (fun c => c <> ch "}") post ->
        json_loads lim (ch "{" :: mid ++ [ch "}"]) = Ok v ->
        htr_pipeline._parse_json lim raw = Ok v
        /\ (forall text, strip text = raw -> htr.parse_response lim text = Ok v)).
Proof.
  intros H1. split.
  - intros block Hb. split; [|split].
    + now apply re_search_braces_inv.
    + now apply parse_json_second_tier.
    + intros text <-. now apply parse_response_second_tier.
  - intros pre mid post v Hraw Hpre Hpost Hv.
    assert (re_search_braces raw = Some (ch "{" :: mid ++ [ch "}"])) as Hb.
    { rewrite Hraw. cbn [app]. rewrite <- app_assoc. cbn [app].
      now apply re_search_braces_spans. }
    split.
    + now rewrite (parse_json_second_tier lim raw _ H1 Hb), Hv.
    + intros text <-.
      now rewrite (parse_response_second_tier lim text _ H1 Hb), Hv.
Qed.

Lemma repair_parses_brace_span_witness :
  htr_pipeline._parse_json default_limits
    (qlit "The key is {'total_marks': 50} as asked.")
  = Ok (VDict [(lit "total_marks", VInt 50)]).
Proof.
  refine (proj1 (proj2 (repair_parses_brace_span default_limits
                          (qlit "The key is {'total_marks': 50} as asked.") _)
                   (lit "The key is ") (qlit "'total_marks': 50") (lit " as asked.")
                   (VDict [(lit "total_marks", VInt 50)]) _ _ _ _)).
  - vm_compute. reflexivity.
  - reflexivity.
  - vm_compute. repeat constructor; discriminate.
  - vm_compute. repeat constructor; discriminate.
  - vm_compute. reflexivity.
Defined.

(** C4, as stated, fails: a fence inside a string of the JSON text is
    deleted with the wrapping fences, and what is returned is not what the
    text between the wrapping fences parses to. *)
Lemma fenced_json_loses_inner_fence :
  let body := qlit "{'note': 'quote code with ``` please'}" in
  json_loads default_limits body
  = Ok (VDict [(lit "note", VStr (lit "quote code with ``` please"))])
  /\ htr_pipeline._parse_json default_limits (fence_json ++ body ++ fence)
     = Ok (VDict [(lit "note", VStr (lit "quote code with  please"))])
  /\ htr.parse_response default_limits (fence_json ++ body ++ fence)
     = Ok (VDict [(lit "note", VStr (lit "quote code with  please"))]).
Proof. cbv zeta. conjs; vm_compute; reflexivity. Qed.

(** C4, amended: for a well-formed JSON text with no fence inside it that is
    wrapped in a json fence and a closing fence, the repair returns what the
    text between the fences parses to. *)
Theorem fenced_json_without_inner_fence (lim : limits) (body : pystr) (v : value) :
  json_loads lim body = Ok v ->
  contains fence body = false ->
  htr_pipeline._parse_json lim (fence_json ++ body ++ fence) = Ok v
  /\ (forall text, strip text = fence_json ++ body ++ fence ->
        htr.parse_response lim text = Ok v).
Proof.
  intros Hv Hf.
  assert (json_loads lim (strip_fences (fence_json ++ body ++ fence)) = Ok v) as A.
  { rewrite strip_fences_wrapped by assumption. now apply json_loads_strip. }
  split.
  - now apply parse_json_first_tier.
  - intros text E. unfold htr.parse_response. now rewrite E, A.
Qed.

Lemma fenced_json_without_inner_fence_witness :
  htr_pipeline._parse_json default_limits
    (fence_json ++ (nl ++ qlit "{'total_marks': 50}" ++ nl) ++ fence)
  = Ok (VDict [(lit "total_marks", VInt 50)]).
Proof.
  refine (proj1 (fenced_json_without_inner_fence default_limits
                   (nl ++ qlit "{'total_marks': 50}" ++ nl)
                   (VDict [(lit "total_marks", VInt 50)]) _ _)).
  - vm_compute. reflexivity.
  - vm_compute. reflexivity.
Defined.

(** C9: the first tier leaves no fence anywhere in the text it parses, not
    only none at its ends; so a response whose JSON has a fence inside a
    string is parsed to an object other than the one its text between the
    wrapping fences denotes, under every limit that lets the decoder enter
    one object. *)
Theorem fences_deleted_everywhere (depth digits : nat) :
  (forall raw,
     contains fence (strip_fences raw) = false
     /\ contains fence_json (strip_fences raw) = false)
  /\ (let lim := mk_limits (S depth) digits in
      let inner := nl ++ qlit "{'answer_text': 'a ```json block'}" ++ nl in
      let response := fence_json ++ inner ++ fence in
      json_loads lim inner
      = Ok (VDict [(lit "answer_text", VStr (lit "a ```json block"))])
      /\ htr_pipeline._parse_json lim response
         = Ok (VDict [(lit "answer_text", VStr (lit "a  block"))])
      /\ htr.parse_response lim response
         = Ok (VDict [(lit "answer_text", VStr (lit "a  block"))])
      /\ VDict [(lit "answer_text", VStr (lit "a ```json block"))]
         <> VDict [(lit "answer_text", VStr (lit "a  block"))]).
Proof.
  split; [exact strip_fences_clean|].
  cbv zeta. conjs; try (vm_compute; reflexivity).
  intros E. vm_compute in E. discriminate.
Qed.

(** ** The printed-text extractor *)









(** ** Facts about the rendering of numbers *)

Lemma uint_digits_all u : forallb is_digit (uint_digits u) = true.
Proof. induction u; simpl; auto. Qed.

Lemma str_of_N_digits n :
  exists c ds, str_of_N n = c :: ds /\ forallb is_digit (c :: ds) = true.
Proof.
  unfold str_of_N.
  assert (N.to_uint n <> Decimal.Nil) as A.
  { destruct n as [|p]; [discriminate|]. apply DecimalPos.Unsigned.to_uint_nonnil. }
  pose proof (uint_digits_all (N.to_uint n)) as B.
  destruct (N.to_uint n); try congruence; simpl in *; eauto.
Qed.

Lemma pystr_eqb_spec a : forall b, pystr_eqb a b = true <-> a = b.
Proof.
  induction a as [|x a IH]; intros [|y b]; simpl; try (split; [discriminate | discriminate]).
  - split; reflexivity.
  - rewrite andb_true_iff, N.eqb_eq, IH. split.
    + now intros [-> ->].
    + intros H. now injection H as -> ->.
Qed.

Lemma str_of_N_small n : (n < 10)%N -> str_of_N n = [(48 + n)%N].
Proof.
  intros H.
  assert (forallb (fun k => pystr_eqb (str_of_N (N.of_nat k)) [(48 + N.of_nat k)%N])
                  (seq 0 10) = true) as A by (vm_compute; reflexivity).
  rewrite forallb_forall in A.
  specialize (A (N.to_nat n)). rewrite N2Nat.id in A.
  apply pystr_eqb_spec, A, in_seq. lia.
Qed.

Lemma str_of_Z_nonneg z : (0 <= z)%Z -> str_of_Z z = str_of_N (Z.to_N z).
Proof. destruct z; [reflexivity | reflexivity | lia]. Qed.

Lemma span_digits_all ds c r :
  forallb is_digit ds = true -> is_digit c = false ->
  span_digits (ds ++ c :: r) = (ds, c :: r).
Proof.
  intros Hd Hc. induction ds as [|d ds IH]; simpl.
  - now rewrite Hc.
  - simpl in Hd. apply andb_true_iff in Hd as [H1 H2]. now rewrite H1, (IH H2).
Qed.

Lemma div_half_even_nonneg n d : (0 <= n)%Z -> (0 < d)%Z -> (0 <= div_half_even n d)%Z.
Proof.
  intros Hn Hd. unfold div_half_even.
  assert (0 <= n / d)%Z by (apply Z.div_pos; lia).
  destruct (_ || _); lia.
Qed.

(** A tenths count [q >= 0] is rendered with one decimal place. *)
Lemma tenths_one_decimal neg q :
  (0 <= q)%Z ->
  one_decimal ((if neg : bool then [ch "-"] else [])
               ++ str_of_Z (q / 10) ++ [ch "."] ++ str_of_Z (q mod 10)) = true.
Proof.
  intros Hq.
  assert (0 <= q / 10)%Z as H1 by (apply Z.div_pos; lia).
  assert (0 <= q mod 10 < 10)%Z as H2 by (apply Z.mod_pos_bound; lia).
  rewrite (str_of_Z_nonneg _ H1), (str_of_Z_nonneg (q mod 10)) by lia.
  rewrite (str_of_N_small (Z.to_N (q mod 10))) by lia.
  destruct (str_of_N_digits (Z.to_N (q / 10))) as [c [ds [-> Hd]]].
  assert (is_digit (48 + Z.to_N (q mod 10)) = true) as Hlast.
  { unfold is_digit. apply andb_true_iff. split; apply N.leb_le; lia. }
  assert ((c =? ch "-")%N = false) as Hc.
  { simpl in Hd. apply andb_true_iff in Hd as [Hc _]. unfold is_digit in Hc.
    apply andb_true_iff in Hc as [L1 L2]. apply N.leb_le in L1.
    apply N.eqb_neq. intros ->. vm_compute in L1. now apply L1. }
  assert (span_digits (c :: ds ++ [ch "."; (48 + Z.to_N (q mod 10))%N])
          = (c :: ds, [ch "."; (48 + Z.to_N (q mod 10))%N])) as Hs
    by (apply (span_digits_all (c :: ds)); [assumption | reflexivity]).
  destruct neg; unfold one_decimal; cbn [app];
    rewrite ?N.eqb_refl, ?Hc, Hs, N.eqb_refl, Hlast; reflexivity.
Qed.

Lemma format_1f_one_decimal neg m e : one_decimal (format_1f (FFin neg m e)) = true.
Proof.
  unfold format_1f. apply tenths_one_decimal.
  destruct (Z.ltb_spec e 0).
  - apply div_half_even_nonneg; [lia|]. apply Z.pow_pos_nonneg; lia.
  - assert (0 <= 2 ^ e)%Z by (apply Z.pow_nonneg; lia). nia.
Qed.

Lemma py_format_1f_one_decimal v s :
  finite_number v = true -> py_format_1f v = Ok s -> one_decimal s = true.
Proof.
  destruct v as [| [|] | z | [| |neg m e] | | |]; try discriminate; intros _ H.
  - injection H as <-. reflexivity.
  - injection H as <-. reflexivity.
  - simpl in H. unfold float_of_int in H.
    destruct (round_binary64 (Z.abs z) 1) as [[m e]|]; [|discriminate].
    injection H as <-. apply format_1f_one_decimal.
  - injection H as <-. apply format_1f_one_decimal.
Qed.

(** ** Facts about [join] *)

Lemma join_cons sep p parts :
  parts <> [] -> join sep (p :: parts) = p ++ sep ++ join sep parts.
Proof. destruct parts; [congruence | reflexivity]. Qed.

Lemma join_app sep a b :
  a <> [] -> b <> [] -> join sep (a ++ b) = join sep a ++ sep ++ join sep b.
Proof.
  intros Ha Hb. induction a as [|p a IH]; [congruence|].
  destruct a as [|q a].
  - simpl app. now rewrite join_cons.
  - change ((p :: q :: a) ++ b) with (p :: (q :: a) ++ b).
    rewrite join_cons by discriminate. rewrite IH by discriminate.
    rewrite (join_cons sep p (q :: a)) by discriminate. now rewrite <- !app_assoc.
Qed.

(** The lines [x] inside a text joined from lines, with lines before and
    after them. *)
Lemma join_middle sep a x b :
  a <> [] -> x <> [] -> b <> [] ->
  join sep (a ++ x ++ b) = join sep a ++ sep ++ join sep x ++ sep ++ join sep b.
Proof.
  intros Ha Hx Hb. rewrite join_app; [|assumption|].
  - now rewrite (join_app sep x b).
  - destruct x; [congruence | discriminate].
Qed.

(** ** The report *)

Lemma has_line_join top x rest :
  top <> [] -> rest <> [] -> has_line (join nl (top ++ x :: rest)) x.
Proof.
  intros Ht Hr. exists (join nl top), (join nl rest).
  change (x :: rest) with ([x] ++ rest).
  now rewrite join_middle by (assumption || discriminate).
Qed.

Lemma rbind_ok {A B} (r : result A) (k : A -> result B) b :
  rbind r k = Ok b -> exists a, r = Ok a /\ k a = Ok b.
Proof. destruct r as [a|e]; [eauto | discriminate]. Qed.

Ltac rbind_inv H :=
  repeat match type of H with
         | rbind _ _ = Ok _ =>
           let a := fresh "x" in
           let E := fresh "E" in
           apply rbind_ok in H as [a [E H]]
         end.

Definition report_footer : pystr := nl ++ times (lit "=") 60.

Lemma report_text_inv (ext : externals) extracted grading text :
  htr_pipeline.report_text ext extracted grading = Ok text ->
  exists head results rs body,
    htr_pipeline.summary_lines ext extracted grading = Ok head
    /\ py_get grading (lit "results") (VList []) = Ok results
    /\ py_iter results = Ok rs
    /\ htr_pipeline.results_lines ext rs = Ok body
    /\ text = join nl (head ++ body ++ [report_footer]).
Proof.
  unfold htr_pipeline.report_text. intros H. rbind_inv H.
  injection H as <-. eauto 10.
Qed.

Lemma summary_lines_inv (ext : externals) extracted grading head :
  htr_pipeline.summary_lines ext extracted grading = Ok head ->
  exists top awarded available percentage pct rest,
    py_get grading (lit "total_marks_awarded") (VInt 0) = Ok awarded
    /\ py_get grading (lit "total_marks_available") (VInt 0) = Ok available
    /\ py_get grading (lit "percentage") (VInt 0) = Ok percentage
    /\ py_format_1f percentage = Ok pct
    /\ top <> [] /\ rest <> []
    /\ head = top
              ++ [ lit "  Total Marks : " ++ py_str ext awarded ++ lit " / "
                   ++ py_str ext available;
                   lit "  Percentage  : " ++ pct ++ lit "%" ]
              ++ rest.
Proof.
  unfold htr_pipeline.summary_lines. intros H. rbind_inv H. injection H as <-.
  eexists [_; _; _; _; _; _], _, _, _, _, [_; _; _; _].
  repeat split; eauto; discriminate.
Qed.

Lemma generate_report_inv (ext : externals) extracted solutions grading path w w' text :
  htr_pipeline.generate_report ext extracted solutions grading path w = (w', Ok text) ->
  htr_pipeline.report_text ext extracted grading = Ok text
  /\ fs w' !! path = Some text.
Proof.
  unfold htr_pipeline.generate_report, bind, lift, open_w, fwrite, print, ret.
  destruct (htr_pipeline.report_text ext extracted grading) as [t|e]; [|discriminate].
  cbn [fs]. intros H. injection H as <- <-. cbn [fs].
  rewrite !lookup_insert_eq. split; reflexivity.
Qed.

Lemma results_lines_entry (ext : externals) rs :
  forall body r,
    htr_pipeline.results_lines ext rs = Ok body -> In r rs ->
    exists ls before after,
      htr_pipeline.result_lines ext r = Ok ls /\ body = before ++ ls ++ after.
Proof.
  induction rs as [|r0 rs IH]; intros body r H Hin; [contradiction|].
  cbn [htr_pipeline.results_lines] in H. rbind_inv H. injection H as <-.
  destruct Hin as [->|Hin].
  - exists x, [], x0. split; [assumption | reflexivity].
  - destruct (IH x0 r E0 Hin) as [ls [before [after [Hl Hb]]]].
    exists ls, (x ++ before), after. split; [assumption|].
    rewrite Hb. now rewrite <- app_assoc.
Qed.

Lemma result_lines_inv (ext : externals) r ls :
  htr_pipeline.result_lines ext r = Ok ls ->
  exists glyph qn awarded available student correct feedback,
    htr_pipeline.status r = Ok glyph
    /\ py_getitem r (lit "question_number") = Ok qn
    /\ py_get r (lit "marks_awarded") (VInt 0) = Ok awarded
    /\ py_get r (lit "marks_available") (VInt 0) = Ok available
    /\ py_get r (lit "student_answer") (VStr []) = Ok student
    /\ py_get r (lit "correct_answer") (VStr []) = Ok correct
    /\ py_get r (lit "feedback") (VStr []) = Ok feedback
    /\ ls = [ nl ++ lit "  Q" ++ py_str ext qn ++ lit " [" ++ glyph ++ lit "] "
                 ++ py_str ext awarded ++ lit "/" ++ py_str ext available ++ lit " marks";
              lit "  Student : " ++ firstn 100 (py_str ext student);
              lit "  Correct : " ++ firstn 100 (py_str ext correct);
              lit "  Feedback: " ++ py_str ext feedback ].
Proof.
  unfold htr_pipeline.result_lines. intros H. rbind_inv H. injection H as <-.
  eauto 20.
Qed.

(** The stand-ins used to run the report on concrete records. *)
Definition no_model : externals := stub_externals [] (fun _ => Ok None).

(** C7, as stated, fails: [json.loads] accepts [NaN] (and the infinities),
    and such a percentage is rendered as [nan], with no decimal place. *)
Lemma report_percentage_nan :
  let grading :=
    VDict [ (lit "total_marks_awarded", VInt 20); (lit "total_marks_available", VInt 50);
            (lit "percentage", VFloat FNan) ] in
  json_loads default_limits
    (qlit "{'total_marks_awarded': 20, 'total_marks_available': 50, 'percentage': NaN}")
  = Ok grading
  /\ htr_pipeline.report_text no_model (VDict []) grading
     = Ok (join nl
             [ times (lit "=") 60;
               lit "         PAPER CORRECTION REPORT";
               times (lit "=") 60;
               nl ++ lit "Source: N/A";
               lit "Questions extracted: 0";
               nl ++ lit "── SCORE SUMMARY " ++ times (lit "─") 43;
               lit "  Total Marks : 20 / 50";
               lit "  Percentage  : nan%";
               lit "  Grade       : N/A";
               nl ++ lit "── OVERALL FEEDBACK " ++ times (lit "─") 40;
               lit "  ";
               nl ++ lit "── QUESTION-WISE RESULTS " ++ times (lit "─") 35;
               nl ++ times (lit "=") 60 ])
  /\ one_decimal (lit "nan") = false.
Proof. cbv zeta. conjs; vm_compute; reflexivity. Qed.

(** C7, amended: in the report [generate_report] produces for a grading
    record with 20 marks awarded of 50 available, one line reads
    [  Total Marks : 20 / 50]; and for every grading record the percentage
    line shows the percentage with exactly one decimal place when the
    percentage is a finite number (an int, a bool or a finite float). *)
Theorem report_summary_lines (ext : externals) (extracted solutions grading : value)
    (path : pystr) (w w' : world) (text : pystr) :
  htr_pipeline.generate_report ext extracted solutions grading path w = (w', Ok text) ->
  fs w' !! path = Some text
  /\ (py_get grading (lit "total_marks_awarded") (VInt 0) = Ok (VInt 20) ->
      py_get grading (lit "total_marks_available") (VInt 0) = Ok (VInt 50) ->
      has_line text (lit "  Total Marks : 20 / 50"))
  /\ (exists percentage pct,
        py_get grading (lit "percentage") (VInt 0) = Ok percentage
        /\ py_format_1f percentage = Ok pct
        /\ has_line text (lit "  Percentage  : " ++ pct ++ lit "%")
        /\ (finite_number percentage = true -> one_decimal pct = true)).
Proof.
  intros H. apply generate_report_inv in H as [H Hfs]. split; [exact Hfs|].
  apply report_text_inv in H as [head [results [rs [body [Hs [_ [_ [_ ->]]]]]]]].
  apply summary_lines_inv in Hs
    as [top [awarded [available [percentage [pct [rest [Ha [Hb [Hp [Hf [Ht [Hr ->]]]]]]]]]]]].
  split.
  - rewrite Ha, Hb. intros E1 E2. injection E1 as ->. injection E2 as ->.
    rewrite <- app_assoc. apply has_line_join; [assumption | discriminate].
  - exists percentage, pct. split; [exact Hp|]. split; [exact Hf|]. split.
    + match goal with
      | |- has_line (join nl ((top ++ [?a; ?b] ++ rest) ++ ?c)) _ =>
        assert ((top ++ [a; b] ++ rest) ++ c = (top ++ [a]) ++ b :: (rest ++ c)) as ->
            by (now rewrite <- !app_assoc)
      end.
      apply has_line_join; [destruct top; discriminate|].
      destruct rest; [congruence | discriminate].
    + intros Hfin. now apply (py_format_1f_one_decimal percentage).
Qed.

(** A grading record as the model is asked to return it. *)
Definition sample_entry1 : value :=
  VDict [ (lit "question_number", VStr (lit "1"));
          (lit "student_answer", VStr (lit "B"));
          (lit "correct_answer", VStr (lit "B"));
          (lit "is_correct", VBool true);
          (lit "marks_awarded", VInt 2);
          (lit "marks_available", VInt 2);
          (lit "feedback", VStr (lit "Correct!")) ].

Definition sample_entry2 : value :=
  VDict [ (lit "question_number", VStr (lit "2"));
          (lit "student_answer", VStr (times (lit "verify the ledger; ") 7));
          (lit "correct_answer", VStr (lit "Vouching"));
          (lit "is_correct", VBool false);
          (lit "marks_awarded", VInt 18);
          (lit "marks_available", VInt 48);
          (lit "feedback", VStr (lit "Key point missed.")) ].

Definition sample_grading : value :=
  VDict
    [ (lit "results", VList [sample_entry1; sample_entry2]);
      (lit "total_marks_awarded", VInt 20);
      (lit "total_marks_available", VInt 50);
      (lit "percentage", VFloat (float_of_decimal false 400 (-1)));
      (lit "grade", VStr (lit "Pass"));
      (lit "overall_feedback", VStr (lit "Summary of performance.")) ].

Definition sample_extracted : value :=
  VDict [ (lit "answers", VList []); (lit "total_questions_found", VInt 2);
          (lit "source_pdf", VStr (lit "handwritten-ans.pdf")) ].

(** The report of the sample record and the world it leaves, computed. *)
Definition sample_report : pystr :=
  Eval vm_compute in
    match snd (htr_pipeline.generate_report no_model sample_extracted
                 htr_pipeline.empty_solutions sample_grading
                 htr_pipeline.OUTPUT_REPORT empty_world) with
    | Ok text => text
    | Raise _ => []
    end.

Definition sample_report_world : world :=
  Eval vm_compute in
    fst (htr_pipeline.generate_report no_model sample_extracted
           htr_pipeline.empty_solutions sample_grading
           htr_pipeline.OUTPUT_REPORT empty_world).

Lemma sample_report_run :
  htr_pipeline.generate_report no_model sample_extracted htr_pipeline.empty_solutions
    sample_grading htr_pipeline.OUTPUT_REPORT empty_world
  = (sample_report_world, Ok sample_report).
Proof. vm_compute. reflexivity. Qed.

Lemma report_summary_lines_witness :
  has_line sample_report (lit "  Total Marks : 20 / 50")
  /\ has_line sample_report (lit "  Percentage  : 40.0%").
Proof.
  destruct (report_summary_lines no_model sample_extracted htr_pipeline.empty_solutions
              sample_grading htr_pipeline.OUTPUT_REPORT empty_world
              sample_report_world sample_report sample_report_run)
    as [_ [H1 [percentage [pct [Hp [Hf [H2 _]]]]]]].
  split.
  - apply H1; vm_compute; reflexivity.
  - vm_compute in Hp. injection Hp as <-. vm_compute in Hf. injection Hf as <-.
    exact H2.
Defined.

(** C8, as stated, fails: the glyph follows the [is_correct] flag of the
    entry, not the comparison of its marks.  An entry with full marks and a
    false flag gets the partial-credit glyph, and an entry with no marks and
    a true flag gets the full-credit glyph. *)
Lemma glyph_ignores_marks_available :
  htr_pipeline.status
    (VDict [ (lit "question_number", VStr (lit "1")); (lit "is_correct", VBool false);
             (lit "marks_awarded", VInt 2); (lit "marks_available", VInt 2) ])
  = Ok (lit "~")
  /\ htr_pipeline.status
       (VDict [ (lit "question_number", VStr (lit "2")); (lit "is_correct", VBool true);
                (lit "marks_awarded", VInt 0); (lit "marks_available", VInt 2) ])
     = Ok (lit "✓")
  /\ nth_error
       (match htr_pipeline.result_lines no_model
                (VDict [ (lit "question_number", VStr (lit "1"));
                         (lit "is_correct", VBool false);
                         (lit "marks_awarded", VInt 2); (lit "marks_available", VInt 2) ])
        with Ok ls => ls | Raise _ => [] end) 0
     = Some (nl ++ lit "  Q1 [~] 2/2 marks").
Proof. conjs; vm_compute; reflexivity. Qed.

(** C8, amended: the glyph of an entry is decided by its [is_correct] flag
    and then by its [marks_awarded]: the full-credit glyph when the flag is
    true, otherwise the partial-credit glyph when the marks awarded are above
    zero and the zero-credit glyph when they are not; [marks_available] has
    no part in it.  The glyph stands between brackets in the first line of
    the entry. *)
Theorem glyph_by_flag_then_marks (ext : externals) (d : pydict) :
  let flag := match dict_lookup (lit "is_correct") d with Some v => v | None => VNone end in
  let awarded :=
    match dict_lookup (lit "marks_awarded") d with Some v => v | None => VInt 0 end in
  (py_truthy flag = true -> htr_pipeline.status (VDict d) = Ok (lit "✓"))
  /\ (py_truthy flag = false -> py_gt_zero awarded = Ok true ->
      htr_pipeline.status (VDict d) = Ok (lit "~"))
  /\ (py_truthy flag = false -> py_gt_zero awarded = Ok false ->
      htr_pipeline.status (VDict d) = Ok (lit "✗"))
  /\ (forall ls, htr_pipeline.result_lines ext (VDict d) = Ok ls ->
      exists glyph qn available rest,
        htr_pipeline.status (VDict d) = Ok glyph
        /\ py_getitem (VDict d) (lit "question_number") = Ok qn
        /\ py_get (VDict d) (lit "marks_available") (VInt 0) = Ok available
        /\ ls = (nl ++ lit "  Q" ++ py_str ext qn ++ lit " [" ++ glyph ++ lit "] "
                 ++ py_str ext awarded ++ lit "/" ++ py_str ext available ++ lit " marks")
                :: rest).
Proof.
  cbv zeta. unfold htr_pipeline.status. cbn [py_get rbind].
  conjs.
  - now intros ->.
  - intros -> ->. reflexivity.
  - intros -> ->. reflexivity.
  - intros ls H. apply result_lines_inv in H
      as [glyph [qn [aw [av [st [co [fb [H1 [H2 [H3 [H4 [_ [_ [_ ->]]]]]]]]]]]]]].
    cbn [py_get] in H3. injection H3 as <-.
    eexists glyph, qn, av, _. repeat split; auto.
Qed.

(** C10: for every entry of the results, the report shows the first 100
    characters of [str(student_answer)] and of [str(correct_answer)] and
    nothing beyond them, and the feedback in full, on three lines one after
    the other. *)
Theorem report_truncates_answers (ext : externals) (extracted solutions grading : value)
    (path : pystr) (w w' : world) (text : pystr) (results : value) (rs : list value)
    (r : value) :
  htr_pipeline.generate_report ext extracted solutions grading path w = (w', Ok text) ->
  py_get grading (lit "results") (VList []) = Ok results ->
  py_iter results = Ok rs ->
  In r rs ->
  exists student correct feedback before after,
    py_get r (lit "student_answer") (VStr []) = Ok student
    /\ py_get r (lit "correct_answer") (VStr []) = Ok correct
    /\ py_get r (lit "feedback") (VStr []) = Ok feedback
    /\ text = before
              ++ nl ++ lit "  Student : " ++ firstn 100 (py_str ext student)
              ++ nl ++ lit "  Correct : " ++ firstn 100 (py_str ext correct)
              ++ nl ++ lit "  Feedback: " ++ py_str ext feedback
              ++ nl ++ after
    /\ length (firstn 100 (py_str ext student)) <= 100
    /\ length (firstn 100 (py_str ext correct)) <= 100.
Proof.
  intros H Hres Hiter Hin. apply generate_report_inv in H as [H _].
  apply report_text_inv in H as [head [results' [rs' [body [Hs [Hres' [Hiter' [Hb ->]]]]]]]].
  rewrite Hres in Hres'. injection Hres' as <-.
  rewrite Hiter in Hiter'. injection Hiter' as <-.
  destruct (results_lines_entry ext rs body r Hb Hin) as [ls [b1 [b2 [Hl ->]]]].
  apply result_lines_inv in Hl
    as [glyph [qn [aw [av [st [co [fb [_ [_ [_ [_ [H5 [H6 [H7 ->]]]]]]]]]]]]]].
  exists st, co, fb.
  match goal with
  | |- context [join nl (head ++ (b1 ++ [?l1; ?l2; ?l3; ?l4] ++ b2) ++ ?f)] =>
    exists (join nl (head ++ b1 ++ [l1])), (join nl (b2 ++ f));
    assert (head ++ (b1 ++ [l1; l2; l3; l4] ++ b2) ++ f
            = (head ++ b1 ++ [l1]) ++ [l2; l3; l4] ++ (b2 ++ f)) as ->
        by (now rewrite <- !app_assoc)
  end.
  repeat split; auto; try apply firstn_le_length.
  rewrite join_middle.
  - cbn [join]. now rewrite <- !app_assoc.
  - destruct head; [destruct b1|]; discriminate.
  - discriminate.
  - destruct b2; discriminate.
Qed.

Lemma report_truncates_answers_witness :
  exists before after,
    sample_report
    = before
      ++ nl ++ lit "  Student : " ++ firstn 100 (times (lit "verify the ledger; ") 7)
      ++ nl ++ lit "  Correct : Vouching"
      ++ nl ++ lit "  Feedback: Key point missed."
      ++ nl ++ after.
Proof.
  destruct (report_truncates_answers no_model sample_extracted htr_pipeline.empty_solutions
              sample_grading htr_pipeline.OUTPUT_REPORT empty_world
              sample_report_world sample_report
              (VList [sample_entry1; sample_entry2]) [sample_entry1; sample_entry2]
              sample_entry2 sample_report_run)
    as [st [co [fb [before [after [H1 [H2 [H3 [H _]]]]]]]]].
  - vm_compute. reflexivity.
  - vm_compute. reflexivity.
  - right. left. reflexivity.
  - vm_compute in H1. injection H1 as <-. vm_compute in H2. injection H2 as <-.
    vm_compute in H3. injection H3 as <-.
    exists before, after. exact H.
Defined.

(** ** What effectful code leaves untouched *)

(** From [w] to [w']: only the files [ps] may have changed, the console has
    only grown, the environment is the same. *)
Definition evolves (ps : list pystr) (w w' : world) : Prop :=
  (forall p, ~ In p ps -> fs w' !! p = fs w !! p)
  /\ (exists l, stdout w' = stdout w ++ l)
  /\ environ w' = environ w.

Definition tame (ps : list pystr) {A} (c : M A) : Prop :=
  forall w w' r, c w = (w', r) -> evolves ps w w'.

Lemma evolves_refl ps w : evolves ps w w.
Proof. repeat split. exists []. now rewrite app_nil_r. Qed.

Lemma evolves_trans ps w1 w2 w3 : evolves ps w1 w2 -> evolves ps w2 w3 -> evolves ps w1 w3.
Proof.
  intros [F1 [[l1 S1] E1]] [F2 [[l2 S2] E2]]. repeat split.
  - intros p Hp. now rewrite F2, F1.
  - exists (l1 ++ l2). now rewrite S2, S1, app_assoc.
  - now rewrite E2.
Qed.

Lemma tame_ret ps {A} (a : A) : tame ps (ret a).
Proof. intros w w' r H. injection H as <- _. apply evolves_refl. Qed.

Lemma tame_raise ps {A} e : tame ps (@raise A e).
Proof. intros w w' r H. injection H as <- _. apply evolves_refl. Qed.

Lemma tame_lift ps {A} (x : result A) : tame ps (lift x).
Proof. intros w w' r H. injection H as <- _. apply evolves_refl. Qed.

Lemma tame_print ps s : tame ps (print s).
Proof.
  intros w w' r H. injection H as <- _. repeat split. now exists [s].
Qed.

Lemma tame_path_exists ps p : tame ps (path_exists p).
Proof. intros w w' r H. injection H as <- _. apply evolves_refl. Qed.

Lemma tame_environ_get ps k : tame ps (environ_get k).
Proof. intros w w' r H. injection H as <- _. apply evolves_refl. Qed.

Lemma tame_read_file ps p : tame ps (read_file p).
Proof.
  intros w w' r H. unfold read_file in H.
  destruct (fs w !! p); injection H as <- _; apply evolves_refl.
Qed.

Lemma tame_open_w ps p : In p ps -> tame ps (open_w p).
Proof.
  intros Hp w w' r H. injection H as <- _. repeat split.
  - intros q Hq. cbn [fs]. apply lookup_insert_ne. intros ->. contradiction.
  - exists []. cbn [stdout]. now rewrite app_nil_r.
Qed.

Lemma tame_fwrite ps p s : In p ps -> tame ps (fwrite p s).
Proof.
  intros Hp w w' r H. injection H as <- _. repeat split.
  - intros q Hq. cbn [fs]. apply lookup_insert_ne. intros ->. contradiction.
  - exists []. cbn [stdout]. now rewrite app_nil_r.
Qed.

Lemma tame_bind ps {A B} (c : M A) (k : A -> M B) :
  tame ps c -> (forall a, tame ps (k a)) -> tame ps (bind c k).
Proof.
  intros Hc Hk w w' r H. unfold bind in H.
  destruct (c w) as [w1 [a|e]] eqn:E.
  - eapply evolves_trans; [eapply Hc, E | eapply Hk, H].
  - injection H as <- _. eapply Hc, E.
Qed.

Lemma tame_swallow ps {A} (c : M A) : tame ps c -> tame ps (swallow c).
Proof.
  intros Hc w w' r H. unfold swallow in H.
  destruct (c w) as [w1 x] eqn:E. injection H as <- _. eapply Hc, E.
Qed.

Lemma tame_for_each ps {A} (xs : list A) (body : A -> M unit) :
  (forall x, tame ps (body x)) -> tame ps (for_each xs body).
Proof.
  intros Hb. induction xs as [|x xs IH]; simpl.
  - apply tame_ret.
  - apply tame_bind; auto.
Qed.

Ltac tame_step :=
  match goal with
  | |- tame _ (bind _ _) => apply tame_bind; [|intros ?]
  | |- tame _ (ret _) => apply tame_ret
  | |- tame _ (raise _) => apply tame_raise
  | |- tame _ (lift _) => apply tame_lift
  | |- tame _ (print _) => apply tame_print
  | |- tame _ (path_exists _) => apply tame_path_exists
  | |- tame _ (environ_get _) => apply tame_environ_get
  | |- tame _ (read_file _) => apply tame_read_file
  | |- tame _ (open_w _) => apply tame_open_w; simpl; tauto
  | |- tame _ (fwrite _ _) => apply tame_fwrite; simpl; tauto
  | |- tame _ (swallow _) => apply tame_swallow
  | |- tame _ (for_each _ _) => apply tame_for_each; intros ?
  | |- tame _ (match ?x with _ => _ end) => destruct x
  end.

Lemma tame_get_client ps : tame ps htr.get_client.
Proof. unfold htr.get_client. repeat tame_step. Qed.

Lemma tame_extract_handwritten_text (ext : externals) pdf_path output_txt output_json :
  tame [output_txt; output_json]
       (htr.extract_handwritten_text ext pdf_path output_txt output_json).
Proof.
  unfold htr.extract_handwritten_text, htr.upload_pdf, htr.extract_all_pages,
    htr.write_answer.
  repeat first [apply tame_get_client | tame_step].
Qed.

Lemma tame_grade_answers (ext : externals) c extracted solutions questions_text :
  tame [] (htr_pipeline.grade_answers ext c extracted solutions questions_text).
Proof.
  unfold htr_pipeline.grade_answers, htr_pipeline._call_gemini.
  repeat tame_step.
Qed.

(** ** The driver *)

(** The world after the lines [ls] were printed. *)
Definition printed (ls : list pystr) (w : world) : world :=
  mk_world (fs w) (stdout w ++ ls) (environ w).

(** What [run_pipeline] prints before the transcription starts. *)
Definition pipeline_banner : list pystr :=
  [ times (lit "=") 60;
    lit "   PAPER CORRECTION AI  —  Full Pipeline (FREE)";
    lit "   Powered by Google Gemini 2.5 Flash-Lite (1000 RPD free)";
    times (lit "=") 60;
    nl ++ lit "[Step 1] Extracting handwritten answers..." ].

(** The warning for the missing solutions file. *)
Definition solutions_warning : pystr :=
  nl ++ lit "[Step 2] solutions.txt not found — run extractor.py first".

Lemma bind_print {B} l (k : unit -> M B) w : bind (print l) k w = k tt (printed [l] w).
Proof. reflexivity. Qed.

Lemma printed_printed a b w : printed b (printed a w) = printed (a ++ b) w.
Proof. unfold printed. cbn [fs stdout environ]. now rewrite app_assoc. Qed.

Lemma bind_ok {A B} (c : M A) (k : A -> M B) w w' a :
  c w = (w', Ok a) -> bind c k w = k a w'.
Proof. unfold bind. now intros ->. Qed.

Lemma bind_ret {A B} (a : A) (k : A -> M B) w : bind (ret a) k w = k a w.
Proof. reflexivity. Qed.

Lemma bind_bind {A B C} (c : M A) (f : A -> M B) (g : B -> M C) w :
  bind (bind c f) g w = bind c (fun x => bind (f x) g) w.
Proof. unfold bind. now destruct (c w) as [w' [a|e]]. Qed.

Lemma bind_path_exists {B} p (k : bool -> M B) w :
  bind (path_exists p) k w
  = k (match fs w !! p with Some _ => true | None => false end) w.
Proof. reflexivity. Qed.

Lemma read_file_ok w p s : fs w !! p = Some s -> read_file p w = (w, Ok s).
Proof. unfold read_file. now intros ->. Qed.

Lemma get_client_ok w k :
  environ w !! lit "GEMINI_API_KEY" = Some k ->
  pystr_eqb k [] || pystr_eqb k (lit "your_gemini_api_key_here") = false ->
  htr.get_client w = (w, Ok (mk_client k)).
Proof.
  intros Hk Hb. unfold htr.get_client, bind, environ_get. rewrite Hk, Hb. reflexivity.
Qed.

(** C6: when [solutions.txt] does not exist, the solutions step of
    [run_pipeline] does not fail: the warning is printed, the empty solution
    set (no solutions, total marks 0) takes the place of the parsed key, and
    with the transcription, the grading and the report succeeding the run
    succeeds and writes [final_output.json] and [grading_report.txt]. *)
Theorem run_pipeline_without_solutions (ext : externals) (w w1 w2 : world) (k : pystr)
    (extracted grading : value) (text : pystr) :
  fs w !! lit "solutions.txt" = None ->
  environ w !! lit "GEMINI_API_KEY" = Some k ->
  pystr_eqb k [] || pystr_eqb k (lit "your_gemini_api_key_here") = false ->
  htr.extract_handwritten_text ext htr_pipeline.HANDWRITTEN_PDF
    (lit "handwritten-ans.txt") (lit "handwritten-ans.json") (printed pipeline_banner w)
  = (w1, Ok extracted) ->
  htr_pipeline.grade_answers ext (mk_client k) extracted htr_pipeline.empty_solutions
    (match fs w1 !! lit "question.txt" with Some q => q | None => [] end)
    (printed [solutions_warning] w1)
  = (w2, Ok grading) ->
  htr_pipeline.report_text ext extracted grading = Ok text ->
  let final_output :=
    VDict [ (lit "extraction", extracted);
            (lit "solutions", htr_pipeline.empty_solutions);
            (lit "grading", grading) ] in
  exists w',
    htr_pipeline.run_pipeline ext w = (w', Ok final_output)
    /\ In solutions_warning (stdout w')
    /\ fs w' !! htr_pipeline.OUTPUT_JSON = Some (json_dump ext final_output)
    /\ fs w' !! htr_pipeline.OUTPUT_REPORT = Some text
    /\ py_get htr_pipeline.empty_solutions (lit "solutions") VNone = Ok (VList [])
    /\ py_get htr_pipeline.empty_solutions (lit "total_marks") VNone = Ok (VInt 0).
Proof.
  intros Hsol Hkey Hk Hext Hgrade Hrep final_output.
  assert (fs w1 !! lit "solutions.txt" = None) as Hsol1.
  { destruct (tame_extract_handwritten_text ext _ _ _ _ _ _ Hext) as [F _].
    rewrite F; [exact Hsol|].
    intros [E|[E|[]]]; vm_compute in E; discriminate. }
  destruct (tame_grade_answers ext _ _ _ _ _ _ _ Hgrade) as [_ [[l Hout] _]].
  eexists. split; [|split; [|split; [|split; [|split]]]].
  - unfold htr_pipeline.run_pipeline.
    repeat (rewrite bind_print; cbv beta). rewrite !printed_printed. cbn [app].
    rewrite (bind_ok _ _ _ _ _ (get_client_ok (printed _ w) k Hkey Hk)). cbv beta.
    rewrite bind_print, printed_printed. cbn [app]. fold pipeline_banner.
    rewrite (bind_ok _ _ _ _ _ Hext). cbv beta.
    rewrite bind_path_exists, Hsol1. cbv beta.
    rewrite bind_bind, bind_print. cbv beta. rewrite bind_ret.
    fold solutions_warning.
    rewrite bind_path_exists. cbv beta. cbn [fs printed].
    change (mk_world (fs w1) (stdout w1 ++ [solutions_warning]) (environ w1))
      with (printed [solutions_warning] w1).
    destruct (fs w1 !! lit "question.txt") as [q|] eqn:Eq;
      [rewrite (bind_ok _ _ _ _ _ (read_file_ok (printed [solutions_warning] w1) _ q Eq))
      | rewrite bind_ret]; cbv beta.
    all: rewrite (bind_ok _ _ _ _ _ Hgrade).
    all: unfold htr_pipeline.generate_report, bind, open_w, fwrite, print, lift, ret.
    all: cbn [fs stdout environ]; rewrite Hrep; cbn [fs stdout environ].
    all: reflexivity.
  - cbn [stdout]. rewrite Hout. cbn [printed stdout].
    rewrite !in_app_iff. cbn [In]. tauto.
  - cbn [fs]. rewrite !lookup_insert_eq.
    rewrite !lookup_insert_ne by (intros E; vm_compute in E; discriminate).
    rewrite !lookup_insert_eq. reflexivity.
  - cbn [fs]. rewrite !lookup_insert_eq. reflexivity.
  - reflexivity.
  - reflexivity.
Qed.

(** A run of the driver with no [solutions.txt]: the model answers the
    transcription request with a fenced JSON text and the grading request
    with a JSON text between two sentences. *)
Definition demo_answer (contents : list part) : result (option pystr) :=
  match contents with
  | [PFile _; PText _] =>
    Ok (Some (fence_json ++ nl
              ++ qlit "{'answers': [{'question_number': '1', 'answer_text': 'B', 'answer_type': 'mcq'}], 'total_questions_found': 1, 'pages_processed': 1, 'extraction_notes': ''}"
              ++ nl ++ fence))
  | _ =>
    Ok (Some (qlit "Here is the report: {'results': [{'question_number': '1', 'student_answer': 'B', 'correct_answer': '', 'is_correct': false, 'marks_awarded': 0, 'marks_available': 0, 'feedback': 'No key.'}], 'total_marks_awarded': 0, 'total_marks_available': 0, 'percentage': 0.0, 'grade': 'N/A', 'overall_feedback': 'No solution key.'} Done."))
  end.

Definition demo_externals : externals := stub_externals [] demo_answer.

Definition demo_world : world :=
  mk_world ∅ [] (<[lit "GEMINI_API_KEY" := lit "k-123"]> ∅).

Definition demo_transcription : world * result value :=
  Eval vm_compute in
    htr.extract_handwritten_text demo_externals htr_pipeline.HANDWRITTEN_PDF
      (lit "handwritten-ans.txt") (lit "handwritten-ans.json")
      (printed pipeline_banner demo_world).

Definition demo_extracted : value :=
  Eval vm_compute in
    match snd demo_transcription with Ok v => v | Raise _ => VNone end.

Definition demo_grading_run : world * result value :=
  Eval vm_compute in
    htr_pipeline.grade_answers demo_externals (mk_client (lit "k-123")) demo_extracted
      htr_pipeline.empty_solutions [] (printed [solutions_warning] (fst demo_transcription)).

Definition demo_grading : value :=
  Eval vm_compute in
    match snd demo_grading_run with Ok v => v | Raise _ => VNone end.

Definition demo_report : pystr :=
  Eval vm_compute in
    match htr_pipeline.report_text demo_externals demo_extracted demo_grading with
    | Ok text => text
    | Raise _ => []
    end.

(** The worlds the transcription and the grading of that run leave. *)
Definition demo_w1 : world := Eval vm_compute in fst demo_transcription.
Definition demo_w2 : world := Eval vm_compute in fst demo_grading_run.

Lemma run_pipeline_without_solutions_witness :
  exists w',
    htr_pipeline.run_pipeline demo_externals demo_world
    = (w', Ok (VDict [ (lit "extraction", demo_extracted);
                       (lit "solutions", htr_pipeline.empty_solutions);
                       (lit "grading", demo_grading) ]))
    /\ In solutions_warning (stdout w')
    /\ fs w' !! htr_pipeline.OUTPUT_JSON <> None
    /\ fs w' !! htr_pipeline.OUTPUT_REPORT = Some demo_report.
Proof.
  destruct (run_pipeline_without_solutions demo_externals demo_world
              demo_w1 demo_w2 (lit "k-123")
              demo_extracted demo_grading demo_report)
    as [w' [H1 [H2 [H3 [H4 _]]]]].
  - vm_compute. reflexivity.
  - vm_compute. reflexivity.
  - vm_compute. reflexivity.
  - vm_compute. reflexivity.
  - vm_compute. reflexivity.
  - vm_compute. reflexivity.
  - exists w'. split; [exact H1|split; [exact H2|split; [|exact H4]]].
    rewrite H3. discriminate.
Defined.

(** ** Further properties of the scripts *)

(** *** Dicts *)

Lemma pystr_eqb_refl a : pystr_eqb a a = true.
Proof. apply pystr_eqb_spec. reflexivity. Qed.

Lemma pystr_eqb_neq a b : a <> b -> pystr_eqb a b = false.
Proof.
  intros H. destruct (pystr_eqb a b) eqn:E; [|reflexivity].
  apply pystr_eqb_spec in E. contradiction.
Qed.

Lemma dict_lookup_set_eq k v d : dict_lookup k (dict_set k v d) = Some v.
Proof.
  induction d as [|[k' v'] d IH]; cbn [dict_set dict_lookup].
  - rewrite pystr_eqb_refl. reflexivity.
  - destruct (pystr_eqb k k') eqn:E; cbn [dict_lookup]; rewrite E;
      [reflexivity | exact IH].
Qed.

Lemma dict_lookup_set_ne k k' v d :
  k' <> k -> dict_lookup k' (dict_set k v d) = dict_lookup k' d.
Proof.
  intros H. induction d as [|[k0 v0] d IH]; cbn [dict_set dict_lookup].
  - rewrite (pystr_eqb_neq k' k H). reflexivity.
  - destruct (pystr_eqb k k0) eqn:E; cbn [dict_lookup].
    + apply pystr_eqb_spec in E. subst k0.
      rewrite (pystr_eqb_neq k' k H). reflexivity.
    + rewrite IH. reflexivity.
Qed.

(** *** The errors of [_parse_json] *)

Lemma re_search_braces_no_lbrace s :
  Forall (fun c => c <> ch "{") s -> re_search_braces s = None.
Proof.
  induction 1 as [|c s Hc Hs IH]; [reflexivity|].
  cbn [re_search_braces match_braces].
  destruct (N.eqb_spec c (ch "{")); [contradiction | exact IH].
Qed.

Lemma re_search_braces_no_rbrace s :
  Forall (fun c => c <> ch "}") s -> re_search_braces s = None.
Proof.
  induction 1 as [|c s Hc Hs IH]; [reflexivity|].
  cbn [re_search_braces match_braces].
  rewrite (greedy_to_rbrace_none s Hs), IH. destruct (c =? ch "{")%N; reflexivity.
Qed.

Lemma no_char_forallb c s :
  forallb (fun x => negb (x =? c)%N) s = true -> Forall (fun x => x <> c) s.
Proof.
  induction s as [|x s IH]; cbn [forallb]; intros H; [constructor|].
  apply andb_prop in H as [H1 H2]. constructor; [|exact (IH H2)].
  intros ->. rewrite N.eqb_refl in H1. discriminate.
Qed.

(** X3: a response that is not JSON once its fences are deleted and that lacks
    an opening or a closing brace makes [_parse_json] raise its
    [ValueError]: the fixed sentence, a line break and the first 300
    characters of the response, never more. *)
Theorem parse_json_value_error (lim : limits) (raw : pystr) :
  json_loads lim (strip_fences raw) = Raise (JSONDecodeError (strip_fences raw)) ->
  Forall (fun c => c <> ch "{") raw \/ Forall (fun c => c <> ch "}") raw ->
  exists msg,
    htr_pipeline._parse_json lim raw = Raise (ValueError msg)
    /\ msg = lit "Could not parse response as JSON:" ++ nl ++ firstn 300 raw
    /\ length msg <= 334
    /\ (length raw <= 300 -> msg = lit "Could not parse response as JSON:" ++ nl ++ raw).
Proof.
  intros H1 H2. eexists. split; [|split; [reflexivity|split]].
  - apply parse_json_no_block; [exact H1|].
    destruct H2 as [H2|H2]; [exact (re_search_braces_no_lbrace raw H2)
                            | exact (re_search_braces_no_rbrace raw H2)].
  - rewrite !length_app. pose proof (firstn_le_length 300 raw) as L.
    assert (length (lit "Could not parse response as JSON:") = 33) as ->
      by (vm_compute; reflexivity).
    cbn [nl length]. lia.
  - intros L. rewrite firstn_all2 by exact L. reflexivity.
Qed.

Lemma parse_json_value_error_witness :
  htr_pipeline._parse_json default_limits (lit "I could not read the document.")
  = Raise (ValueError (lit "Could not parse response as JSON:" ++ nl
                       ++ lit "I could not read the document.")).
Proof.
  destruct (parse_json_value_error default_limits (lit "I could not read the document."))
    as [msg [H [_ [_ E]]]].
  - vm_compute. reflexivity.
  - left. apply no_char_forallb. vm_compute. reflexivity.
  - rewrite H, E; [reflexivity | vm_compute; lia].
Defined.

(** *** The API key *)

Definition key_name : pystr := lit "GEMINI_API_KEY".
Definition key_placeholder : pystr := lit "your_gemini_api_key_here".

(** The message of the [EnvironmentError] of [get_client]. *)
Definition key_error : pystr :=
  nl ++ lit "❌ Gemini API key not set!" ++ nl
  ++ lit "Open the .env file in your project folder and replace:" ++ nl
  ++ lit "   GEMINI_API_KEY=your_gemini_api_key_here" ++ nl
  ++ lit "with your actual key from https://aistudio.google.com/apikey" ++ nl.

Definition usable_key (k : pystr) : bool :=
  negb (pystr_eqb k [] || pystr_eqb k key_placeholder).

Lemma get_client_run w :
  htr.get_client w
  = (w, match environ w !! key_name with
        | Some k => if usable_key k then Ok (mk_client k)
                    else Raise (EnvironmentError key_error)
        | None => Raise (EnvironmentError key_error)
        end).
Proof.
  unfold htr.get_client, bind, environ_get, usable_key, key_name, key_placeholder,
    key_error, raise, ret.
  destruct (environ w !! lit "GEMINI_API_KEY") as [k|]; [|reflexivity].
  destruct (pystr_eqb k [] || pystr_eqb k (lit "your_gemini_api_key_here"));
    reflexivity.
Qed.

Lemma key_error_names_key : contains key_name key_error = true.
Proof. vm_compute. reflexivity. Qed.

(** X1: [get_client] returns a client, holding the key, exactly when the key is
    set, not empty and not the placeholder of the [.env] template; otherwise
    it raises an [EnvironmentError] whose message names the variable.  It
    changes nothing either way. *)
Theorem get_client_checks_key (w : world) :
  (forall k, environ w !! key_name = Some k -> k <> [] -> k <> key_placeholder ->
             htr.get_client w = (w, Ok (mk_client k)))
  /\ (environ w !! key_name = None \/ environ w !! key_name = Some []
      \/ environ w !! key_name = Some key_placeholder ->
      exists msg, htr.get_client w = (w, Raise (EnvironmentError msg))
                  /\ contains key_name msg = true)
  /\ (forall w' c, htr.get_client w = (w', Ok c) ->
        w' = w /\ environ w !! key_name = Some (api_key c)
        /\ api_key c <> [] /\ api_key c <> key_placeholder).
Proof.
  rewrite get_client_run. split; [|split].
  - intros k -> H1 H2. unfold usable_key.
    rewrite (pystr_eqb_neq _ _ H1), (pystr_eqb_neq _ _ H2). reflexivity.
  - intros H. exists key_error. split; [|exact key_error_names_key].
    destruct H as [-> | [-> | ->]]; [reflexivity | reflexivity |].
    unfold usable_key. rewrite pystr_eqb_refl, orb_true_r. reflexivity.
  - intros w' c. destruct (environ w !! key_name) as [k|]; [|discriminate].
    unfold usable_key.
    destruct (pystr_eqb k []) eqn:E1; [discriminate|].
    destruct (pystr_eqb k key_placeholder) eqn:E2; [discriminate|].
    cbn [orb negb]. intros H. injection H as <- <-. cbn [api_key].
    split; [reflexivity|split; [reflexivity|split]].
    + intros ->. discriminate E1.
    + intros ->. rewrite pystr_eqb_refl in E2. discriminate E2.
Qed.

Lemma get_client_printed l w :
  htr.get_client (printed l w) = (printed l w, snd (htr.get_client w)).
Proof. rewrite !get_client_run. reflexivity. Qed.

(** X2: without a usable API key, the Transcriber and the driver stop with the
    [EnvironmentError] right after their banners, whatever the external
    services would do: no file is written or changed. *)
Theorem pipeline_halts_without_key (ext : externals) (w : world)
    (pdf_path output_txt output_json : pystr) :
  environ w !! key_name = None \/ environ w !! key_name = Some []
  \/ environ w !! key_name = Some key_placeholder ->
  exists w1 w2,
    htr.extract_handwritten_text ext pdf_path output_txt output_json w
    = (w1, Raise (EnvironmentError key_error))
    /\ htr_pipeline.run_pipeline ext w = (w2, Raise (EnvironmentError key_error))
    /\ fs w1 = fs w /\ fs w2 = fs w
    /\ stdout w2 = stdout w ++ firstn 4 pipeline_banner.
Proof.
  intros H.
  assert (snd (htr.get_client w) = Raise (EnvironmentError key_error)) as Hc.
  { rewrite get_client_run. cbn [snd].
    destruct H as [-> | [-> | ->]]; [reflexivity | reflexivity |].
    unfold usable_key. rewrite pystr_eqb_refl, orb_true_r. reflexivity. }
  eexists _, _. split; [|split].
  - unfold htr.extract_handwritten_text.
    repeat (rewrite bind_print; cbv beta). rewrite !printed_printed.
    unfold bind at 1. rewrite get_client_printed, Hc. reflexivity.
  - unfold htr_pipeline.run_pipeline.
    repeat (rewrite bind_print; cbv beta). rewrite !printed_printed.
    unfold bind at 1. rewrite get_client_printed, Hc. reflexivity.
  - split; [reflexivity|split; reflexivity].
Qed.

Lemma pipeline_halts_without_key_witness :
  exists w',
    htr_pipeline.run_pipeline no_model empty_world
    = (w', Raise (EnvironmentError key_error))
    /\ fs w' = ∅.
Proof.
  destruct (pipeline_halts_without_key no_model empty_world [] [] [])
    as [w1 [w2 [_ [H [_ [F _]]]]]].
  - left. vm_compute. reflexivity.
  - exists w2. split; [exact H | exact F].
Defined.

(** *** Stepping through the monad *)

Lemma bind_lift {A B} (r : result A) (k : A -> M B) w :
  bind (lift r) k w = match r with Ok a => k a w | Raise e => (w, Raise e) end.
Proof. unfold bind, lift. destruct r; reflexivity. Qed.

(** *** The question text in the grading request *)

Lemma grading_prompt_reads_3000 (ext : externals) answers solutions questions_text :
  htr_pipeline.grading_prompt ext answers solutions (firstn 3000 questions_text)
  = htr_pipeline.grading_prompt ext answers solutions questions_text.
Proof.
  unfold htr_pipeline.grading_prompt. rewrite firstn_firstn, Nat.min_id.
  destruct questions_text as [|c q]; [reflexivity|].
  change 3000 with (S 2999) at 1. rewrite firstn_cons. reflexivity.
Qed.

(** X4: of the question text, [grade_answers] uses the first 3000 characters
    only: a run with the whole text is the run with the text cut there. *)
Theorem grade_answers_reads_3000 (ext : externals) (c : client)
    (extracted solutions : value) (questions_text : pystr) (w : world) :
  htr_pipeline.grade_answers ext c extracted solutions questions_text w
  = htr_pipeline.grade_answers ext c extracted solutions (firstn 3000 questions_text) w.
Proof.
  unfold htr_pipeline.grade_answers. rewrite !bind_print. cbv beta.
  rewrite !bind_lift.
  destruct (py_get extracted (lit "answers") (VList [])) as [answers|e]; [|reflexivity].
  rewrite !bind_lift.
  destruct (py_get solutions (lit "solutions") (VList [])) as [sols|e]; [|reflexivity].
  rewrite grading_prompt_reads_3000. reflexivity.
Qed.

(** *** Failures of the Extractor *)

Lemma ocr_pages_keeps_world (ext : externals) pages :
  forall i acc w w' r, extractor.ocr_pages ext i pages acc w = (w', r) -> w' = w.
Proof.
  induction pages as [|page rest IH]; intros i acc w w' r H.
  - injection H as <- _. reflexivity.
  - cbn [extractor.ocr_pages] in H. rewrite bind_lift in H.
    destruct (image_to_string ext page) as [t|e].
    + exact (IH _ _ _ _ _ H).
    + injection H as <- _. reflexivity.
Qed.

Lemma ocr_pages_raise (ext : externals) pages :
  forall i acc w w' e,
    extractor.ocr_pages ext i pages acc w = (w', Raise e) ->
    exists done page rest texts,
      pages = done ++ page :: rest
      /\ Forall2 (fun p t => image_to_string ext p = Ok t) done texts
      /\ image_to_string ext page = Raise e.
Proof.
  induction pages as [|page rest IH]; intros i acc w w' e H.
  - discriminate H.
  - cbn [extractor.ocr_pages] in H. rewrite bind_lift in H.
    destruct (image_to_string ext page) as [t|e'] eqn:E.
    + destruct (IH _ _ _ _ _ H) as [done [page' [rest' [texts [-> [Hd He]]]]]].
      exists (page :: done), page', rest', (t :: texts).
      split; [reflexivity|]. split; [constructor; assumption | exact He].
    + injection H as _ <-. exists [], page, rest, [].
      split; [reflexivity|]. split; [constructor | exact E].
Qed.

Lemma extract_text_from_pdf_raise (ext : externals) pdf_path output_txt_path w w' e :
  extractor.extract_text_from_pdf ext pdf_path output_txt_path w = (w', Raise e) ->
  fs w' = fs w.
Proof.
  unfold extractor.extract_text_from_pdf. rewrite bind_print, bind_lift.
  destruct (convert_from_path ext pdf_path) as [pages|e'].
  - unfold bind at 1.
    destruct (extractor.ocr_pages ext 0 pages [] (printed _ w)) as [w1 [t|e']] eqn:E;
      [discriminate|].
    intros H. injection H as <- _.
    apply ocr_pages_keeps_world in E. subst w1. reflexivity.
  - intros H. injection H as <- _. reflexivity.
Qed.

(** X5: when [extract_text_from_pdf] fails, it has written nothing: the error is
    the rasterizer's, or the OCR engine's on the first page it cannot read,
    and the output file is neither created nor changed, whatever the pages
    before that one gave. *)
Theorem extract_text_from_pdf_failure (ext : externals) (pdf_path output_txt_path : pystr)
    (w w' : world) (e : exn) :
  extractor.extract_text_from_pdf ext pdf_path output_txt_path w = (w', Raise e) ->
  fs w' = fs w
  /\ stdout w' = stdout w ++ [lit "Extracting text from " ++ pdf_path ++ lit "..."]
  /\ (convert_from_path ext pdf_path = Raise e
      \/ exists done page rest texts,
           convert_from_path ext pdf_path = Ok (done ++ page :: rest)
           /\ Forall2 (fun p t => image_to_string ext p = Ok t) done texts
           /\ image_to_string ext page = Raise e).
Proof.
  unfold extractor.extract_text_from_pdf. rewrite bind_print, bind_lift.
  destruct (convert_from_path ext pdf_path) as [pages|e'].
  - unfold bind at 1.
    destruct (extractor.ocr_pages ext 0 pages [] (printed _ w)) as [w1 [t|e']] eqn:E.
    + discriminate.
    + intros H. injection H as <- <-.
      apply ocr_pages_keeps_world in E as E'. subst w1.
      split; [reflexivity|]. split; [reflexivity|]. right.
      destruct (ocr_pages_raise ext pages _ _ _ _ _ E)
        as [done [page [rest [texts [-> [Hd He]]]]]].
      exists done, page, rest, texts. split; [reflexivity|]. split; assumption.
  - intros H. injection H as <- <-.
    split; [reflexivity|]. split; [reflexivity|]. left. reflexivity.
Qed.

(** An OCR engine that cannot read a blank page. *)
Definition blank_page_fails : externals :=
  {| image := pystr;
     convert_from_path := fun _ => Ok [lit "Q1"; []; lit "Q3"];
     image_to_string :=
       fun t => match t with [] => Raise (ExternalError (lit "blank page")) | _ => Ok t end;
     files_upload := files_upload no_model;
     generate_content := generate_content no_model;
     files_delete := files_delete no_model;
     json_dumps := json_dumps no_model;
     json_dump := json_dump no_model;
     float_repr := float_repr no_model;
     str_repr := str_repr no_model;
     str_upper := str_upper no_model;
     py_limits := py_limits no_model |}.

Definition blank_page_run : world * result pystr :=
  Eval vm_compute in
    extractor.extract_text_from_pdf blank_page_fails (lit "questions.pdf")
      (lit "question.txt") empty_world.

Lemma extract_text_from_pdf_failure_witness :
  fs (fst blank_page_run) = ∅.
Proof.
  refine (proj1 (extract_text_from_pdf_failure blank_page_fails (lit "questions.pdf")
                   (lit "question.txt") empty_world (fst blank_page_run)
                   (ExternalError (lit "blank page")) _)).
  vm_compute. reflexivity.
Defined.

Lemma ocr_pages_ok (ext : externals) pages :
  forall i acc w w' t,
    extractor.ocr_pages ext i pages acc w = (w', Ok t) ->
    exists texts,
      Forall2 (fun p t => image_to_string ext p = Ok t) pages texts
      /\ t = acc ++ pages_text (i + 1) texts.
Proof.
  induction pages as [|page rest IH]; intros i acc w w' t H.
  - injection H as _ <-. exists []. split; [constructor|].
    cbn [pages_text]. rewrite app_nil_r. reflexivity.
  - cbn [extractor.ocr_pages] in H. rewrite bind_lift in H.
    destruct (image_to_string ext page) as [t0|e] eqn:E; [|discriminate].
    destruct (IH _ _ _ _ _ H) as [texts [Hf ->]].
    exists (t0 :: texts). split; [constructor; assumption|].
    cbn [pages_text]. rewrite <- app_assoc.
    replace (S i + 1) with (S (i + 1)) by lia. reflexivity.
Qed.

Lemma extract_text_from_pdf_ok (ext : externals) pdf_path output_txt_path w w' t :
  extractor.extract_text_from_pdf ext pdf_path output_txt_path w = (w', Ok t) ->
  exists pages texts,
    convert_from_path ext pdf_path = Ok pages
    /\ Forall2 (fun p t => image_to_string ext p = Ok t) pages texts
    /\ t = pages_text 1 texts
    /\ fs w' !! output_txt_path = Some t
    /\ (forall p, p <> output_txt_path -> fs w' !! p = fs w !! p).
Proof.
  unfold extractor.extract_text_from_pdf. rewrite bind_print, bind_lift.
  destruct (convert_from_path ext pdf_path) as [pages|e]; [|discriminate].
  unfold bind at 1.
  destruct (extractor.ocr_pages ext 0 pages [] (printed _ w)) as [w1 [t1|e]] eqn:E;
    [|discriminate].
  apply ocr_pages_keeps_world in E as E'. subst w1.
  apply ocr_pages_ok in E as [texts [Hf ->]].
  unfold bind, open_w, fwrite, print, ret. cbn [fs stdout environ printed].
  intros H. injection H as <- <-. cbn [fs].
  exists pages, texts. split; [reflexivity|]. split; [exact Hf|].
  split; [reflexivity|]. split.
  - rewrite !lookup_insert_eq. reflexivity.
  - intros p Hp. rewrite !lookup_insert_ne by congruence. reflexivity.
Qed.

(** X6: the Extractor run as a program: with both PDFs read, [question.txt] and
    [solutions.txt] hold the page texts of [questions.pdf] and
    [solutions.pdf]; a run that fails leaves [solutions.txt] as it was; and
    no other file is touched either way. *)
Theorem extractor_main_files (ext : externals) (w w' : world) (r : result unit) :
  extractor.main ext w = (w', r) ->
  (forall p, p <> lit "question.txt" -> p <> lit "solutions.txt" ->
             fs w' !! p = fs w !! p)
  /\ match r with
     | Ok _ =>
       exists qpages qtexts spages stexts,
         convert_from_path ext (lit "questions.pdf") = Ok qpages
         /\ Forall2 (fun p t => image_to_string ext p = Ok t) qpages qtexts
         /\ convert_from_path ext (lit "solutions.pdf") = Ok spages
         /\ Forall2 (fun p t => image_to_string ext p = Ok t) spages stexts
         /\ fs w' !! lit "question.txt" = Some (pages_text 1 qtexts)
         /\ fs w' !! lit "solutions.txt" = Some (pages_text 1 stexts)
     | Raise _ => fs w' !! lit "solutions.txt" = fs w !! lit "solutions.txt"
     end.
Proof.
  unfold extractor.main. unfold bind at 1.
  destruct (extractor.extract_text_from_pdf ext (lit "questions.pdf")
              (lit "question.txt") w) as [w1 [t1|e1]] eqn:E1.
  - apply extract_text_from_pdf_ok in E1
      as [qpages [qtexts [Hq1 [Hq2 [-> [Hq3 Hq4]]]]]].
    unfold bind at 1.
    destruct (extractor.extract_text_from_pdf ext (lit "solutions.pdf")
                (lit "solutions.txt") w1) as [w2 [t2|e2]] eqn:E2.
    + apply extract_text_from_pdf_ok in E2
        as [spages [stexts [Hs1 [Hs2 [-> [Hs3 Hs4]]]]]].
      intros H. injection H as <- <-. cbn [fs]. split.
      * intros p Hp1 Hp2. rewrite (Hs4 p Hp2). exact (Hq4 p Hp1).
      * exists qpages, qtexts, spages, stexts.
        split; [exact Hq1|]. split; [exact Hq2|]. split; [exact Hs1|].
        split; [exact Hs2|]. split; [|exact Hs3].
        rewrite Hs4; [exact Hq3|]. intros E. vm_compute in E. discriminate E.
    + apply extract_text_from_pdf_raise in E2 as F.
      intros H. injection H as <- <-. rewrite F. split.
      * intros p Hp1 _. exact (Hq4 p Hp1).
      * apply Hq4. intros E. vm_compute in E. discriminate E.
  - apply extract_text_from_pdf_raise in E1 as F.
    intros H. injection H as <- <-. rewrite F. split; [intros; reflexivity | reflexivity].
Qed.

Lemma extractor_main_files_witness :
  fs (fst (extractor.main blank_page_fails empty_world)) !! lit "solutions.txt" = None.
Proof.
  pose proof (extractor_main_files blank_page_fails empty_world
                (fst (extractor.main blank_page_fails empty_world))
                (Raise (ExternalError (lit "blank page")))) as H.
  apply proj2 in H; [exact H | vm_compute; reflexivity].
Defined.

(** *** What the driver leaves untouched *)

Lemma evolves_weaken ps qs w w' : incl ps qs -> evolves ps w w' -> evolves qs w w'.
Proof.
  intros Hi [F [S E]]. split; [|split; assumption].
  intros p Hp. apply F. intros Hin. apply Hp, Hi, Hin.
Qed.

Lemma tame_weaken ps qs {A} (c : M A) : incl ps qs -> tame ps c -> tame qs c.
Proof. intros Hi Hc w w' r H. eapply evolves_weaken; [exact Hi | eapply Hc, H]. Qed.

Lemma tame_extract_solutions (ext : externals) c path :
  tame [] (htr_pipeline.extract_solutions ext c path).
Proof.
  unfold htr_pipeline.extract_solutions, htr_pipeline._call_gemini.
  repeat tame_step.
Qed.

Lemma tame_generate_report (ext : externals) extracted solutions grading path :
  tame [path] (htr_pipeline.generate_report ext extracted solutions grading path).
Proof. unfold htr_pipeline.generate_report. repeat tame_step. Qed.

(** The files the driver writes. *)
Definition pipeline_outputs : list pystr :=
  [ lit "handwritten-ans.txt"; lit "handwritten-ans.json";
    htr_pipeline.OUTPUT_JSON; htr_pipeline.OUTPUT_REPORT ].

Lemma pipeline_outputs_transcriber :
  incl [lit "handwritten-ans.txt"; lit "handwritten-ans.json"] pipeline_outputs.
Proof.
  intros p [<-|[<-|[]]]; [left; reflexivity | right; left; reflexivity].
Qed.

Lemma pipeline_outputs_json : In htr_pipeline.OUTPUT_JSON pipeline_outputs.
Proof. right. right. left. reflexivity. Qed.

Lemma pipeline_outputs_report : incl [htr_pipeline.OUTPUT_REPORT] pipeline_outputs.
Proof. intros p [<-|[]]. right. right. right. left. reflexivity. Qed.

Ltac tame_pipeline_step :=
  lazymatch goal with
  | |- tame _ htr.get_client => apply tame_get_client
  | |- tame _ (htr.extract_handwritten_text _ _ _ _) =>
    exact (tame_weaken _ _ _ pipeline_outputs_transcriber
             (tame_extract_handwritten_text _ _ _ _))
  | |- tame _ (htr_pipeline.extract_solutions _ _ _) =>
    exact (tame_weaken [] _ _ (incl_nil_l _) (tame_extract_solutions _ _ _))
  | |- tame _ (htr_pipeline.grade_answers _ _ _ _ _) =>
    exact (tame_weaken [] _ _ (incl_nil_l _) (tame_grade_answers _ _ _ _ _))
  | |- tame _ (htr_pipeline.generate_report _ _ _ _ _) =>
    exact (tame_weaken _ _ _ pipeline_outputs_report (tame_generate_report _ _ _ _ _))
  | |- tame _ (open_w _) => exact (tame_open_w _ _ pipeline_outputs_json)
  | |- tame _ (fwrite _ _) => exact (tame_fwrite _ _ _ pipeline_outputs_json)
  | |- tame _ (bind _ _) => apply tame_bind; [|intros ?]
  | |- tame _ (ret _) => apply tame_ret
  | |- tame _ (print _) => apply tame_print
  | |- tame _ (path_exists _) => apply tame_path_exists
  | |- tame _ (read_file _) => apply tame_read_file
  | |- tame _ (if ?x then _ else _) => destruct x
  end.

Lemma tame_run_pipeline (ext : externals) :
  tame pipeline_outputs (htr_pipeline.run_pipeline ext).
Proof. unfold htr_pipeline.run_pipeline. repeat tame_pipeline_step. Qed.

(** X7: whatever the external services answer and however the run ends,
    [run_pipeline] changes no file but its four outputs: the inputs
    [handwritten-ans.pdf], [solutions.txt] and [question.txt] are as they
    were; the environment is unchanged and the console has only grown. *)
Theorem run_pipeline_touches_outputs_only (ext : externals) (w w' : world)
    (r : result value) :
  htr_pipeline.run_pipeline ext w = (w', r) ->
  (forall p, ~ In p pipeline_outputs -> fs w' !! p = fs w !! p)
  /\ fs w' !! htr_pipeline.HANDWRITTEN_PDF = fs w !! htr_pipeline.HANDWRITTEN_PDF
  /\ fs w' !! lit "solutions.txt" = fs w !! lit "solutions.txt"
  /\ fs w' !! lit "question.txt" = fs w !! lit "question.txt"
  /\ environ w' = environ w
  /\ exists printed_lines, stdout w' = stdout w ++ printed_lines.
Proof.
  intros H. destruct (tame_run_pipeline ext w w' r H) as [F [S E]].
  assert (forall p, forallb (fun q => negb (pystr_eqb p q)) pipeline_outputs = true ->
                    ~ In p pipeline_outputs) as N.
  { intros p Hp Hin. rewrite forallb_forall in Hp. specialize (Hp p Hin).
    rewrite pystr_eqb_refl in Hp. discriminate Hp. }
  split; [exact F|].
  split; [apply F, N; vm_compute; reflexivity|].
  split; [apply F, N; vm_compute; reflexivity|].
  split; [apply F, N; vm_compute; reflexivity|].
  split; [exact E | exact S].
Qed.

(** The run of the driver on the demonstration world. *)
Definition demo_run : world * result value :=
  Eval vm_compute in htr_pipeline.run_pipeline demo_externals demo_world.

Lemma run_pipeline_touches_outputs_only_witness :
  fs (fst demo_run) !! lit "question.txt" = None
  /\ environ (fst demo_run) = environ demo_world.
Proof.
  destruct (run_pipeline_touches_outputs_only demo_externals demo_world
              (fst demo_run) (snd demo_run)) as [_ [_ [_ [H [E _]]]]].
  - vm_compute. reflexivity.
  - split; [exact H | exact E].
Defined.

(** *** The report is written last *)

(** A computation that, when it fails, has left the file [p] as it was. *)
Definition fails_clean (p : pystr) {A} (c : M A) : Prop :=
  forall w w' e, c w = (w', Raise e) -> fs w' !! p = fs w !! p.

Lemma fails_clean_tame p ps {A} (c : M A) : ~ In p ps -> tame ps c -> fails_clean p c.
Proof. intros Hp Hc w w' e H. destruct (Hc w w' _ H) as [F _]. exact (F p Hp). Qed.

Lemma fails_clean_bind p ps {A B} (c : M A) (k : A -> M B) :
  ~ In p ps -> tame ps c -> (forall a, fails_clean p (k a)) -> fails_clean p (bind c k).
Proof.
  intros Hp Hc Hk w w' e H. unfold bind in H.
  destruct (c w) as [w1 [a|e1]] eqn:E.
  - destruct (Hc w w1 _ E) as [F _]. rewrite <- (F p Hp). exact (Hk a w1 w' e H).
  - injection H as <- _. destruct (Hc w w1 _ E) as [F _]. exact (F p Hp).
Qed.

(** The files the driver writes before the report. *)
Definition pipeline_earlier_outputs : list pystr :=
  [ lit "handwritten-ans.txt"; lit "handwritten-ans.json"; htr_pipeline.OUTPUT_JSON ].

Lemma report_not_earlier : ~ In htr_pipeline.OUTPUT_REPORT pipeline_earlier_outputs.
Proof. intros [E|[E|[E|[]]]]; vm_compute in E; discriminate E. Qed.

Lemma earlier_outputs_transcriber :
  incl [lit "handwritten-ans.txt"; lit "handwritten-ans.json"] pipeline_earlier_outputs.
Proof.
  intros p [<-|[<-|[]]]; [left; reflexivity | right; left; reflexivity].
Qed.

Lemma earlier_outputs_json : In htr_pipeline.OUTPUT_JSON pipeline_earlier_outputs.
Proof. right. right. left. reflexivity. Qed.

Ltac tame_earlier_step :=
  lazymatch goal with
  | |- tame _ htr.get_client => apply tame_get_client
  | |- tame _ (htr.extract_handwritten_text _ _ _ _) =>
    exact (tame_weaken _ _ _ earlier_outputs_transcriber
             (tame_extract_handwritten_text _ _ _ _))
  | |- tame _ (htr_pipeline.extract_solutions _ _ _) =>
    exact (tame_weaken [] _ _ (incl_nil_l _) (tame_extract_solutions _ _ _))
  | |- tame _ (htr_pipeline.grade_answers _ _ _ _ _) =>
    exact (tame_weaken [] _ _ (incl_nil_l _) (tame_grade_answers _ _ _ _ _))
  | |- tame _ (open_w _) => exact (tame_open_w _ _ earlier_outputs_json)
  | |- tame _ (fwrite _ _) => exact (tame_fwrite _ _ _ earlier_outputs_json)
  | |- tame _ (bind _ _) => apply tame_bind; [|intros ?]
  | |- tame _ (ret _) => apply tame_ret
  | |- tame _ (print _) => apply tame_print
  | |- tame _ (path_exists _) => apply tame_path_exists
  | |- tame _ (read_file _) => apply tame_read_file
  | |- tame _ (if ?x then _ else _) => destruct x
  end.

Lemma generate_report_raise (ext : externals) extracted solutions grading path w w' e :
  htr_pipeline.generate_report ext extracted solutions grading path w = (w', Raise e) ->
  w' = w /\ htr_pipeline.report_text ext extracted grading = Raise e.
Proof.
  unfold htr_pipeline.generate_report. rewrite bind_lift.
  destruct (htr_pipeline.report_text ext extracted grading) as [t|e1].
  - unfold bind, open_w, fwrite, print, ret. discriminate.
  - intros H. injection H as <- <-. split; reflexivity.
Qed.

(** X8: [grading_report.txt] is written by a run of the driver that succeeds and
    by no other: when [run_pipeline] raises, at whatever step, the report
    file is as it was before the run. *)
Theorem run_pipeline_report_only_on_success (ext : externals) (w w' : world) (e : exn) :
  htr_pipeline.run_pipeline ext w = (w', Raise e) ->
  fs w' !! htr_pipeline.OUTPUT_REPORT = fs w !! htr_pipeline.OUTPUT_REPORT.
Proof.
  revert w w' e. change (fails_clean htr_pipeline.OUTPUT_REPORT (htr_pipeline.run_pipeline ext)).
  unfold htr_pipeline.run_pipeline.
  repeat (apply (fails_clean_bind _ pipeline_earlier_outputs);
          [exact report_not_earlier | solve [repeat tame_earlier_step] | intros ?]).
  intros w w' e H. unfold bind at 1 in H.
  destruct (htr_pipeline.generate_report _ _ _ _ _ w) as [w1 [t|e1]] eqn:E.
  - unfold bind, print, ret in H. discriminate H.
  - injection H as <- _. apply generate_report_raise in E as [-> _]. reflexivity.
Qed.

(** A model whose grading misses the question number of its one entry. *)
Definition unnumbered_answer (contents : list part) : result (option pystr) :=
  match contents with
  | [PFile _; PText _] => Ok (Some (qlit "{'answers': []}"))
  | _ => Ok (Some (qlit "{'results': [{'marks_awarded': 1}]}"))
  end.

Definition unnumbered_run : world * result value :=
  Eval vm_compute in
    htr_pipeline.run_pipeline (stub_externals [] unnumbered_answer) demo_world.

Lemma run_pipeline_report_only_on_success_witness :
  fs (fst unnumbered_run) !! htr_pipeline.OUTPUT_REPORT
  = fs demo_world !! htr_pipeline.OUTPUT_REPORT.
Proof.
  apply (run_pipeline_report_only_on_success (stub_externals [] unnumbered_answer)
           demo_world (fst unnumbered_run) (KeyError (lit "question_number"))).
  vm_compute. reflexivity.
Defined.

(** *** A report that cannot be rendered *)




(** *** A transcription that succeeds *)

Lemma bind_ok_inv {A B} (c : M A) (k : A -> M B) w w' b :
  bind c k w = (w', Ok b) -> exists w1 a, c w = (w1, Ok a) /\ k a w1 = (w', Ok b).
Proof.
  unfold bind. destruct (c w) as [w1 [a|e]]; [|discriminate].
  intros H. exists w1, a. split; [reflexivity | exact H].
Qed.

Lemma bind_swallow_lift {A B} (r : result A) (k : unit -> M B) w :
  bind (swallow (lift r)) k w = k tt w.
Proof. reflexivity. Qed.

(** A computation that, when it ends well, returns [v]. *)
Definition returns {A} (v : A) (c : M A) : Prop :=
  forall w w' r, c w = (w', Ok r) -> r = v.

Lemma returns_ret {A} (v : A) : returns v (ret v).
Proof. intros w w' r H. injection H as _ <-. reflexivity. Qed.

Lemma returns_raise {A} (v : A) e : returns v (raise e).
Proof. intros w w' r H. discriminate H. Qed.

Lemma returns_bind {A B} (v : B) (c : M A) (k : A -> M B) :
  (forall a, returns v (k a)) -> returns v (bind c k).
Proof.
  intros Hk w w' r H. unfold bind in H.
  destruct (c w) as [w1 [a|e]]; [exact (Hk a w1 w' r H) | discriminate H].
Qed.

(** A file written in one piece and left alone afterwards holds the piece. *)
Lemma saved_file {B} ps p s (rest : M B) w w' b :
  (open_w p ;; fwrite p s ;; rest) w = (w', Ok b) ->
  tame ps rest -> ~ In p ps -> fs w' !! p = Some s.
Proof.
  unfold bind at 1 2. unfold open_w at 1. unfold fwrite at 1.
  intros H Hr Hp. destruct (Hr _ _ _ H) as [F _].
  rewrite (F p Hp). cbn [fs]. rewrite !lookup_insert_eq. reflexivity.
Qed.

(** One step of a run that ends well. *)
Ltac step_ok H :=
  lazymatch type of H with
  | bind (print _) _ _ = _ => rewrite bind_print in H; cbv beta in H
  | bind (ret _) _ _ = _ => rewrite bind_ret in H; cbv beta in H
  | bind (swallow (lift _)) _ _ = _ => rewrite bind_swallow_lift in H; cbv beta in H
  | bind (lift ?r) _ _ = (_, Ok _) =>
    rewrite bind_lift in H;
    let x := fresh "x" in
    let E := fresh "E" in
    destruct r as [x|?] eqn:E; [|discriminate H]
  | bind (if ?b then _ else _) _ _ = _ => destruct b
  end.

Lemma tame_write_answer (ext : externals) output_txt ans :
  tame [output_txt] (htr.write_answer ext output_txt ans).
Proof. unfold htr.write_answer. repeat tame_step. Qed.

Lemma upload_pdf_ok (ext : externals) c pdf_path w w' f :
  htr.upload_pdf ext c pdf_path w = (w', Ok f) ->
  files_upload ext c pdf_path = Ok f /\ fs w' = fs w /\ environ w' = environ w.
Proof.
  unfold htr.upload_pdf. rewrite bind_print, bind_lift.
  destruct (files_upload ext c pdf_path) as [u|e]; [|discriminate].
  rewrite bind_print. unfold ret. intros H. injection H as <- <-.
  split; [reflexivity|split; reflexivity].
Qed.

Lemma extract_all_pages_ok (ext : externals) c f w w' v :
  htr.extract_all_pages ext c f w = (w', Ok v) ->
  exists text,
    generate_content ext c htr.GEMINI_MODEL [PFile f; PText htr.prompt] = Ok (Some text)
    /\ htr.parse_response (py_limits ext) text = Ok v
    /\ fs w' = fs w /\ environ w' = environ w.
Proof.
  unfold htr.extract_all_pages. rewrite bind_print, bind_lift.
  destruct (generate_content ext c htr.GEMINI_MODEL [PFile f; PText htr.prompt])
    as [[text|]|e]; [|discriminate|discriminate].
  unfold lift. intros H. injection H as <- H.
  exists text. split; [reflexivity|]. split; [exact H|]. split; reflexivity.
Qed.

Lemma get_client_ok_inv w w' c :
  htr.get_client w = (w', Ok c) -> w' = w /\ environ w !! key_name = Some (api_key c).
Proof.
  rewrite get_client_run. destruct (environ w !! key_name) as [k|]; [|discriminate].
  destruct (usable_key k); [|discriminate].
  intros H. injection H as <- <-. split; reflexivity.
Qed.

(** X10: the result of a transcription that succeeds records where it came
    from: it is the object the model's response was read as, with
    [source_pdf] set to the path of the PDF and [api_calls_used] to 1,
    whatever the response said of these two; and it is what the JSON output
    file holds. *)
Theorem transcription_records_provenance (ext : externals)
    (pdf_path output_txt output_json : pystr) (w w' : world) (result : value) :
  htr.extract_handwritten_text ext pdf_path output_txt output_json w = (w', Ok result) ->
  py_getitem result (lit "source_pdf") = Ok (VStr pdf_path)
  /\ py_getitem result (lit "api_calls_used") = Ok (VInt 1)
  /\ (output_txt <> output_json -> fs w' !! output_json = Some (json_dump ext result))
  /\ exists c f text read,
       environ w !! key_name = Some (api_key c)
       /\ files_upload ext c pdf_path = Ok f
       /\ generate_content ext c htr.GEMINI_MODEL [PFile f; PText htr.prompt]
          = Ok (Some text)
       /\ htr.parse_response (py_limits ext) text = Ok read
       /\ forall k, k <> lit "source_pdf" -> k <> lit "api_calls_used" ->
                    py_getitem result k = py_getitem read k.
Proof.
  unfold htr.extract_handwritten_text. intros H.
  repeat (rewrite bind_print in H; cbv beta in H). rewrite !printed_printed in H.
  apply bind_ok_inv in H as [w1 [c [Hc H]]].
  apply get_client_ok_inv in Hc as [-> Hkey]. cbn [environ printed] in Hkey.
  rewrite bind_print in H.
  apply bind_ok_inv in H as [w2 [f [Hup H]]].
  apply upload_pdf_ok in Hup as [Hup _].
  rewrite bind_print in H.
  apply bind_ok_inv in H as [w3 [v [Hgen H]]].
  apply extract_all_pages_ok in Hgen as [text [Hgen [EP _]]].
  destruct v as [| | | | | |d];
    try (rewrite bind_swallow_lift, bind_lift in H; discriminate H).
  repeat step_ok H.
  all: repeat step_ok H.
  all: match type of H with ?body ?w0 = _ => assert (returns
         (VDict (dict_set (lit "api_calls_used") (VInt 1)
                   (dict_set (lit "source_pdf") (VStr pdf_path) d))) body) as R
         by (repeat first [ apply returns_ret | apply returns_raise
                          | apply returns_bind; intros ? ]) end.
  all: apply R in H as Hres; subst result.
  all: split; [cbn [py_getitem];
               rewrite dict_lookup_set_ne by (intros E'; vm_compute in E'; discriminate E');
               rewrite dict_lookup_set_eq; reflexivity|].
  all: split; [cbn [py_getitem]; rewrite dict_lookup_set_eq; reflexivity|].
  all: split;
    [intros Hne; apply (saved_file [output_txt]) in H;
     [exact H
     |repeat first [apply tame_write_answer | tame_step]
     |intros [->|[]]; apply Hne; reflexivity]|].
  all: exists c, f, text, (VDict d); split; [exact Hkey|]; split; [exact Hup|];
    split; [exact Hgen|]; split; [exact EP|].
  all: intros k K1 K2; cbn [py_getitem];
    rewrite !dict_lookup_set_ne by assumption; reflexivity.
Qed.

(** *** A transcription whose response cannot be read *)

Lemma transcription_records_provenance_witness :
  py_getitem demo_extracted (lit "source_pdf") = Ok (VStr htr_pipeline.HANDWRITTEN_PDF).
Proof.
  destruct (transcription_records_provenance demo_externals htr_pipeline.HANDWRITTEN_PDF
              (lit "handwritten-ans.txt") (lit "handwritten-ans.json")
              (printed pipeline_banner demo_world) (fst demo_transcription)
              demo_extracted) as [H _].
  - vm_compute. reflexivity.
  - exact H.
Defined.

Lemma run_print {B} l (k : unit -> M B) m o e :
  bind (print l) k (mk_world m o e) = k tt (mk_world m (o ++ [l]) e).
Proof. reflexivity. Qed.

Lemma run_open_w {B} p (k : unit -> M B) m o e :
  bind (open_w p) k (mk_world m o e) = k tt (mk_world (<[p := []]> m) o e).
Proof. reflexivity. Qed.

Lemma run_fwrite {B} p s t (k : unit -> M B) m o e :
  bind (fwrite p s) k (mk_world (<[p := t]> m) o e)
  = k tt (mk_world (<[p := t ++ s]> m) o e).
Proof.
  unfold bind, fwrite. cbn [fs stdout environ].
  rewrite lookup_insert_eq, insert_insert_eq. reflexivity.
Qed.

Lemma upload_pdf_run (ext : externals) c pdf_path f m o e :
  files_upload ext c pdf_path = Ok f ->
  htr.upload_pdf ext c pdf_path (mk_world m o e)
  = (mk_world m ((o ++ [lit "  Uploading PDF to Gemini File API..."])
                 ++ [lit "  Uploaded: " ++ name f]) e, Ok f).
Proof.
  intros H. unfold htr.upload_pdf. rewrite run_print, bind_lift, H, run_print.
  reflexivity.
Qed.

Lemma extract_all_pages_run (ext : externals) c f text v m o e :
  generate_content ext c htr.GEMINI_MODEL [PFile f; PText htr.prompt] = Ok (Some text) ->
  htr.parse_response (py_limits ext) text = Ok v ->
  htr.extract_all_pages ext c f (mk_world m o e)
  = (mk_world m (o ++ [lit "  Sending entire PDF in ONE request (all pages at once)..."]) e,
     Ok v).
Proof.
  intros H P. unfold htr.extract_all_pages. rewrite run_print, bind_lift, H, P. reflexivity.
Qed.

Lemma write_answer_run (ext : externals) output_txt ans qn t body c m o e :
  py_getitem ans (lit "question_number") = Ok qn ->
  py_get ans (lit "answer_type") (VStr (lit "written")) = Ok (VStr t) ->
  py_getitem ans (lit "answer_text") = Ok body ->
  htr.write_answer ext output_txt ans (mk_world (<[output_txt := c]> m) o e)
  = (mk_world (<[output_txt :=
                   (c ++ lit "Q" ++ py_str ext qn ++ lit ". [" ++ str_upper ext t
                      ++ lit "]" ++ nl)
                   ++ py_str ext body ++ nl ++ nl]> m) o e, Ok tt).
Proof.
  intros Hq Ht Hb. unfold htr.write_answer.
  rewrite bind_lift, Hq, bind_lift, Ht, run_fwrite, bind_lift, Hb.
  unfold fwrite. cbn [fs stdout environ].
  rewrite lookup_insert_eq, insert_insert_eq. reflexivity.
Qed.

(** The fields of the degraded result. *)
Lemma degraded_fields raw :
  (forall dflt, py_get (htr.degraded raw) (lit "answers") dflt
     = Ok (VList [ VDict [ (lit "question_number", VStr (lit "?"));
                           (lit "answer_text", VStr raw);
                           (lit "answer_type", VStr (lit "raw")) ] ]))
  /\ (forall dflt, py_get (htr.degraded raw) (lit "total_questions_found") dflt
        = Ok (VInt 0))
  /\ (forall dflt, py_get (htr.degraded raw) (lit "pages_processed") dflt
        = Ok (VStr (lit "unknown")))
  /\ (forall dflt, py_get (htr.degraded raw) (lit "extraction_notes") dflt
        = Ok (VStr (lit "JSON parse failed — raw text included"))).
Proof. conjs; intros dflt; vm_compute; reflexivity. Qed.

Lemma degraded_answer_fields raw :
  let ans := VDict [ (lit "question_number", VStr (lit "?"));
                     (lit "answer_text", VStr raw);
                     (lit "answer_type", VStr (lit "raw")) ] in
  py_getitem ans (lit "question_number") = Ok (VStr (lit "?"))
  /\ py_get ans (lit "answer_type") (VStr (lit "written")) = Ok (VStr (lit "raw"))
  /\ py_getitem ans (lit "answer_text") = Ok (VStr raw).
Proof. cbv zeta. conjs; vm_compute; reflexivity. Qed.

(** X11: a response that the decoder rejects as not being JSON, at both
    attempts, does not stop the Transcriber: with the key set and the upload
    and the request answered, the run ends well with the degraded result,
    marked with the PDF and the one call; the JSON file holds it, and the
    text file holds the header, with 0 questions and the note on the parse
    failure, and the whole stripped response as the answer to question
    [?]. *)
Theorem transcription_survives_bad_response (ext : externals)
    (pdf_path output_txt output_json : pystr) (w : world) (k : pystr)
    (f : uploaded_file) (text : pystr) :
  environ w !! lit "GEMINI_API_KEY" = Some k ->
  pystr_eqb k [] || pystr_eqb k (lit "your_gemini_api_key_here") = false ->
  files_upload ext (mk_client k) pdf_path = Ok f ->
  generate_content ext (mk_client k) htr.GEMINI_MODEL [PFile f; PText htr.prompt]
  = Ok (Some text) ->
  let raw := strip text in
  json_loads (py_limits ext) (strip_fences raw)
  = Raise (JSONDecodeError (strip_fences raw)) ->
  (forall block, re_search_braces raw = Some block ->
                 json_loads (py_limits ext) block = Raise (JSONDecodeError block)) ->
  output_txt <> output_json ->
  let result :=
    VDict [ (lit "answers",
             VList [ VDict [ (lit "question_number", VStr (lit "?"));
                             (lit "answer_text", VStr raw);
                             (lit "answer_type", VStr (lit "raw")) ] ]);
            (lit "total_questions_found", VInt 0);
            (lit "pages_processed", VStr (lit "unknown"));
            (lit "extraction_notes", VStr (lit "JSON parse failed — raw text included"));
            (lit "source_pdf", VStr pdf_path);
            (lit "api_calls_used", VInt 1) ] in
  exists w',
    htr.extract_handwritten_text ext pdf_path output_txt output_json w = (w', Ok result)
    /\ fs w' !! output_json = Some (json_dump ext result)
    /\ fs w' !! output_txt
       = Some (lit "# Handwritten Answers from: " ++ pdf_path ++ nl
               ++ lit "# Questions found: 0" ++ nl
               ++ lit "# Notes: JSON parse failed — raw text included" ++ nl ++ nl
               ++ lit "Q?. [" ++ str_upper ext (lit "raw") ++ lit "]" ++ nl
               ++ raw ++ nl ++ nl).
Proof.
  intros Hkey Hb Hup Hgen raw H1 H2 Hne result.
  destruct w as [m o e]. cbn [environ] in Hkey.
  destruct (degraded_fields raw) as [Ga [Gf [Gp Gn]]].
  destruct (degraded_answer_fields raw) as [Aq [At Ab]].
  assert (forall d, htr.degraded raw = VDict d ->
            VDict (dict_set (lit "api_calls_used") (VInt 1)
                     (dict_set (lit "source_pdf") (VStr pdf_path) d)) = result) as Hres.
  { intros d Hd. injection Hd as <-. vm_compute. reflexivity. }
  assert (py_get result (lit "extraction_notes") (VStr (lit "Clean extraction"))
          = Ok (VStr (lit "JSON parse failed — raw text included"))) as Rn
    by (vm_compute; reflexivity).
  assert (py_get result (lit "answers") (VList [])
          = Ok (VList [ VDict [ (lit "question_number", VStr (lit "?"));
                                (lit "answer_text", VStr raw);
                                (lit "answer_type", VStr (lit "raw")) ] ])) as Ra
    by (vm_compute; reflexivity).
  assert (py_truthy (VStr (lit "JSON parse failed — raw text included")) = true) as Tn
    by (vm_compute; reflexivity).
  eexists. split; [|split].
  - unfold htr.extract_handwritten_text. rewrite !run_print.
    rewrite (bind_ok _ _ _ _ _ (get_client_ok (mk_world m _ e) k Hkey Hb)).
    rewrite run_print.
    rewrite (bind_ok _ _ _ _ _ (upload_pdf_run ext _ _ _ m _ e Hup)).
    rewrite run_print.
    rewrite (bind_ok _ _ _ _ _
               (extract_all_pages_run ext _ _ _ _ m _ e Hgen
                  (parse_response_degraded (py_limits ext) text H1 H2))).
    fold raw.
    rewrite bind_swallow_lift.
    rewrite bind_lift, Ga. rewrite bind_lift. cbn [py_len].
    rewrite bind_lift, Gf, bind_lift, Gp, run_print, bind_lift, Gn, Tn, run_print.
    destruct (htr.degraded raw) as [| | | | | |d] eqn:Ed; try discriminate Ed.
    rewrite (Hres d eq_refl).
    rewrite run_open_w, run_fwrite, run_print, run_open_w, !run_fwrite.
    rewrite bind_lift, Rn, run_fwrite, bind_lift, Ra, bind_lift.
    cbn [py_iter for_each].
    rewrite bind_bind.
    rewrite (bind_ok _ _ _ _ _ (write_answer_run ext _ _ _ _ _ _ _ _ _ Aq At Ab)).
    rewrite bind_ret, !run_print. reflexivity.
  - cbn [fs]. rewrite lookup_insert_ne by exact Hne.
    rewrite lookup_insert_eq. reflexivity.
  - cbn [fs]. rewrite lookup_insert_eq. cbn [py_str].
    rewrite <- !app_assoc. vm_compute. reflexivity.
Qed.

(** A model that answers the transcription request with a sentence. *)
Definition sorry_externals : externals :=
  stub_externals [] (fun _ => Ok (Some (lit "  Sorry {no answers} found. "))).

Lemma transcription_survives_bad_response_witness :
  exists w' result,
    htr.extract_handwritten_text sorry_externals htr.HANDWRITTEN_PDF htr.OUTPUT_TXT
      htr.OUTPUT_JSON demo_world
    = (w', Ok result).
Proof.
  destruct (transcription_survives_bad_response sorry_externals htr.HANDWRITTEN_PDF
              htr.OUTPUT_TXT htr.OUTPUT_JSON demo_world (lit "k-123")
              (mk_uploaded (lit "files/handwritten-ans.pdf"))
              (lit "  Sorry {no answers} found. "))
    as [w' [H _]].
  - vm_compute. reflexivity.
  - vm_compute. reflexivity.
  - vm_compute. reflexivity.
  - vm_compute. reflexivity.
  - vm_compute. reflexivity.
  - intros block H. vm_compute in H. injection H as <-. vm_compute. reflexivity.
  - intros E. vm_compute in E. discriminate E.
  - eexists w', _. exact H.
Defined.

(** *** A grading that is not an object *)

(** X12: [_parse_json] accepts any JSON text, and [grade_answers] reads its
    result with [.get]: a grading response that is valid JSON but not an
    object (an array, a number, a string, [null]) makes [grade_answers] raise
    an [AttributeError], once the request is answered; no file is touched. *)
Theorem grade_answers_needs_object (ext : externals) (c : client)
    (extracted solutions : value) (questions_text : pystr) (w : world)
    (answers sols : value) (text : pystr) (v : value) :
  py_get extracted (lit "answers") (VList []) = Ok answers ->
  py_get solutions (lit "solutions") (VList []) = Ok sols ->
  generate_content ext c htr_pipeline.GEMINI_MODEL
    [PText (htr_pipeline.grading_prompt ext answers sols questions_text)]
  = Ok (Some text) ->
  htr_pipeline._parse_json (py_limits ext) (strip text) = Ok v ->
  (forall d, v <> VDict d) ->
  htr_pipeline.grade_answers ext c extracted solutions questions_text w
  = (printed [nl ++ lit "[Step 3] Grading answers..."] w, Raise AttributeError).
Proof.
  intros Ha Hs Hgen Hp Hv.
  unfold htr_pipeline.grade_answers, htr_pipeline._call_gemini.
  rewrite bind_print. cbv beta.
  rewrite bind_lift, Ha. cbv beta iota.
  rewrite bind_lift, Hs. cbv beta iota.
  rewrite bind_bind, bind_lift, Hgen. cbv beta iota.
  rewrite bind_ret. cbv beta.
  rewrite bind_lift, Hp. cbv beta iota.
  rewrite bind_lift.
  destruct v as [| | | | | |d]; try reflexivity.
  exfalso. exact (Hv d eq_refl).
Qed.

Lemma grade_answers_needs_object_witness :
  htr_pipeline.grade_answers
    (stub_externals [] (fun _ => Ok (Some (lit "[1, 2]"))))
    (mk_client (lit "key")) (VDict []) htr_pipeline.empty_solutions [] empty_world
  = (printed [nl ++ lit "[Step 3] Grading answers..."] empty_world, Raise AttributeError).
Proof.
  apply (grade_answers_needs_object
           (stub_externals [] (fun _ => Ok (Some (lit "[1, 2]"))))
           (mk_client (lit "key")) (VDict []) htr_pipeline.empty_solutions []
           empty_world (VList []) (VList []) (lit "[1, 2]")
           (VList [VInt 1; VInt 2])).
  - vm_compute. reflexivity.
  - vm_compute. reflexivity.
  - reflexivity.
  - vm_compute. reflexivity.
  - intros d H. discriminate H.
Defined.

(** *** A run of the driver that succeeds *)

(** X13: what a run of [run_pipeline] that succeeds leaves: [final_output.json]
    holds the object it returns, with the extraction, the solutions and the
    grading; [grading_report.txt] holds the report of that extraction and
    grading; and the report is the last thing printed. *)
Theorem run_pipeline_success_outputs (ext : externals) (w w' : world) (out : value) :
  htr_pipeline.run_pipeline ext w = (w', Ok out) ->
  exists extracted solutions grading report before,
    out = VDict [ (lit "extraction", extracted); (lit "solutions", solutions);
                  (lit "grading", grading) ]
    /\ fs w' !! htr_pipeline.OUTPUT_JSON = Some (json_dump ext out)
    /\ htr_pipeline.report_text ext extracted grading = Ok report
    /\ fs w' !! htr_pipeline.OUTPUT_REPORT = Some report
    /\ stdout w' = before ++ [report].
Proof.
  unfold htr_pipeline.run_pipeline. intros H.
  repeat (rewrite bind_print in H; cbv beta in H).
  apply bind_ok_inv in H as [w1 [c [_ H]]].
  rewrite bind_print in H.
  apply bind_ok_inv in H as [w2 [extracted [_ H]]].
  rewrite bind_path_exists in H. cbv beta in H.
  apply bind_ok_inv in H as [w3 [solutions [_ H]]].
  rewrite bind_path_exists in H. cbv beta in H.
  apply bind_ok_inv in H as [w4 [questions_text [_ H]]].
  apply bind_ok_inv in H as [w5 [grading [_ H]]].
  cbv zeta in H.
  pose proof H as HJ.
  apply (saved_file [htr_pipeline.OUTPUT_REPORT]) in HJ;
    [ | repeat lazymatch goal with
               | |- tame _ (htr_pipeline.generate_report _ _ _ _ _) =>
                 apply tame_generate_report
               | |- tame _ (bind _ _) => apply tame_bind; [|intros ?]
               | |- tame _ (print _) => apply tame_print
               | |- tame _ (ret _) => apply tame_ret
               end
      | intros [E|[]]; vm_compute in E; discriminate E ].
  apply bind_ok_inv in H as [wa [[] [_ H]]].
  apply bind_ok_inv in H as [wb [[] [_ H]]].
  rewrite bind_print in H.
  apply bind_ok_inv in H as [wd [report [Hrep H]]].
  rewrite !bind_print in H. unfold ret in H. injection H as <- <-.
  apply generate_report_inv in Hrep as [Hrep Hfs].
  exists extracted, solutions, grading, report, (stdout wd ++ [nl ++ times (lit "─") 60]).
  split; [reflexivity|]. split; [exact HJ|]. split; [exact Hrep|].
  split; [exact Hfs | reflexivity].
Qed.

Lemma run_pipeline_success_outputs_witness :
  fs (fst demo_run) !! htr_pipeline.OUTPUT_REPORT = Some demo_report.
Proof.
  destruct (run_pipeline_success_outputs demo_externals demo_world (fst demo_run)
              (VDict [ (lit "extraction", demo_extracted);
                       (lit "solutions", htr_pipeline.empty_solutions);
                       (lit "grading", demo_grading) ]))
    as [extracted [solutions [grading [report [before [E [_ [R [F _]]]]]]]]].
  - vm_compute. reflexivity.
  - injection E as <- _ <-. rewrite F. f_equal.
    assert (htr_pipeline.report_text demo_externals demo_extracted demo_grading
            = Ok demo_report) as R' by (vm_compute; reflexivity).
    rewrite R' in R. injection R as <-. reflexivity.
Defined.

(** *** Errors of the decoder that are not errors of the text *)

(** X14: when the decoder fails on the text without fences with an error other
    than [json.JSONDecodeError] (the nesting is too deep, an integer is too
    long), neither [_parse_json] nor the Transcriber tries the brace block
    or falls back: the error is raised as it is. *)
Theorem limit_errors_escape_the_repair (lim : limits) (raw : pystr) (e : exn) :
  json_loads lim (strip_fences raw) = Raise e ->
  (forall doc, e <> JSONDecodeError doc) ->
  htr_pipeline._parse_json lim raw = Raise e
  /\ (forall text, strip text = raw -> htr.parse_response lim text = Raise e).
Proof.
  intros H Hn. split.
  - unfold htr_pipeline._parse_json. rewrite H.
    destruct e; try reflexivity. exfalso. exact (Hn doc eq_refl).
  - intros text <-. apply parse_response_raises; assumption.
Qed.

Lemma limit_errors_escape_the_repair_witness :
  htr_pipeline._parse_json (mk_limits 2 4300) (qlit "{'a': [[1]]} or {'a': 1}")
  = Raise RecursionError.
Proof.
  refine (proj1 (limit_errors_escape_the_repair (mk_limits 2 4300)
                   (qlit "{'a': [[1]]} or {'a': 1}") RecursionError _ _)).
  - vm_compute. reflexivity.
  - intros doc E. discriminate E.
Defined.
